(** * Call-lifecycle webhook service: extraction engine and reconciler

    A shallow embedding of
    - [src/utils/informationExtractor.js] (transcript normalizer, the four
      field extractors, summary builder, phone formatting), and
    - [src/controllers/webhookController.js] (business lookup, the four event
      handlers, the call upsert, the notification flag write and the daily
      analytics counters),
    followed by the properties of the specification proved (or refuted) on
    that embedding.

    Strings are sequences of 8-bit code units ([Stdlib.Strings.String]); the
    case conversions and the whitespace class are the ASCII ones, so the
    embedding follows the JavaScript semantics on ASCII text.  Code units
    above 127 are carried along as caseless, non-blank symbols. *)

From Stdlib Require Import String Ascii List ZArith QArith Bool Lia DecimalString.
From stdpp Require Import gmap strings.
Import ListNotations.

Local Open Scope string_scope.
Local Open Scope list_scope.

(* ===================================================================== *)
(** ** JavaScript string primitives used by the sources                   *)
(* ===================================================================== *)

Module Js.

Definition code (c : ascii) : nat := nat_of_ascii c.

(** [\d] *)
Definition is_digit (c : ascii) : bool :=
  (48 <=? code c)%nat && (code c <=? 57)%nat.

(** [\s] restricted to ASCII: tab, line feed, vertical tab, form feed,
    carriage return, space. *)
Definition is_space (c : ascii) : bool :=
  ((9 <=? code c)%nat && (code c <=? 13)%nat) || (code c =? 32)%nat.

Definition is_upper (c : ascii) : bool :=
  (65 <=? code c)%nat && (code c <=? 90)%nat.

Definition is_lower (c : ascii) : bool :=
  (97 <=? code c)%nat && (code c <=? 122)%nat.

Definition lower_char (c : ascii) : ascii :=
  if is_upper c then ascii_of_nat (code c + 32) else c.

Definition upper_char (c : ascii) : ascii :=
  if is_lower c then ascii_of_nat (code c - 32) else c.

Fixpoint smap (f : ascii -> ascii) (s : string) : string :=
  match s with
  | EmptyString => EmptyString
  | String c r => String (f c) (smap f r)
  end.

Fixpoint sfilter (p : ascii -> bool) (s : string) : string :=
  match s with
  | EmptyString => EmptyString
  | String c r => if p c then String c (sfilter p r) else sfilter p r
  end.

(** [s.toLowerCase()] *)
Definition toLowerCase (s : string) : string := smap lower_char s.

(** [s.replace(/\D/g, '')] *)
Definition strip_non_digits (s : string) : string := sfilter is_digit s.

(** [s.startsWith(p)] *)
Fixpoint startsWith (p s : string) : bool :=
  match p, s with
  | EmptyString, _ => true
  | String a p', String b s' => Ascii.eqb a b && startsWith p' s'
  | String _ _, EmptyString => false
  end.

(** [s.includes(p)] *)
Fixpoint includes (s p : string) : bool :=
  startsWith p s ||
  match s with
  | EmptyString => false
  | String _ r => includes r p
  end.

(** [s.replace(/\s+/g, ' ')]: every maximal run of blanks becomes one
    space.  [in_run] records that the previous code unit was a blank. *)
Fixpoint collapse_from (in_run : bool) (s : string) : string :=
  match s with
  | EmptyString => EmptyString
  | String c r =>
      if is_space c
      then (if in_run then collapse_from true r
            else String " " (collapse_from true r))
      else String c (collapse_from false r)
  end.

Definition collapse_whitespace (s : string) : string := collapse_from false s.

(** [s.split(' ')]: the pieces between single space characters, empty
    pieces kept.  [acc] is the piece read so far. *)
Fixpoint split_from (acc : string) (s : string) : list string :=
  match s with
  | EmptyString => [acc]
  | String c r =>
      if Ascii.eqb c " " then acc :: split_from EmptyString r
      else split_from (acc +:+ String c EmptyString) r
  end.

Definition split_space (s : string) : list string := split_from EmptyString s.

(** [l.join(' ')] *)
Definition join_space (l : list string) : string := String.concat " " l.

Fixpoint drop_while (p : ascii -> bool) (s : string) : string :=
  match s with
  | EmptyString => EmptyString
  | String c r => if p c then drop_while p r else s
  end.

Fixpoint srev_onto (acc s : string) : string :=
  match s with
  | EmptyString => acc
  | String c r => srev_onto (String c acc) r
  end.

Definition srev (s : string) : string := srev_onto EmptyString s.

(** [s.trim()] *)
Definition trim (s : string) : string :=
  srev (drop_while is_space (srev (drop_while is_space s))).

(** [s.charAt(0).toUpperCase() + s.slice(1)] *)
Definition capitalize (s : string) : string :=
  match s with
  | EmptyString => EmptyString
  | String c r => String (upper_char c) r
  end.

(** [s.split(' ').map(w => w.charAt(0).toUpperCase() + w.slice(1)).join(' ')] *)
Definition capitalize_words (s : string) : string :=
  join_space (map capitalize (split_space s)).

(** A string is falsy exactly when it is empty. *)
Definition is_empty (s : string) : bool :=
  match s with EmptyString => true | String _ _ => false end.

(** [list.includes(s)] on an array of strings *)
Definition mem_string (s : string) (l : list string) : bool :=
  existsb (String.eqb s) l.

End Js.

(* ===================================================================== *)
(** ** Canonical phone format                                             *)
(* ===================================================================== *)

(** [formatPhoneNumber] of informationExtractor.js. *)
Definition formatPhoneNumber (phone : string) : string :=
  let cleaned := Js.strip_non_digits phone in
  if (String.length cleaned =? 10)%nat then "+1" +:+ cleaned
  else if (String.length cleaned =? 11)%nat && Js.startsWith "1" cleaned then "+" +:+ cleaned
  else if (String.length cleaned =? 11)%nat then "+" +:+ cleaned
  else "+" +:+ cleaned.

(** [normalizePhoneNumber] of webhookController.js.  The argument is a string
    or missing; [!phoneNumber] holds for a missing argument and for the empty
    string, and the function then returns [null]. *)
Definition normalizePhoneNumber (phoneNumber : option string) : option string :=
  match phoneNumber with
  | None => None
  | Some p =>
      if Js.is_empty p then None
      else
        let cleaned := Js.strip_non_digits p in
        Some (if (String.length cleaned =? 10)%nat then "+1" +:+ cleaned
              else if (String.length cleaned =? 11)%nat && Js.startsWith "1" cleaned then "+" +:+ cleaned
              else if (String.length cleaned =? 11)%nat then "+" +:+ cleaned
              else "+" +:+ cleaned)
  end.

(** The canonical format in the words of the specification: strip every
    non-digit, then prefix [+1] when ten digits remain and [+] otherwise. *)
Definition canonical_phone (s : string) : string :=
  let digits := Js.strip_non_digits s in
  if (String.length digits =? 10)%nat then "+1" +:+ digits else "+" +:+ digits.


(* ===================================================================== *)
(** ** Regular expressions of the extractor                               *)
(* ===================================================================== *)

(** The fragment of JavaScript regular expressions that the extractor's
    literals use: literal text, character classes, a quantified class
    ([c*], [c+], [c+?]), sequence, alternation, the capturing group and the
    end anchor.  Every literal of the source carries the [i] flag, so literal
    text is compared without regard to case. *)
Module Regex.

Inductive re : Type :=
| Eps
| Lit (s : string)
| Cls (p : ascii -> bool)
| Rep (p : ascii -> bool) (least : nat) (greedy : bool)
| Seq (r1 r2 : re)
| Alt (r1 r2 : re)
| Grp (r : re)
| Eos.

(** Literal text at the head of [s], case-insensitively; the rest of [s]. *)
Fixpoint lit_match (p s : string) : option string :=
  match p, s with
  | EmptyString, _ => Some s
  | String a p', String b s' =>
      if Ascii.eqb (Js.lower_char a) (Js.lower_char b) then lit_match p' s' else None
  | String _ _, EmptyString => None
  end.

(** [s] with 0, 1, 2, ... leading code units of class [p] removed. *)
Fixpoint rep_suffixes (p : ascii -> bool) (s : string) : list string :=
  s :: match s with
       | EmptyString => []
       | String c r => if p c then rep_suffixes p r else []
       end.

(** The text consumed between [s] and its suffix [rest]. *)
Definition consumed (s rest : string) : string :=
  String.substring 0 (String.length s - String.length rest) s.

Definition later_capture (c1 c2 : option string) : option string :=
  match c2 with Some _ => c2 | None => c1 end.

(** All the ways [r] matches at the head of [s], in the order in which a
    backtracking matcher tries them: the capture of group 1 if the group
    took part, and the text left over. *)
Fixpoint run (r : re) (s : string) : list (option string * string) :=
  match r with
  | Eps => [(None, s)]
  | Lit p => match lit_match p s with Some rest => [(None, rest)] | None => [] end
  | Cls p => match s with
             | String c rest => if p c then [(None, rest)] else []
             | EmptyString => []
             end
  | Rep p least greedy =>
      let shortest_first := skipn least (rep_suffixes p s) in
      map (fun rest => (None, rest))
          (if greedy then rev shortest_first else shortest_first)
  | Seq r1 r2 =>
      flat_map (fun '(c1, rest1) =>
                  map (fun '(c2, rest2) => (later_capture c1 c2, rest2))
                      (run r2 rest1))
               (run r1 s)
  | Alt r1 r2 => run r1 s ++ run r2 s
  | Grp r1 => map (fun '(_, rest) => (Some (consumed s rest), rest)) (run r1 s)
  | Eos => match s with EmptyString => [(None, EmptyString)] | String _ _ => [] end
  end.

(** [s.match(r)] for a regular expression without the [g] flag: the
    leftmost start position at which [r] matches, with the first way it
    matches there.  [Some c] is the match array, [c] its entry 1. *)
Fixpoint search (r : re) (s : string) : option (option string) :=
  match run r s with
  | (c, _) :: _ => Some c
  | [] => match s with
          | EmptyString => None
          | String _ s' => search r s'
          end
  end.

(** [m && m[1]] for [m = s.match(r)]: the capture when it is truthy. *)
Definition capture1 (r : re) (s : string) : option string :=
  match search r s with
  | Some (Some c) => if Js.is_empty c then None else Some c
  | _ => None
  end.

Definition seqs (l : list re) : re := fold_right Seq Eps l.

Fixpoint alts (l : list re) : re :=
  match l with
  | [] => Cls (fun _ => false)
  | [r] => r
  | r :: l' => Alt r (alts l')
  end.

(** [(?:w1|w2|...)] *)
Definition words (l : list string) : re := alts (map Lit l).

End Regex.
Import Regex.

(* ===================================================================== *)
(** ** informationExtractor.js                                            *)
(* ===================================================================== *)

(** The first element of [l] on which [f] yields a value: a [for ... of]
    loop that returns from inside its body. *)
Fixpoint first_some {A B : Type} (f : A -> option B) (l : list A) : option B :=
  match l with
  | [] => None
  | x :: l' => match f x with Some y => Some y | None => first_some f l' end
  end.

Definition or_else {A : Type} (o : option A) (k : option A) : option A :=
  match o with Some _ => o | None => k end.

(** Character classes of the literals. *)
Definition cls_letter_or_space (c : ascii) : bool :=      (* [a-z\s] with flag i *)
  Js.is_lower c || Js.is_upper c || Js.is_space c.
Definition cls_not_dot (c : ascii) : bool :=              (* [^.] *)
  negb (Ascii.eqb c ".").
Definition cls_phone (c : ascii) : bool :=                (* [\d\s\-\(\)] *)
  Js.is_digit c || Js.is_space c || Ascii.eqb c "-" || Ascii.eqb c "(" || Ascii.eqb c ")".

Definition spaces1 : re := Rep Js.is_space 1 true.        (* \s+ *)
Definition spaces0 : re := Rep Js.is_space 0 true.        (* \s* *)

(** [(?:\s|,|\.|$)] *)
Definition boundary : re := alts [Cls Js.is_space; Lit ","; Lit "."; Eos].

(** [(?:\s+and|\s+but|\s+or|,|\.|$)] *)
Definition name_boundary : re :=
  alts [Seq spaces1 (Lit "and"); Seq spaces1 (Lit "but"); Seq spaces1 (Lit "or");
        Lit ","; Lit "."; Eos].

(** [/(?:information:)\s+([a-z\s]+?)(?:\s|,|\.|$)/i] *)
Definition re_name_confirmation : re :=
  seqs [Lit "information:"; spaces1; Grp (Rep cls_letter_or_space 1 false); boundary].

(** [/(?:w1|w2|...)\s+([a-z\s]+?)(?:\s+and|\s+but|\s+or|,|\.|$)/i] *)
Definition re_name (intro : list string) : re :=
  seqs [words intro; spaces1; Grp (Rep cls_letter_or_space 1 false); name_boundary].

Definition namePatterns : list re :=
  [ re_name ["my name is"; "i'm"; "i am"; "this is"; "call me"];
    re_name ["name is"; "call me"];
    re_name ["i'm"; "i am"];
    re_name ["my name is"] ].

(** [/name\s+([^.]+?)(?:\s|,|\.|$)/i] *)
Definition re_name_fallback : re :=
  seqs [Lit "name"; spaces1; Grp (Rep cls_not_dot 1 false); boundary].

Definition name_stopwords : list string :=
  ["the"; "and"; "but"; "for"; "with"; "is"; "a"].

Definition extractName (transcript : string) : option string :=
  or_else
    (match capture1 re_name_confirmation transcript with
     | Some c =>
         let name := Js.trim c in
         if (2 <? String.length name)%nat then Some (Js.capitalize name) else None
     | None => None
     end)
  (or_else
    (first_some
       (fun pattern =>
          match capture1 pattern transcript with
          | Some c =>
              let name := Js.trim c in
              if (2 <? String.length name)%nat
                 && negb (Js.mem_string (Js.toLowerCase name) name_stopwords)
              then Some (Js.capitalize_words name)
              else None
          | None => None
          end)
       namePatterns)
    (match capture1 re_name_fallback transcript with
     | Some c =>
         let name := Js.trim c in
         if (2 <? String.length name)%nat then Some (Js.capitalize_words name) else None
     | None => None
     end)).

(** [/(?:w1|w2|...)\s*([\d\s\-\(\)]+)/i] *)
Definition re_phone (intro : list string) : re :=
  seqs [words intro; spaces0; Grp (Rep cls_phone 1 true)].

Definition phonePatterns : list re :=
  [ re_phone ["my number is"; "phone number is"; "call me at"; "reach me at"; "my phone is"];
    re_phone ["number is"; "phone is"; "call me at"];
    re_phone ["it's"; "it is"] ].

(** The body of the loop of [extractPhoneNumber] for one pattern. *)
Definition phone_candidate (transcript : string) (pattern : re) : option string :=
  match capture1 pattern transcript with
  | Some c =>
      let phone := Js.strip_non_digits c in
      if (7 <=? String.length phone)%nat && (String.length phone <=? 15)%nat
      then Some (formatPhoneNumber phone)
      else None
  | None => None
  end.

Definition extractPhoneNumber (transcript : string) : option string :=
  first_some (phone_candidate transcript) phonePatterns.

(** [/(?:w1|w2|...)\s+([^.]+?)(?:\s|,|\.|$)/i] *)
Definition re_clause (intro : list string) : re :=
  seqs [words intro; spaces1; Grp (Rep cls_not_dot 1 false); boundary].

(** [/(?:w1|w2|...)\s*([^.]+?)(?:\s|,|\.|$)/i] *)
Definition re_clause0 (intro : list string) : re :=
  seqs [words intro; spaces0; Grp (Rep cls_not_dot 1 false); boundary].

Definition addressPatterns : list re :=
  [ re_clause ["i live at"; "my address is"; "located at"; "address is"];
    re_clause ["live at"];
    re_clause ["address"];
    re_clause ["at"] ].

Definition address_stopwords : list string := ["the"; "and"; "but"; "for"; "with"].

Definition street_words : list string :=
  ["street"; "avenue"; "road"; "drive"; "lane"; "way"; "blvd";
   "st"; "ave"; "rd"; "dr"; "ln"; "blvd"].

Definition extractAddress (transcript : string) : option string :=
  or_else
    (first_some
       (fun pattern =>
          match capture1 pattern transcript with
          | Some c =>
              let address := Js.trim c in
              if (5 <? String.length address)%nat
                 && negb (Js.mem_string (Js.toLowerCase address) address_stopwords)
              then Some (Js.capitalize address)
              else None
          | None => None
          end)
       addressPatterns)
  (or_else
    (match capture1 (re_clause ["address"]) transcript with
     | Some c =>
         let address := Js.trim c in
         if (5 <? String.length address)%nat then Some (Js.capitalize address) else None
     | None => None
     end)
    (match capture1 (re_clause street_words) transcript with
     | Some c =>
         let address := Js.trim c in
         if (5 <? String.length address)%nat then Some (Js.capitalize address) else None
     | None => None
     end)).

Definition servicePatterns : list re :=
  [ re_clause0 ["calling about"; "need help with"; "reason for calling";
                "i need"; "looking for"; "want to"];
    re_clause0 ["need"; "want"; "help with"];
    re_clause0 ["because"; "since"];
    re_clause0 ["about"; "regarding"];
    re_clause0 ["schedule"; "book"; "appointment"] ].

Definition businessServices : list string :=
  ["plumbing"; "hvac"; "electrical"; "tree removal"; "landscaping";
   "cleaning"; "repair"; "maintenance"; "installation"; "inspection"].

(** The first [if] of [extractReason]: the emergency keywords and the
    fixed phrase they select.  [None] when the branch is not taken. *)
Definition emergency_reason (transcript : string) : option string :=
  if Js.includes transcript "emergency" || Js.includes transcript "urgent"
     || Js.includes transcript "storm"
  then
    if Js.includes transcript "plumbing" || Js.includes transcript "sink"
       || Js.includes transcript "water"
    then Some "Emergency plumbing service"
    else if Js.includes transcript "tree" || Js.includes transcript "branch"
    then Some "Emergency tree removal"
    else if Js.includes transcript "electrical" || Js.includes transcript "power"
    then Some "Emergency electrical service"
    else Some "Emergency service request"
  else None.

(** The loop over [servicePatterns]. *)
Definition reason_from_patterns (transcript : string) : option string :=
  first_some
    (fun pattern =>
       match capture1 pattern transcript with
       | Some c =>
           let reason := Js.trim c in
           if (3 <? String.length reason)%nat then Some (Js.capitalize reason) else None
       | None => None
       end)
    servicePatterns.

(** The loop over [businessServices]. *)
Definition reason_from_services (transcript : string) : option string :=
  first_some
    (fun service =>
       if Js.includes transcript service then
         if Js.includes transcript "maintenance" || Js.includes transcript "routine"
         then Some (Js.capitalize service +:+ " maintenance")
         else if Js.includes transcript "repair" || Js.includes transcript "fix"
         then Some (Js.capitalize service +:+ " repair")
         else if Js.includes transcript "installation" || Js.includes transcript "install"
         then Some (Js.capitalize service +:+ " installation")
         else Some (Js.capitalize service +:+ " service")
       else None)
    businessServices.

(** The final fallback, [/(?:reason|need)\s+([^.]+?)(?:\s|,|\.|$)/i]. *)
Definition reason_from_confirmation (transcript : string) : option string :=
  match capture1 (re_clause ["reason"; "need"]) transcript with
  | Some c =>
      let reason := Js.trim c in
      if (3 <? String.length reason)%nat then Some (Js.capitalize reason) else None
  | None => None
  end.

(** Everything of [extractReason] below the emergency branch. *)
Definition later_reason_strategies (transcript : string) : option string :=
  or_else (reason_from_patterns transcript)
    (or_else (reason_from_services transcript)
       (reason_from_confirmation transcript)).

(** [extractReason] with the code below its first [if] as a parameter: the
    parameter is only reached when the emergency branch is not taken. *)
Definition extractReason_with (later : string -> option string)
    (transcript : string) : option string :=
  match emergency_reason transcript with
  | Some phrase => Some phrase
  | None => later transcript
  end.

Definition extractReason (transcript : string) : option string :=
  extractReason_with later_reason_strategies transcript.

(** [createCallSummary]: [reason] is [null] ([None]) or a string. *)
Definition createCallSummary (reason : option string) : string :=
  match reason with
  | None => "Customer inquiry"
  | Some r =>
      if Js.is_empty r then "Customer inquiry"
      else
        let words := List.filter (fun word => (0 <? String.length word)%nat) (Js.split_space r) in
        if (List.length words <=? 10)%nat then r
        else Js.join_space (firstn 10 words) +:+ "..."
  end.

(** Values that can reach [extractCallInformation]. *)
Inductive js_value : Type :=
| JsUndefined
| JsNull
| JsBoolean (b : bool)
| JsNumber (n : Z)
| JsString (s : string)
| JsObject.

Record ExtractedInfo : Type := mkExtractedInfo {
  name : option string;
  callback_number : option string;
  address : option string;
  reason : option string;
  call_summary : option string
}.

Definition all_null : ExtractedInfo :=
  {| name := None; callback_number := None; address := None;
     reason := None; call_summary := None |}.

(** [transcript.toLowerCase().replace(/\s+/g, ' ')] *)
Definition cleanTranscript (transcript : string) : string :=
  Js.collapse_whitespace (Js.toLowerCase transcript).

Definition extractCallInformation (transcript : js_value) : ExtractedInfo :=
  match transcript with
  | JsString s =>
      if Js.is_empty s then all_null
      else
        let clean := cleanTranscript s in
        let name := extractName clean in
        let callback_number := extractPhoneNumber clean in
        let address := extractAddress clean in
        let reason := extractReason clean in
        let call_summary := createCallSummary reason in
        {| name := name; callback_number := callback_number; address := address;
           reason := reason; call_summary := Some call_summary |}
  | _ => all_null
  end.

(* ===================================================================== *)
(** ** The record store                                                   *)
(* ===================================================================== *)

(** A column value in the object handed to [insert] or [update]:
    [Keep] is a JavaScript [undefined] (the key is dropped when the object
    is serialised, so an update leaves the column alone and an insert takes
    the column default), [Put None] is [null], [Put (Some v)] a value. *)
Inductive upd (A : Type) : Type :=
| Keep
| Put (v : option A).
Arguments Keep {A}.
Arguments Put {A} v.

Definition apply_upd {A : Type} (u : upd A) (old : option A) : option A :=
  match u with Keep => old | Put v => v end.

(** A payload field that is absent or present. *)
Definition upd_of_field {A : Type} (f : option A) : upd A :=
  match f with None => Keep | Some v => Put (Some v) end.

Module Business.
(** Table [businesses]; only the columns the controller reads. *)
Record row : Type := mk {
  id : string;
  phone_number : string;
  is_active : bool
}.
End Business.

Module Call.
(** Table [calls]: the columns of a row other than its primary key [id].
    The table maps each [id] to these columns, so that [id] is unique. *)
Record columns : Type := mkColumns {
  business_id : option string;
  caller_name : option string;
  callback_number : option string;
  address : option string;
  reason : option string;
  call_summary : option string;
  recording_url : option string;
  transcript_text : option string;
  duration : option Z;
  cost : option Q;
  call_status : option string;
  notification_sent : option bool;
  from_number : option string;
  to_number : option string;
  created_at : nat
}.

(** A row as the store returns it. *)
Record row : Type := mk {
  id : string;
  cols : columns
}.

(** The object given to [update] or (with the id) to [insert]. *)
Record patch : Type := mkPatch {
  p_business_id : upd string;
  p_caller_name : upd string;
  p_callback_number : upd string;
  p_address : upd string;
  p_reason : upd string;
  p_call_summary : upd string;
  p_recording_url : upd string;
  p_transcript_text : upd string;
  p_duration : upd Z;
  p_cost : upd Q;
  p_call_status : upd string;
  p_notification_sent : upd bool;
  p_from_number : upd string;
  p_to_number : upd string
}.

Definition no_change : patch :=
  {| p_business_id := Keep; p_caller_name := Keep; p_callback_number := Keep;
     p_address := Keep; p_reason := Keep; p_call_summary := Keep;
     p_recording_url := Keep; p_transcript_text := Keep; p_duration := Keep;
     p_cost := Keep; p_call_status := Keep; p_notification_sent := Keep;
     p_from_number := Keep; p_to_number := Keep |}.

(** The columns at their schema defaults: [call_status] defaults
    to ['completed'], [notification_sent] to [false], [created_at] to the
    time of the insert, the others to NULL. *)
Definition default_columns (now : nat) : columns :=
  {| business_id := None; caller_name := None;
     callback_number := None; address := None; reason := None;
     call_summary := None; recording_url := None; transcript_text := None;
     duration := None; cost := None; call_status := Some "completed";
     notification_sent := Some false; from_number := None; to_number := None;
     created_at := now |}.

Definition apply (p : patch) (r : columns) : columns :=
  {| business_id := apply_upd (p_business_id p) (business_id r);
     caller_name := apply_upd (p_caller_name p) (caller_name r);
     callback_number := apply_upd (p_callback_number p) (callback_number r);
     address := apply_upd (p_address p) (address r);
     reason := apply_upd (p_reason p) (reason r);
     call_summary := apply_upd (p_call_summary p) (call_summary r);
     recording_url := apply_upd (p_recording_url p) (recording_url r);
     transcript_text := apply_upd (p_transcript_text p) (transcript_text r);
     duration := apply_upd (p_duration p) (duration r);
     cost := apply_upd (p_cost p) (cost r);
     call_status := apply_upd (p_call_status p) (call_status r);
     notification_sent := apply_upd (p_notification_sent p) (notification_sent r);
     from_number := apply_upd (p_from_number p) (from_number r);
     to_number := apply_upd (p_to_number p) (to_number r);
     created_at := created_at r |}.
End Call.

Module Analytics.
(** Table [call_analytics], one row per (business_id, date); only the
    counters the controller writes. *)
Record row : Type := mk {
  total_calls : Z;
  successful_notifications : Z;
  failed_notifications : Z
}.
End Analytics.

Record Store : Type := mkStore {
  businesses : list Business.row;
  calls : gmap string Call.columns;
  call_analytics : gmap (string * string) Analytics.row
}.

(** What one store request does besides its normal course: answer with an
    [error] object, or reject the promise (which [await] turns into an
    exception). *)
Inductive fault : Type :=
| NoFault
| ReturnsError (message : string)
| Rejects (message : string).

(** The surroundings of one delivery: the calendar day and clock, the
    overall outcome of [sendAllNotifications] (which never throws), and the
    fault of each store request the delivery may issue. *)
Record Env : Type := mkEnv {
  today : string;
  now : nat;
  notification_success : bool;
  business_select_fault : fault;
  call_select_fault : fault;
  call_write_fault : fault;
  notification_write_fault : fault;
  analytics_select_fault : fault;
  analytics_write_fault : fault
}.

(** *** Computations over the store that may throw *)

Inductive outcome (A : Type) : Type :=
| Returned (a : A)
| Thrown (message : string).
Arguments Returned {A} a.
Arguments Thrown {A} message.

Definition M (A : Type) : Type := Store -> outcome A * Store.

Definition ret {A : Type} (a : A) : M A := fun st => (Returned a, st).

Definition throw {A : Type} (message : string) : M A := fun st => (Thrown message, st).

Definition bind {A B : Type} (m : M A) (k : A -> M B) : M B :=
  fun st =>
    match m st with
    | (Returned a, st') => k a st'
    | (Thrown e, st') => (Thrown e, st')
    end.

(** [try { m } catch (error) { handler }] *)
Definition try_catch {A : Type} (m : M A) (handler : string -> M A) : M A :=
  fun st =>
    match m st with
    | (Returned a, st') => (Returned a, st')
    | (Thrown e, st') => handler e st'
    end.

Notation "x <- m ;; k" := (bind m (fun x => k))
  (at level 100, m at next level, right associativity).
Notation "m ;;; k" := (bind m (fun _ => k))
  (at level 100, right associativity).

(** The [{ data, error }] answer of a store request. *)
Inductive response (A : Type) : Type :=
| Data (a : A)
| Error (message : string).
Arguments Data {A} a.
Arguments Error {A} message.

Definition no_single_row : string :=
  "JSON object requested, multiple (or no) rows returned".
Definition duplicate_key : string :=
  "duplicate key value violates unique constraint".

(** A request under a fault: a faulty request leaves the store as it is. *)
Definition request {A : Type} (f : fault) (normal : M (response A)) : M (response A) :=
  match f with
  | NoFault => normal
  | ReturnsError e => ret (Error e)
  | Rejects e => throw e
  end.

(** [from('businesses').select('*').eq('phone_number', p).eq('is_active', true).single()].
    A [null] phone equals no stored number. *)
Definition select_active_business (f : fault) (phone : option string)
  : M (response Business.row) :=
  request f (fun st =>
    match phone with
    | None => (Returned (Error no_single_row), st)
    | Some p =>
        match List.filter (fun b => String.eqb (Business.phone_number b) p
                               && Bool.eqb (Business.is_active b) true)
                     (businesses st) with
        | [b] => (Returned (Data b), st)
        | _ => (Returned (Error no_single_row), st)
        end
    end).

(** [from('calls').select('id').eq('id', call_id).single()] *)
Definition select_call (f : fault) (call_id : string) : M (response string) :=
  request f (fun st =>
    match calls st !! call_id with
    | Some _ => (Returned (Data call_id), st)
    | None => (Returned (Error no_single_row), st)
    end).

Definition set_calls (st : Store) (c : gmap string Call.columns) : Store :=
  {| businesses := businesses st; calls := c; call_analytics := call_analytics st |}.

Definition set_call_analytics (st : Store) (a : gmap (string * string) Analytics.row) : Store :=
  {| businesses := businesses st; calls := calls st; call_analytics := a |}.

(** [from('calls').update(p).eq('id', call_id).select().single()] *)
Definition update_call_single (f : fault) (call_id : string) (p : Call.patch)
  : M (response Call.row) :=
  request f (fun st =>
    match calls st !! call_id with
    | Some r =>
        let r' := Call.apply p r in
        (Returned (Data (Call.mk call_id r')), set_calls st (<[call_id := r']> (calls st)))
    | None => (Returned (Error no_single_row), st)
    end).

(** [from('calls').update(p).eq('id', call_id)]: no row is no error. *)
Definition update_call (f : fault) (call_id : string) (p : Call.patch)
  : M (response unit) :=
  request f (fun st =>
    match calls st !! call_id with
    | Some r =>
        (Returned (Data tt), set_calls st (<[call_id := Call.apply p r]> (calls st)))
    | None => (Returned (Data tt), st)
    end).

(** [from('calls').insert({ id: call_id, ...p }).select().single()]: [id] is
    the primary key. *)
Definition insert_call (f : fault) (call_id : string) (p : Call.patch) (now : nat)
  : M (response Call.row) :=
  request f (fun st =>
    match calls st !! call_id with
    | Some _ => (Returned (Error duplicate_key), st)
    | None =>
        let r := Call.apply p (Call.default_columns now) in
        (Returned (Data (Call.mk call_id r)), set_calls st (<[call_id := r]> (calls st)))
    end).

(** [from('call_analytics').select('*').eq('business_id', b).eq('date', d).single()] *)
Definition select_analytics (f : fault) (key : string * string)
  : M (response Analytics.row) :=
  request f (fun st =>
    match call_analytics st !! key with
    | Some r => (Returned (Data r), st)
    | None => (Returned (Error no_single_row), st)
    end).

(** [from('call_analytics').update(updates).eq('id', existing.id)]; the row
    is the one just selected, named here by its unique (business_id, date). *)
Definition update_analytics (f : fault) (key : string * string)
    (updates : Analytics.row -> Analytics.row) : M (response unit) :=
  request f (fun st =>
    match call_analytics st !! key with
    | Some r =>
        (Returned (Data tt),
         set_call_analytics st (<[key := updates r]> (call_analytics st)))
    | None => (Returned (Data tt), st)
    end).

(** [from('call_analytics').insert(row)]: (business_id, date) is unique. *)
Definition insert_analytics (f : fault) (key : string * string) (r : Analytics.row)
  : M (response unit) :=
  request f (fun st =>
    match call_analytics st !! key with
    | Some _ => (Returned (Error duplicate_key), st)
    | None =>
        (Returned (Data tt), set_call_analytics st (<[key := r]> (call_analytics st)))
    end).

(* ===================================================================== *)
(** ** webhookController.js                                               *)
(* ===================================================================== *)

Module Webhook.
(** The payload of one delivery.  Optional fields are absent ([None]) or
    hold a value. *)
Record data : Type := mk {
  call_id : string;
  event_type : option string;
  to_number : option string;
  from_number : option string;
  call_status : option string;
  transcript : option string;
  transcript_text : option string;
  conversation : option string;
  call_summary : option string;
  summary : option string;
  recording_url : option string;
  call_duration : option Z
}.
End Webhook.

Module Result.
(** The object a handler returns; a key the handler does not set is [None]. *)
Record t : Type := mk {
  success : bool;
  call_id : string;
  business_id : string;
  event_type : option string;
  notifications_sent : option bool;
  extracted_info : option (option ExtractedInfo);
  message : option string
}.
End Result.

(** [a || b] on optional strings: [a] when it is truthy, else [b]. *)
Definition js_or (a b : option string) : option string :=
  match a with
  | Some s => if Js.is_empty s then b else a
  | None => b
  end.

Definition truthy (a : option string) : bool :=
  match a with
  | Some s => negb (Js.is_empty s)
  | None => false
  end.

(** [webhookData.transcript || webhookData.transcript_text ||
     webhookData.conversation || webhookData.call_summary || webhookData.summary] *)
Definition transcriptText (webhookData : Webhook.data) : option string :=
  js_or (js_or (js_or (js_or (Webhook.transcript webhookData)
                             (Webhook.transcript_text webhookData))
                      (Webhook.conversation webhookData))
               (Webhook.call_summary webhookData))
        (Webhook.summary webhookData).

(** [extractedInfo.f] where [extractedInfo] is [{}] ([None]) or the result
    of [extractCallInformation]. *)
Definition info_field (f : ExtractedInfo -> option string)
    (extractedInfo : option ExtractedInfo) : upd string :=
  match extractedInfo with
  | None => Keep
  | Some e => Put (f e)
  end.

(** [webhookData.call_duration || 0] *)
Definition duration_of (webhookData : Webhook.data) : Z :=
  match Webhook.call_duration webhookData with
  | Some d => d
  | None => 0
  end.

(** [call_duration ? (call_duration / 60) * 0.091 : 0], kept as an exact
    rational. *)
Definition cost_of (webhookData : Webhook.data) : Q :=
  match Webhook.call_duration webhookData with
  | Some d => if (d =? 0)%Z then 0%Q
              else Qred ((inject_Z d / inject_Z 60) * (91 # 1000))%Q
  | None => 0%Q
  end.

(** [try { m } catch (error) { logger.error(...); throw error; }] *)
Definition rethrow {A : Type} (m : M A) : M A := try_catch m throw.

Definition callData (webhookData : Webhook.data) (businessId : string)
    (extractedInfo : option ExtractedInfo) (callStatus : option string) : Call.patch :=
  {| Call.p_business_id := Put (Some businessId);
     Call.p_caller_name := info_field name extractedInfo;
     Call.p_callback_number := info_field callback_number extractedInfo;
     Call.p_address := info_field address extractedInfo;
     Call.p_reason := info_field reason extractedInfo;
     Call.p_call_summary := info_field call_summary extractedInfo;
     Call.p_recording_url := upd_of_field (Webhook.recording_url webhookData);
     Call.p_transcript_text := upd_of_field (transcriptText webhookData);
     Call.p_duration := Put (Some (duration_of webhookData));
     Call.p_cost := Put (Some (cost_of webhookData));
     Call.p_call_status := upd_of_field callStatus;
     Call.p_notification_sent := Keep;
     Call.p_from_number := upd_of_field (Webhook.from_number webhookData);
     Call.p_to_number := upd_of_field (Webhook.to_number webhookData) |}.

Definition createOrUpdateCall (env : Env) (webhookData : Webhook.data)
    (businessId : string) (extractedInfo : option ExtractedInfo)
    (callStatus : option string) : M Call.row :=
  rethrow
    (let callData := callData webhookData businessId extractedInfo callStatus in
     existingCall <- select_call (call_select_fault env) (Webhook.call_id webhookData) ;;
     match existingCall with
     | Data _ =>
         r <- update_call_single (call_write_fault env) (Webhook.call_id webhookData) callData ;;
         match r with
         | Error e => throw ("Failed to update call: " +:+ e)
         | Data data => ret data
         end
     | Error _ =>
         r <- insert_call (call_write_fault env) (Webhook.call_id webhookData) callData (now env) ;;
         match r with
         | Error e => throw ("Failed to create call: " +:+ e)
         | Data data => ret data
         end
     end).

Definition status_patch (status : string) : Call.patch :=
  {| Call.p_business_id := Keep; Call.p_caller_name := Keep;
     Call.p_callback_number := Keep; Call.p_address := Keep; Call.p_reason := Keep;
     Call.p_call_summary := Keep; Call.p_recording_url := Keep;
     Call.p_transcript_text := Keep; Call.p_duration := Keep; Call.p_cost := Keep;
     Call.p_call_status := Put (Some status); Call.p_notification_sent := Keep;
     Call.p_from_number := Keep; Call.p_to_number := Keep |}.

Definition notification_patch (notificationSent : bool) : Call.patch :=
  {| Call.p_business_id := Keep; Call.p_caller_name := Keep;
     Call.p_callback_number := Keep; Call.p_address := Keep; Call.p_reason := Keep;
     Call.p_call_summary := Keep; Call.p_recording_url := Keep;
     Call.p_transcript_text := Keep; Call.p_duration := Keep; Call.p_cost := Keep;
     Call.p_call_status := Keep; Call.p_notification_sent := Put (Some notificationSent);
     Call.p_from_number := Keep; Call.p_to_number := Keep |}.

Definition updateCallStatus (env : Env) (callId : string) (status : string) : M Call.row :=
  rethrow
    (r <- update_call_single (call_write_fault env) callId (status_patch status) ;;
     match r with
     | Error e => throw ("Failed to update call status: " +:+ e)
     | Data data => ret data
     end).

Definition updateCallNotificationStatus (env : Env) (callId : string)
    (notificationSent : bool) : M unit :=
  try_catch
    (r <- update_call (notification_write_fault env) callId
            (notification_patch notificationSent) ;;
     match r with
     | Error _ => ret tt      (* logged *)
     | Data _ => ret tt
     end)
    (fun _ => ret tt).        (* logged *)

(** [v === k] for [v] a string or [undefined]. *)
Definition strictly_equals (v : option string) (k : string) : bool :=
  match v with
  | Some e => String.eqb e k
  | None => false
  end.

Definition updateCallAnalytics (env : Env) (businessId : string)
    (callCompleted : bool) (eventType : option string) : M unit :=
  try_catch
    (let today := today env in
     existing <- select_analytics (analytics_select_fault env) (businessId, today) ;;
     match existing with
     | Data existingAnalytics =>
         (* [updates]: total_calls, and successful_notifications for
            'completed'; the 'started' branch assigns total_calls the same
            value once more.  The other columns of the row [r] stay. *)
         let updates (r : Analytics.row) :=
           {| Analytics.total_calls := Analytics.total_calls existingAnalytics + 1;
              Analytics.successful_notifications :=
                if strictly_equals eventType "completed"
                then Analytics.successful_notifications existingAnalytics + 1
                else Analytics.successful_notifications r;
              Analytics.failed_notifications := Analytics.failed_notifications r |} in
         update_analytics (analytics_write_fault env) (businessId, today) updates ;;;
         ret tt                (* an error is logged *)
     | Error _ =>
         let analyticsData :=
           {| Analytics.total_calls := 1;
              Analytics.successful_notifications :=
                if strictly_equals eventType "completed" then 1 else 0;
              Analytics.failed_notifications :=
                if strictly_equals eventType "completed" then 0 else 1 |} in
         insert_analytics (analytics_write_fault env) (businessId, today) analyticsData ;;;
         ret tt                (* an error is logged *)
     end)
    (fun _ => ret tt).         (* logged *)

(** [notificationService.sendAllNotifications]: an outside collaborator
    that catches its own failures and reports [overall.success]. *)
Definition sendAllNotifications (env : Env) (callRecord : Call.row)
    (business : Business.row) : M bool :=
  ret (notification_success env).

Definition findBusinessByPhoneNumber (env : Env) (phoneNumber : option string)
  : M (option Business.row) :=
  try_catch
    (let normalizedPhone := normalizePhoneNumber phoneNumber in
     r <- select_active_business (business_select_fault env) normalizedPhone ;;
     match r with
     | Error _ => ret None
     | Data data => ret (Some data)
     end)
    (fun _ => ret None).

Definition handleCallStarted (env : Env) (webhookData : Webhook.data)
    (business : Business.row) : M Result.t :=
  rethrow
    (callRecord <- createOrUpdateCall env webhookData (Business.id business) None
                     (Some "in-progress") ;;
     updateCallAnalytics env (Business.id business) false (Some "started") ;;;
     ret {| Result.success := true;
            Result.call_id := Call.id callRecord;
            Result.business_id := Business.id business;
            Result.event_type := Some "call_started";
            Result.notifications_sent := None;
            Result.extracted_info := None;
            Result.message := Some "Call started successfully" |}).

Definition handleCallEnded (env : Env) (webhookData : Webhook.data)
    (business : Business.row) : M Result.t :=
  rethrow
    (callRecord <- updateCallStatus env (Webhook.call_id webhookData) "completed" ;;
     updateCallAnalytics env (Business.id business) true (Some "completed") ;;;
     ret {| Result.success := true;
            Result.call_id := Call.id callRecord;
            Result.business_id := Business.id business;
            Result.event_type := Some "call_ended";
            Result.notifications_sent := None;
            Result.extracted_info := None;
            Result.message := Some "Call ended successfully" |}).

(** [extractedInfo.call_summary] is truthy. *)
Definition has_summary (extractedInfo : option ExtractedInfo) : bool :=
  match extractedInfo with
  | Some e => truthy (call_summary e)
  | None => false
  end.

(** [extractedInfo] as [handleCallAnalyzed] computes it: [{}] unless the
    payload carries a truthy transcript text. *)
Definition analyzedInfo (webhookData : Webhook.data) : option ExtractedInfo :=
  match transcriptText webhookData with
  | Some s => if Js.is_empty s then None
              else Some (extractCallInformation (JsString s))
  | None => None
  end.

(** [extractedInfo] as [handleLegacyWebhook] computes it: [{}] unless the
    status is ['completed'] and the transcript text is truthy. *)
Definition legacyInfo (webhookData : Webhook.data) : option ExtractedInfo :=
  match transcriptText webhookData with
  | Some s => if strictly_equals (Webhook.call_status webhookData) "completed"
                 && negb (Js.is_empty s)
              then Some (extractCallInformation (JsString s))
              else None
  | None => None
  end.

Definition handleCallAnalyzed (env : Env) (webhookData : Webhook.data)
    (business : Business.row) : M Result.t :=
  rethrow
    (let extractedInfo := analyzedInfo webhookData in
     callRecord <- createOrUpdateCall env webhookData (Business.id business)
                     extractedInfo (Some "completed") ;;
     notificationResult <-
       (if has_summary extractedInfo then
          result <- sendAllNotifications env callRecord business ;;
          updateCallNotificationStatus env (Call.id callRecord) result ;;;
          ret (Some result)
        else ret None) ;;
     ret {| Result.success := true;
            Result.call_id := Call.id callRecord;
            Result.business_id := Business.id business;
            Result.event_type := Some "call_analyzed";
            Result.notifications_sent := Some (default false notificationResult);
            Result.extracted_info := Some extractedInfo;
            Result.message := Some "Call analyzed and notifications sent" |}).

Definition handleLegacyWebhook (env : Env) (webhookData : Webhook.data)
    (business : Business.row) : M Result.t :=
  rethrow
    (let completed := strictly_equals (Webhook.call_status webhookData) "completed" in
     let extractedInfo := legacyInfo webhookData in
     callRecord <- createOrUpdateCall env webhookData (Business.id business)
                     extractedInfo (Webhook.call_status webhookData) ;;
     notificationResult <-
       (if completed then
          result <- sendAllNotifications env callRecord business ;;
          updateCallNotificationStatus env (Call.id callRecord) result ;;;
          ret (Some result)
        else ret None) ;;
     updateCallAnalytics env (Business.id business) completed None ;;;
     ret {| Result.success := true;
            Result.call_id := Call.id callRecord;
            Result.business_id := Business.id business;
            Result.event_type := None;
            Result.notifications_sent := Some (default false notificationResult);
            Result.extracted_info := Some extractedInfo;
            Result.message := None |}).

(** [logFailedWebhook] only writes to the log. *)
Definition logFailedWebhook (webhookData : Webhook.data) (errorMessage : string) : M unit :=
  ret tt.

(** The [switch (webhookData.event_type)] of [handleRetellWebhook]. *)
Definition dispatch (env : Env) (webhookData : Webhook.data)
    (business : Business.row) : M Result.t :=
  if strictly_equals (Webhook.event_type webhookData) "call_started"
  then handleCallStarted env webhookData business
  else if strictly_equals (Webhook.event_type webhookData) "call_ended"
  then handleCallEnded env webhookData business
  else if strictly_equals (Webhook.event_type webhookData) "call_analyzed"
  then handleCallAnalyzed env webhookData business
  else handleLegacyWebhook env webhookData business.

Definition business_not_found (webhookData : Webhook.data) : string :=
  "Business not found for phone number: "
  +:+ default "undefined" (Webhook.to_number webhookData).

Definition handleRetellWebhook (env : Env) (webhookData : Webhook.data) : M Result.t :=
  try_catch
    (business <- findBusinessByPhoneNumber env (Webhook.to_number webhookData) ;;
     match business with
     | None => throw (business_not_found webhookData)
     | Some business => dispatch env webhookData business
     end)
    (fun error => logFailedWebhook webhookData error ;;; throw error).

(* ===================================================================== *)
(** ** Observations and derived notions used in the statements          *)
(* ===================================================================== *)

(** The store after a delivery. *)
Definition store_after (env : Env) (webhookData : Webhook.data) (st : Store) : Store :=
  snd (handleRetellWebhook env webhookData st).

(** Whether a computation returned normally. *)
Definition succeeded {A : Type} (o : outcome A) : bool :=
  match o with Returned _ => true | Thrown _ => false end.

(** The stored status of a call, if the call is stored. *)
Definition status_of (st : Store) (call_id : string) : option string :=
  match calls st !! call_id with
  | Some r => Call.call_status r
  | None => None
  end.

(** The counters of an analytics row; a missing row counts as 0. *)
Definition total_calls_of (st : Store) (key : string * string) : Z :=
  match call_analytics st !! key with
  | Some r => Analytics.total_calls r
  | None => 0
  end.

Definition successful_of (st : Store) (key : string * string) : Z :=
  match call_analytics st !! key with
  | Some r => Analytics.successful_notifications r
  | None => 0
  end.

Definition failed_of (st : Store) (key : string * string) : Z :=
  match call_analytics st !! key with
  | Some r => Analytics.failed_notifications r
  | None => 0
  end.

(** Only the call table differs. *)
Definition only_calls_differ (st st' : Store) : Prop :=
  call_analytics st' = call_analytics st /\ businesses st' = businesses st.

(** A business is stored under the (normalized) number [p]. *)
Definition matches_phone (p : option string) (b : Business.row) : Prop :=
  p = Some (Business.phone_number b).

(** The lookup as a function of the request's fault and the business table. *)
Definition resolve (f : fault) (phone : option string) (bs : list Business.row)
  : option Business.row :=
  match f, normalizePhoneNumber phone with
  | NoFault, Some p =>
      match List.filter (fun b => String.eqb (Business.phone_number b) p
                                  && Bool.eqb (Business.is_active b) true) bs with
      | [b] => Some b
      | _ => None
      end
  | _, _ => None
  end.

Definition is_no_fault (f : fault) : bool :=
  match f with NoFault => true | _ => false end.



(** The row an upsert writes: the patch applied to the existing row, or to
    a row of column defaults. *)
Definition upserted (env : Env) (call_id : string) (p : Call.patch) (st : Store)
  : Call.columns :=
  Call.apply p (default (Call.default_columns (now env)) (calls st !! call_id)).

(** What the notification flag write leaves behind. *)
Definition after_notification_write (env : Env) (callId : string)
    (notificationSent : bool) (st : Store) : Store :=
  match notification_write_fault env, calls st !! callId with
  | NoFault, Some r =>
      set_calls st (<[callId := Call.apply (notification_patch notificationSent) r]> (calls st))
  | _, _ => st
  end.

(** The counters a delivery of kind [eventType] leaves in a row. *)
Definition counted (eventType : option string) (old : option Analytics.row)
  : Analytics.row :=
  match old with
  | Some r =>
      {| Analytics.total_calls := Analytics.total_calls r + 1;
         Analytics.successful_notifications :=
           if strictly_equals eventType "completed"
           then Analytics.successful_notifications r + 1
           else Analytics.successful_notifications r;
         Analytics.failed_notifications := Analytics.failed_notifications r |}
  | None =>
      {| Analytics.total_calls := 1;
         Analytics.successful_notifications :=
           if strictly_equals eventType "completed" then 1 else 0;
         Analytics.failed_notifications :=
           if strictly_equals eventType "completed" then 0 else 1 |}
  end.

(** The columns an Analyzed delivery leaves, from the columns it found. *)
Definition analyzed_columns (env : Env) (webhookData : Webhook.data)
    (b : Business.row) (c0 : Call.columns) : Call.columns :=
  let c := Call.apply (callData webhookData (Business.id b) (analyzedInfo webhookData)
                         (Some "completed")) c0 in
  if has_summary (analyzedInfo webhookData) && is_no_fault (notification_write_fault env)
  then Call.apply (notification_patch (notification_success env)) c
  else c.


(** The word list in the words of the specification: split on whitespace,
    empty pieces dropped.  [acc] is the word read so far. *)
Fixpoint whitespace_words_from (acc : string) (s : string) : list string :=
  match s with
  | EmptyString => if Js.is_empty acc then [] else [acc]
  | String c r =>
      if Js.is_space c
      then (if Js.is_empty acc then whitespace_words_from EmptyString r
            else acc :: whitespace_words_from EmptyString r)
      else whitespace_words_from (acc +:+ String c EmptyString) r
  end.

Definition whitespace_words (s : string) : list string :=
  whitespace_words_from EmptyString s.

(** The word list as [createCallSummary] computes it:
    [reason.split(' ').filter(word => word.length > 0)]. *)
Definition space_words (s : string) : list string :=
  List.filter (fun word => (0 <? String.length word)%nat) (Js.split_space s).

(* ===================================================================== *)
(** ** Sample data                                                        *)
(* ===================================================================== *)

Definition sample_business : Business.row :=
  {| Business.id := "business-123";
     Business.phone_number := "+15559876543";
     Business.is_active := true |}.

Definition sample_store : Store :=
  {| businesses := [sample_business]; calls := ∅; call_analytics := ∅ |}.

Definition sample_env : Env :=
  {| today := "2024-01-15"; now := 1700; notification_success := true;
     business_select_fault := NoFault; call_select_fault := NoFault;
     call_write_fault := NoFault; notification_write_fault := NoFault;
     analytics_select_fault := NoFault; analytics_write_fault := NoFault |}.


(** A delivery whose notification flag write is rejected and whose
    analytics write is answered with an error. *)
Definition faulty_env : Env :=
  {| today := "2024-01-15"; now := 1800; notification_success := true;
     business_select_fault := NoFault; call_select_fault := NoFault;
     call_write_fault := NoFault;
     notification_write_fault := Rejects "fetch failed";
     analytics_select_fault := NoFault;
     analytics_write_fault := ReturnsError "permission denied" |}.

Definition sample_event (eventType callStatus transcript : option string) : Webhook.data :=
  {| Webhook.call_id := "test-call-123";
     Webhook.event_type := eventType;
     Webhook.to_number := Some "+1 (555) 987-6543";
     Webhook.from_number := Some "+15551234567";
     Webhook.call_status := callStatus;
     Webhook.transcript := transcript;
     Webhook.transcript_text := None;
     Webhook.conversation := None;
     Webhook.call_summary := None;
     Webhook.summary := None;
     Webhook.recording_url := None;
     Webhook.call_duration := Some 120%Z |}.

Definition started_event : Webhook.data := sample_event (Some "call_started") None None.
Definition ended_event : Webhook.data := sample_event (Some "call_ended") None None.
Definition analyzed_event : Webhook.data :=
  sample_event (Some "call_analyzed") None
    (Some "Hello, my name is John Doe. My phone number is 555-123-4567. I need help with a plumbing issue.").
Definition legacy_event : Webhook.data :=
  sample_event None (Some "completed")
    (Some "My name is Sarah Jones and I need help with a clogged drain").


(** The analytics key of [sample_business] on the day of [sample_env]. *)
Definition sample_key : string * string := ("business-123", "2024-01-15").

Definition inactive_business : Business.row :=
  {| Business.id := "business-456";
     Business.phone_number := "+15559876543";
     Business.is_active := false |}.

Definition inactive_store : Store :=
  {| businesses := [inactive_business]; calls := ∅; call_analytics := ∅ |}.

(** The upsert of [analyzed_event] under [faulty_env]. *)
Definition committed_analyzed : outcome Call.row * Store :=
  createOrUpdateCall faulty_env analyzed_event (Business.id sample_business)
    (analyzedInfo analyzed_event) (Some "completed") sample_store.

Definition emergency_transcript : string :=
  "there is an emergency, water everywhere and i need electrical repair for the tree".

Definition fifteen_words : string := "a b c d e f g h i j k l m n o".

Definition eleven_tabbed_words : string :=
  String.concat (String "009"%char EmptyString)
    ["a"; "b"; "c"; "d"; "e"; "f"; "g"; "h"; "i"; "j"; "k"].

(* ===================================================================== *)
(** ** Proof automation                                                   *)
(* ===================================================================== *)

(** Unfolds the operations of the store monad. *)
Ltac unfold_monad :=
  unfold rethrow, try_catch, bind, request, ret, throw in *.

(* ===================================================================== *)
(** ** Further code and notions                                           *)
(* ===================================================================== *)

(** A string of decimal digits only. *)
Definition all_digits (d : string) : Prop := Js.strip_non_digits d = d.

(** [calculateConfidence] of informationExtractor.js: a quarter for each
    truthy field among name, callback_number, address and reason.  The
    sums of quarters are exact in double precision; the score is kept as a
    rational. *)
Definition calculateConfidence (extractedInfo : ExtractedInfo) (transcript : string) : Q :=
  let score := 0%Q in
  let score := if truthy (name extractedInfo) then (score + (1 # 4))%Q else score in
  let score := if truthy (callback_number extractedInfo) then (score + (1 # 4))%Q else score in
  let score := if truthy (address extractedInfo) then (score + (1 # 4))%Q else score in
  let score := if truthy (reason extractedInfo) then (score + (1 # 4))%Q else score in
  score.

(** The number of truthy fields among the four that are scored. *)
Definition present_fields (e : ExtractedInfo) : nat :=
  (if truthy (name e) then 1 else 0)
  + (if truthy (callback_number e) then 1 else 0)
  + (if truthy (address e) then 1 else 0)
  + (if truthy (reason e) then 1 else 0).

(** The four fixed phrases of the emergency branch of [extractReason]. *)
Definition emergency_phrases : list string :=
  ["Emergency plumbing service"; "Emergency tree removal";
   "Emergency electrical service"; "Emergency service request"].

(** The transcript mentions one of the emergency keywords. *)
Definition mentions_emergency (t : string) : bool :=
  Js.includes t "emergency" || Js.includes t "urgent" || Js.includes t "storm".

(** A string without a space character. *)
Definition space_free (w : string) : Prop :=
  forall c, In c (list_ascii_of_string w) -> c <> " "%char.

(** [st'] differs from [st] at most in the call stored under [id] and in
    the analytics row stored under [key]. *)
Definition touches_only (id : string) (key : string * string) (st st' : Store) : Prop :=
  businesses st' = businesses st
  /\ (forall k, k <> id -> calls st' !! k = calls st !! k)
  /\ (forall k, k <> key -> call_analytics st' !! k = call_analytics st !! k).

(** The analytics table is as before, or the row under [key] has been
    counted once for a delivery of kind [eventType]. *)
Definition counted_at_most_once (key : string * string) (eventType : option string)
    (st st' : Store) : Prop :=
  call_analytics st' = call_analytics st
  \/ call_analytics st'
     = <[key := counted eventType (call_analytics st !! key)]> (call_analytics st).

(** All store requests of a delivery are answered normally. *)
Definition fault_free (env : Env) : Prop :=
  business_select_fault env = NoFault
  /\ call_select_fault env = NoFault
  /\ call_write_fault env = NoFault
  /\ notification_write_fault env = NoFault
  /\ analytics_select_fault env = NoFault
  /\ analytics_write_fault env = NoFault.

(** The effect of a handler on the store: the tables it leaves alone and
    how often it counts. *)
Definition effect_within (id : string) (key : string * string)
    (eventType : option string) (st st' : Store) : Prop :=
  touches_only id key st st'
  /\ counted_at_most_once key eventType st st'.

(** The kind of event that [dispatch] hands to [updateCallAnalytics]. *)
Definition counted_as (webhookData : Webhook.data) : option string :=
  if strictly_equals (Webhook.event_type webhookData) "call_started" then Some "started"
  else if strictly_equals (Webhook.event_type webhookData) "call_ended" then Some "completed"
  else None.

(** The columns a Started delivery leaves, from the columns it found. *)
Definition started_columns (webhookData : Webhook.data) (b : Business.row)
    (c0 : Call.columns) : Call.columns :=
  Call.apply (callData webhookData (Business.id b) None (Some "in-progress")) c0.

(** The columns a Legacy delivery leaves, from the columns it found. *)
Definition legacy_columns (env : Env) (webhookData : Webhook.data)
    (b : Business.row) (c0 : Call.columns) : Call.columns :=
  let c := Call.apply (callData webhookData (Business.id b) (legacyInfo webhookData)
                         (Webhook.call_status webhookData)) c0 in
  if strictly_equals (Webhook.call_status webhookData) "completed"
     && is_no_fault (notification_write_fault env)
  then Call.apply (notification_patch (notification_success env)) c
  else c.

(** The columns found by an upsert: those stored, or the column defaults. *)
Definition found_columns (env : Env) (st : Store) (call_id : string) : Call.columns :=
  default (Call.default_columns (now env)) (calls st !! call_id).

(** The columns that only an extraction or the notification write sets, and
    the creation time, are the same in [c] and [c']. *)
Definition same_caller_fields (c c' : Call.columns) : Prop :=
  Call.caller_name c' = Call.caller_name c
  /\ Call.callback_number c' = Call.callback_number c
  /\ Call.address c' = Call.address c
  /\ Call.reason c' = Call.reason c
  /\ Call.call_summary c' = Call.call_summary c
  /\ Call.notification_sent c' = Call.notification_sent c
  /\ Call.created_at c' = Call.created_at c.

(** The five payload fields that may carry the transcript, in the order in
    which the handlers try them. *)
Definition text_fields (webhookData : Webhook.data) : list (option string) :=
  [Webhook.transcript webhookData; Webhook.transcript_text webhookData;
   Webhook.conversation webhookData; Webhook.call_summary webhookData;
   Webhook.summary webhookData].

(** *** notificationService.js *)

Module Notify.
(** The business as the notification service reads it. *)
Record business : Type := mkBusiness {
  id : string;
  business_name : string;
  owner_phone : string;
  slack_webhook_url : option string
}.

(** Table [notification_logs]; a row's id is its position in the table.
    [retry_count] and [max_retries] are integer columns with defaults 0 and
    3, which no insert of the service overrides. *)
Record log : Type := mkLog {
  call_id : string;
  notification_type : string;
  status : string;
  recipient : option string;
  error_message : option string;
  retry_count : Z;
  max_retries : Z
}.

(** What [axios.post] does: it resolves with a response of some status, or
    it rejects. *)
Inductive post_outcome : Type :=
| Responds (status : Z)
| Fails (message : string).

(** The surroundings of one [sendAllNotifications]: the fault of each of the
    two log inserts it may issue and the fate of the Slack request. *)
Record env : Type := mkEnv {
  sms_log_fault : fault;
  slack_log_fault : fault;
  slack_post : post_outcome
}.

(** The object the two senders return. *)
Record result : Type := mkResult {
  success : bool;
  result_status : string;
  error : option string
}.

(** The object [sendAllNotifications] returns. *)
Record results : Type := mkResults {
  sms : option result;
  slack : option result;
  overall_success : bool;
  errors : list string
}.

(** [logNotification]: one insert into [notification_logs]; an error answer
    and a rejection are both logged and swallowed.  The insert leaves
    [retry_count] and [max_retries] to their column defaults, 0 and 3. *)
Definition logNotification (f : fault) (callId type status : string)
    (recipient errorMessage : option string) (logs : list log) : list log :=
  match f with
  | NoFault =>
      logs ++ [{| call_id := callId; notification_type := type; status := status;
                  recipient := recipient; error_message := errorMessage;
                  retry_count := 0; max_retries := 3 |}]
  | ReturnsError _ => logs
  | Rejects _ => logs
  end.

(** [sendSMSNotification]: the message itself is sent by the telephony
    provider; the service only logs it.  [logNotification] cannot throw, so
    the [catch] of the source is never entered. *)
Definition sendSMSNotification (e : env) (callData : Call.row) (businessData : business)
    (logs : list log) : result * list log :=
  ({| success := true; result_status := "sent"; error := None |},
   logNotification (sms_log_fault e) (Call.id callData) "sms" "sent"
     (Some (owner_phone businessData)) None logs).

(** [`Slack API returned status ${response.status}`] *)
Definition bad_status (n : Z) : string :=
  "Slack API returned status " +:+ NilZero.string_of_int (Z.to_int n).

(** The [catch] of [sendSlackNotification]. *)
Definition slack_failed (e : env) (callData : Call.row) (businessData : business)
    (message : string) (logs : list log) : result * list log :=
  ({| success := false; result_status := "failed"; error := Some message |},
   logNotification (slack_log_fault e) (Call.id callData) "slack" "failed"
     (slack_webhook_url businessData) (Some message) logs).

Definition sendSlackNotification (e : env) (callData : Call.row) (businessData : business)
    (logs : list log) : result * list log :=
  if negb (truthy (slack_webhook_url businessData)) then
    ({| success := false; result_status := "skipped";
        error := Some "No Slack webhook configured" |}, logs)
  else
    match slack_post e with
    | Responds n =>
        if (n =? 200)%Z then
          ({| success := true; result_status := "sent"; error := None |},
           logNotification (slack_log_fault e) (Call.id callData) "slack" "sent"
             (slack_webhook_url businessData) None logs)
        else slack_failed e callData businessData (bad_status n) logs
    | Fails message => slack_failed e callData businessData message logs
    end.

Definition sendAllNotifications (e : env) (callData : Call.row) (businessData : business)
    (logs : list log) : results * list log :=
  let '(sms, logs1) := sendSMSNotification e callData businessData logs in
  let '(slack, logs2) := sendSlackNotification e callData businessData logs1 in
  let smsSuccess := success sms in
  let skipped := String.eqb (result_status slack) "skipped" in
  let slackSuccess := success slack || skipped in
  ({| sms := Some sms;
      slack := Some slack;
      overall_success := smsSuccess && slackSuccess;
      errors :=
        (if negb smsSuccess then ["SMS: " +:+ default "undefined" (error sms)] else [])
        ++ (if negb (success slack) && negb skipped
            then ["Slack: " +:+ default "undefined" (error slack)] else []) |},
   logs2).

(** The Slack request is made and answered with status 200. *)
Definition slack_delivered (e : env) : bool :=
  match slack_post e with
  | Responds n => (n =? 200)%Z
  | Fails _ => false
  end.

(** The surroundings of one [retryNotification]: the faults of its select
    of the log row, of its select of the call and of its final update, what
    the select of the call joined with its business finds, and the
    surroundings of the sender it calls. *)
Record retry_env : Type := mkRetryEnv {
  log_select_fault : fault;
  call_join_fault : fault;
  call_with_business : string -> option (Call.row * option business);
  sending : env;
  log_update_fault : fault
}.

(** The row after [update({ retry_count, status, error_message })]. *)
Definition retried (notification : log) (r : result) : log :=
  {| call_id := call_id notification;
     notification_type := notification_type notification;
     status := if success r then "sent" else "failed";
     recipient := recipient notification;
     error_message := if success r then None else error r;
     retry_count := retry_count notification + 1;
     max_retries := max_retries notification |}.

(** [retryNotification]; every exception is logged and thrown again. *)
Definition retryNotification (e : retry_env) (notificationId : nat) (logs : list log)
  : outcome result * list log :=
  match log_select_fault e with
  | Rejects m => (Thrown m, logs)
  | ReturnsError _ => (Thrown "Notification not found", logs)
  | NoFault =>
      match logs !! notificationId with
      | None => (Thrown "Notification not found", logs)
      | Some notification =>
          if (max_retries notification <=? retry_count notification)%Z
          then (Thrown "Max retries exceeded", logs)
          else
            match call_join_fault e with
            | Rejects m => (Thrown m, logs)
            | ReturnsError _ => (Thrown "Call not found", logs)
            | NoFault =>
                match call_with_business e (call_id notification) with
                | None => (Thrown "Call not found", logs)
                | Some (call, None) =>
                    (* [call.businesses] is null: each sender throws when it
                       reads a property of it, and again in its own [catch] *)
                    if String.eqb (notification_type notification) "sms"
                    then (Thrown "Cannot read properties of null (reading 'owner_phone')",
                          logs)
                    else if String.eqb (notification_type notification) "slack"
                    then (Thrown "Cannot read properties of null (reading 'id')", logs)
                    else (Thrown "Cannot read properties of undefined (reading 'success')",
                          logs)
                | Some (call, Some businesses) =>
                    let sent :=
                      if String.eqb (notification_type notification) "sms"
                      then Some (sendSMSNotification (sending e) call businesses logs)
                      else if String.eqb (notification_type notification) "slack"
                      then Some (sendSlackNotification (sending e) call businesses logs)
                      else None in
                    match sent with
                    | None =>
                        (* [result] is undefined: reading [result.success] throws *)
                        (Thrown "Cannot read properties of undefined (reading 'success')",
                         logs)
                    | Some (r, logs1) =>
                        match log_update_fault e with
                        | Rejects m => (Thrown m, logs1)
                        | ReturnsError _ => (Returned r, logs1)
                        | NoFault =>
                            (Returned r,
                             <[notificationId := retried notification r]> logs1)
                        end
                    end
                end
            end
      end
  end.

(** No row has been retried more often than it allows. *)
Definition within_retries (logs : list log) : Prop :=
  Forall (fun l => (retry_count l <= max_retries l)%Z) logs.
End Notify.

(** A failed Slack notification of the sample call, not yet retried, and
    surroundings in which the retry goes through. *)
Definition sample_log : Notify.log :=
  {| Notify.call_id := "test-call-123";
     Notify.notification_type := "slack";
     Notify.status := "failed";
     Notify.recipient := Some "https://hooks.slack.com/services/T0/B0/x";
     Notify.error_message := Some "timeout of 10000ms exceeded";
     Notify.retry_count := 0;
     Notify.max_retries := 3 |}.

Definition sample_retry_env : Notify.retry_env :=
  {| Notify.log_select_fault := NoFault;
     Notify.call_join_fault := NoFault;
     Notify.call_with_business := fun _ =>
       Some ({| Call.id := "test-call-123"; Call.cols := Call.default_columns 1700 |},
             Some {| Notify.id := "business-123";
                     Notify.business_name := "Test Business";
                     Notify.owner_phone := "+15551234567";
                     Notify.slack_webhook_url :=
                       Some "https://hooks.slack.com/services/T0/B0/x" |});
     Notify.sending := {| Notify.sms_log_fault := NoFault;
                          Notify.slack_log_fault := NoFault;
                          Notify.slack_post := Notify.Responds 200 |};
     Notify.log_update_fault := NoFault |}.

(** The only blank of a string is the space character, as in a cleaned
    transcript. *)
Definition blanks_are_spaces (s : string) : bool :=
  forallb (fun c => negb (Js.is_space c) || Ascii.eqb c " ") (list_ascii_of_string s).

(*FURTHER-DEFS*)
(* ===================================================================== *)
(** * Properties                                                          *)
(* ===================================================================== *)


(** ** Phone formatting *)

Lemma formatPhoneNumber_canonical (s : string) :
  formatPhoneNumber s = canonical_phone s.
Proof.
  unfold formatPhoneNumber, canonical_phone; cbv zeta.
  destruct (String.length (Js.strip_non_digits s) =? 10)%nat; [reflexivity|].
  destruct ((String.length (Js.strip_non_digits s) =? 11)%nat
            && Js.startsWith "1" (Js.strip_non_digits s)); [reflexivity|].
  destruct (String.length (Js.strip_non_digits s) =? 11)%nat; reflexivity.
Qed.

Lemma normalizePhoneNumber_nonempty (s : string) :
  s <> "" -> normalizePhoneNumber (Some s) = Some (formatPhoneNumber s).
Proof.
  intros Hs. unfold normalizePhoneNumber, formatPhoneNumber.
  destruct s as [|c r]; [congruence|]. reflexivity.
Qed.

Lemma sfilter_idem (p : ascii -> bool) (s : string) :
  Js.sfilter p (Js.sfilter p s) = Js.sfilter p s.
Proof.
  induction s as [|c r IH]; simpl; [reflexivity|].
  destruct (p c) eqn:E; simpl; [rewrite E, IH|]; auto.
Qed.

Lemma canonical_phone_strip (s : string) :
  canonical_phone (Js.strip_non_digits s) = canonical_phone s.
Proof.
  unfold canonical_phone, Js.strip_non_digits. now rewrite sfilter_idem.
Qed.

(** C4, as stated, fails on the empty string: [normalizePhoneNumber]
    returns [null] there, [formatPhoneNumber] returns ["+"]. *)
Lemma C4_counterexample :
  normalizePhoneNumber (Some "") = None
  /\ formatPhoneNumber "" = "+"
  /\ normalizePhoneNumber (Some "") <> Some (formatPhoneNumber "").
Proof. split; [reflexivity | split; [reflexivity | discriminate]]. Qed.

(** C4 (amended): for every non-empty string, [normalizePhoneNumber] and
    [formatPhoneNumber] return the same text, which is the canonical format:
    the digits of the input, prefixed with [+1] when there are ten of them
    and with [+] otherwise. *)
Theorem C4_phone_formats_agree (s : string) :
  s <> "" ->
  normalizePhoneNumber (Some s) = Some (formatPhoneNumber s)
  /\ formatPhoneNumber s = canonical_phone s.
Proof.
  intros Hs. split.
  - now apply normalizePhoneNumber_nonempty.
  - apply formatPhoneNumber_canonical.
Qed.

Lemma C4_phone_formats_agree_witness :
  normalizePhoneNumber (Some "(555) 123-4567") = Some (formatPhoneNumber "(555) 123-4567")
  /\ formatPhoneNumber "(555) 123-4567" = canonical_phone "(555) 123-4567".
Proof. apply (C4_phone_formats_agree "(555) 123-4567"). discriminate. Defined.

(** ** Reason extraction *)

Lemma emergency_water (t : string) :
  Js.includes t "emergency" = true ->
  Js.includes t "water" = true ->
  emergency_reason t = Some "Emergency plumbing service".
Proof.
  intros He Hw. unfold emergency_reason.
  rewrite He, Hw. rewrite !orb_true_r. reflexivity.
Qed.

(** C6: a transcript containing both "emergency" and "water" gets the
    reason "Emergency plumbing service", whatever else it contains, and the
    code below the emergency branch is not consulted: the result is the same
    for every choice of that code. *)
Theorem C6_emergency_water_short_circuit (t : string) :
  Js.includes t "emergency" = true ->
  Js.includes t "water" = true ->
  extractReason t = Some "Emergency plumbing service"
  /\ forall later, extractReason_with later t = Some "Emergency plumbing service".
Proof.
  intros He Hw.
  assert (H : forall later, extractReason_with later t = Some "Emergency plumbing service").
  { intros later. unfold extractReason_with. now rewrite (emergency_water t He Hw). }
  split; [apply H | exact H].
Qed.

Lemma C6_emergency_water_short_circuit_witness :
  extractReason emergency_transcript = Some "Emergency plumbing service"
  /\ forall later, extractReason_with later emergency_transcript
                   = Some "Emergency plumbing service".
Proof.
  apply (C6_emergency_water_short_circuit emergency_transcript); reflexivity.
Defined.

(** ** Extraction as a whole *)

(** C7: when the four field extractors all return null on the cleaned
    transcript, the result has the four fields null and the summary
    "Customer inquiry"; an input that is not a non-empty string gives the
    all-null result. *)
Theorem C7_no_pattern_and_rejected_input :
  (forall s : string,
      s <> "" ->
      extractName (cleanTranscript s) = None ->
      extractPhoneNumber (cleanTranscript s) = None ->
      extractAddress (cleanTranscript s) = None ->
      extractReason (cleanTranscript s) = None ->
      extractCallInformation (JsString s)
      = {| name := None; callback_number := None; address := None;
           reason := None; call_summary := Some "Customer inquiry" |})
  /\ (forall v : js_value,
         (forall s, v = JsString s -> s = "") ->
         extractCallInformation v
         = {| name := None; callback_number := None; address := None;
              reason := None; call_summary := None |}).
Proof.
  split.
  - intros s Hs Hn Hp Ha Hr. unfold extractCallInformation.
    destruct s as [|c r]; [congruence|]. cbv beta iota delta [Js.is_empty]. cbv zeta.
    now rewrite Hn, Hp, Ha, Hr.
  - intros v Hv. destruct v as [| | b | n | s |]; try reflexivity.
    rewrite (Hv s eq_refl). reflexivity.
Qed.

Lemma C7_no_pattern_and_rejected_input_witness :
  extractCallInformation (JsString "Good morning")
  = {| name := None; callback_number := None; address := None;
       reason := None; call_summary := Some "Customer inquiry" |}
  /\ extractCallInformation (JsNumber 42)
     = {| name := None; callback_number := None; address := None;
          reason := None; call_summary := None |}.
Proof.
  split.
  - apply (proj1 C7_no_pattern_and_rejected_input "Good morning");
      [discriminate | vm_compute; reflexivity ..].
  - apply (proj2 C7_no_pattern_and_rejected_input (JsNumber 42)).
    intros s H. discriminate H.
Defined.

(** ** Summary builder *)

(** Strings that [extractReason] never returns.  On the empty string the
    word list is empty, yet the result is the placeholder and not the
    string.  And the words are cut at the space character only: eleven words
    separated by tabs come back unchanged, not cut to ten. *)
Lemma createCallSummary_off_call_site :
  ((List.length (whitespace_words "") <= 10)%nat
   /\ createCallSummary (Some "") = "Customer inquiry"
   /\ createCallSummary (Some "") <> "")
  /\ (List.length (whitespace_words eleven_tabbed_words) = 11%nat
      /\ createCallSummary (Some eleven_tabbed_words) = eleven_tabbed_words
      /\ createCallSummary (Some eleven_tabbed_words)
         <> Js.join_space (firstn 10 (whitespace_words eleven_tabbed_words)) +:+ "...").
Proof.
  split.
  - split; [simpl; lia | split; [reflexivity | discriminate]].
  - split; [reflexivity | split; [reflexivity | vm_compute; discriminate]].
Qed.

(** On text whose only blanks are spaces (such as a cleaned transcript) the
    two word lists coincide. *)
Lemma whitespace_words_from_spaces (s acc : string) :
  (forall c, In c (list_ascii_of_string s) -> Js.is_space c = true -> c = " "%char) ->
  whitespace_words_from acc s
  = List.filter (fun word => (0 <? String.length word)%nat) (Js.split_from acc s).
Proof.
  revert acc. induction s as [|c r IH]; intros acc Hsp.
  - simpl. destruct acc; reflexivity.
  - simpl. destruct (Ascii.eqb c " ") eqn:Ec.
    + apply Ascii.eqb_eq in Ec. subst c. simpl.
      rewrite IH by (intros c Hc; apply Hsp; simpl; auto).
      destruct acc; reflexivity.
    + destruct (Js.is_space c) eqn:Es.
      * apply Ascii.eqb_neq in Ec. exfalso. apply Ec. apply Hsp; simpl; auto.
      * apply IH. intros c' Hc'. apply Hsp. simpl; auto.
Qed.

Lemma whitespace_words_spaces (s : string) :
  (forall c, In c (list_ascii_of_string s) -> Js.is_space c = true -> c = " "%char) ->
  whitespace_words s = space_words s.
Proof. apply whitespace_words_from_spaces. Qed.

(** [createCallSummary] in terms of the word list it computes itself. *)
Lemma createCallSummary_by_space_words :
  createCallSummary None = "Customer inquiry"
  /\ createCallSummary (Some "") = "Customer inquiry"
  /\ (forall r : string,
         r <> "" ->
         (List.length (space_words r) <= 10)%nat ->
         createCallSummary (Some r) = r)
  /\ (forall r : string,
         (10 < List.length (space_words r))%nat ->
         createCallSummary (Some r)
         = Js.join_space (firstn 10 (space_words r)) +:+ "...").
Proof.
  split; [reflexivity|]. split; [reflexivity|]. split.
  - intros r Hr Hlen. unfold createCallSummary.
    destruct r as [|c r']; [congruence|].
    cbv beta iota delta [Js.is_empty]. cbv zeta. fold (space_words (String c r')).
    apply Nat.leb_le in Hlen. now rewrite Hlen.
  - intros r Hlen. unfold createCallSummary.
    destruct r as [|c r']; [simpl in Hlen; lia|].
    cbv beta iota delta [Js.is_empty]. cbv zeta. fold (space_words (String c r')).
    apply Nat.leb_gt in Hlen. now rewrite Hlen.
Qed.

(** ** Phone extraction *)

Lemma first_some_In {A B : Type} (f : A -> option B) (l : list A) (y : B) :
  first_some f l = Some y -> exists x, In x l /\ f x = Some y.
Proof.
  induction l as [|x l IH]; simpl; [discriminate|].
  destruct (f x) as [y'|] eqn:E.
  - intros H; inversion H; subst. exists x; auto.
  - intros H. destruct (IH H) as [x' [Hin Hx']]. exists x'; auto.
Qed.

Lemma phone_candidate_Some (t : string) (pattern : re) (p : string) :
  phone_candidate t pattern = Some p ->
  exists run, capture1 pattern t = Some run
    /\ (7 <= String.length (Js.strip_non_digits run) <= 15)%nat
    /\ p = canonical_phone run.
Proof.
  unfold phone_candidate. destruct (capture1 pattern t) as [c|]; [|discriminate].
  cbv zeta.
  destruct ((7 <=? String.length (Js.strip_non_digits c))%nat
            && (String.length (Js.strip_non_digits c) <=? 15)%nat) eqn:E; [|discriminate].
  intros H; inversion H; subst. exists c.
  apply andb_prop in E. destruct E as [E1 E2].
  apply Nat.leb_le in E1. apply Nat.leb_le in E2.
  split; [reflexivity|]. split; [lia|].
  rewrite formatPhoneNumber_canonical. apply canonical_phone_strip.
Qed.

(** C9: [extractPhoneNumber] returns a value only when one of the
    intent-phrase patterns captures a run with 7 to 15 digits, and the
    value is that run in canonical phone format; the two transcripts of the
    specification give "+15551234567". *)
Theorem C9_extractPhoneNumber :
  (forall (t p : string),
      extractPhoneNumber t = Some p ->
      exists pattern run,
        In pattern phonePatterns
        /\ capture1 pattern t = Some run
        /\ (7 <= String.length (Js.strip_non_digits run) <= 15)%nat
        /\ p = canonical_phone run)
  /\ extractPhoneNumber "my number is 555-123-4567" = Some "+15551234567"
  /\ extractPhoneNumber "call me at (555) 123-4567" = Some "+15551234567".
Proof.
  split; [|split; vm_compute; reflexivity].
  intros t p H. unfold extractPhoneNumber in H.
  apply first_some_In in H. destruct H as [pattern [Hin Hc]].
  apply phone_candidate_Some in Hc. destruct Hc as [run [Hcap [Hlen Hp]]].
  exists pattern, run. auto.
Qed.

Lemma C9_extractPhoneNumber_witness :
  exists pattern run,
    In pattern phonePatterns
    /\ capture1 pattern "reach me at 212 555 0147 thanks" = Some run
    /\ (7 <= String.length (Js.strip_non_digits run) <= 15)%nat
    /\ "+12125550147" = canonical_phone run.
Proof.
  apply (proj1 C9_extractPhoneNumber "reach me at 212 555 0147 thanks" "+12125550147").
  vm_compute; reflexivity.
Defined.

(** ** Business resolution *)

Lemma filter_single_In {A : Type} (f : A -> bool) (l : list A) (x : A) :
  List.filter f l = [x] -> In x l /\ f x = true.
Proof.
  intros H. assert (Hin : In x (List.filter f l)) by (rewrite H; simpl; auto).
  apply filter_In in Hin. exact Hin.
Qed.

(** [findBusinessByPhoneNumber] never throws and never writes; what it
    returns is an active business stored under the normalized number. *)
Lemma findBusinessByPhoneNumber_spec (env : Env) (phone : option string) (st : Store) :
  exists found,
    findBusinessByPhoneNumber env phone st = (Returned found, st)
    /\ (forall b, found = Some b ->
          In b (businesses st)
          /\ Business.is_active b = true
          /\ matches_phone (normalizePhoneNumber phone) b)
    /\ ((forall b, In b (businesses st) -> Business.is_active b = true ->
           ~ matches_phone (normalizePhoneNumber phone) b) ->
        found = None).
Proof.
  unfold findBusinessByPhoneNumber, select_active_business, matches_phone.
  cbv zeta. unfold_monad.
  destruct (business_select_fault env) as [|e|e].
  - destruct (normalizePhoneNumber phone) as [p|].
    + destruct (List.filter _ (businesses st)) as [|b [|b' l]] eqn:F.
      * exists None. split; [reflexivity|]. split; [discriminate|auto].
      * exists (Some b). split; [reflexivity|].
        apply filter_single_In in F. destruct F as [Hin Hb].
        apply andb_prop in Hb. destruct Hb as [Hp Ha].
        apply String.eqb_eq in Hp. apply Bool.eqb_prop in Ha.
        split.
        -- intros b0 Hb0. inversion Hb0; subst b0. rewrite Hp. auto.
        -- intros Hno. exfalso. apply (Hno b Hin Ha). now rewrite Hp.
      * exists None. split; [reflexivity|]. split; [discriminate|auto].
    + exists None. split; [reflexivity|]. split; [discriminate|auto].
  - exists None. split; [reflexivity|]. split; [discriminate|auto].
  - exists None. split; [reflexivity|]. split; [discriminate|auto].
Qed.

(** C5: when no active business is stored under the normalized
    [to_number], and more generally whenever the lookup returns null, the
    delivery fails and the store is left exactly as it was; and whatever
    the lookup returns is an active business. *)
Theorem C5_unresolved_business_is_terminal
    (env : Env) (webhookData : Webhook.data) (st : Store) :
  ((forall b, In b (businesses st) -> Business.is_active b = true ->
      ~ matches_phone (normalizePhoneNumber (Webhook.to_number webhookData)) b) ->
   handleRetellWebhook env webhookData st
   = (Thrown (business_not_found webhookData), st))
  /\ (fst (findBusinessByPhoneNumber env (Webhook.to_number webhookData) st)
      = Returned None ->
      handleRetellWebhook env webhookData st
      = (Thrown (business_not_found webhookData), st))
  /\ (forall phone b,
        fst (findBusinessByPhoneNumber env phone st) = Returned (Some b) ->
        Business.is_active b = true).
Proof.
  split; [|split].
  - intros Hno.
    destruct (findBusinessByPhoneNumber_spec env (Webhook.to_number webhookData) st)
      as [found [Hrun [_ Hnone]]].
    specialize (Hnone Hno). subst found.
    unfold handleRetellWebhook, logFailedWebhook. unfold_monad. rewrite Hrun.
    reflexivity.
  - intros Hnone.
    destruct (findBusinessByPhoneNumber_spec env (Webhook.to_number webhookData) st)
      as [found [Hrun _]].
    rewrite Hrun in Hnone. simpl in Hnone. inversion Hnone; subst found.
    unfold handleRetellWebhook, logFailedWebhook. unfold_monad. rewrite Hrun.
    reflexivity.
  - intros phone b H.
    destruct (findBusinessByPhoneNumber_spec env phone st) as [found [Hrun [Hsome _]]].
    rewrite Hrun in H. simpl in H. inversion H; subst found.
    destruct (Hsome b eq_refl) as [_ [Ha _]]. exact Ha.
Qed.

Lemma C5_unresolved_business_is_terminal_witness :
  handleRetellWebhook sample_env analyzed_event inactive_store
  = (Thrown "Business not found for phone number: +1 (555) 987-6543", inactive_store).
Proof.
  apply (proj1 (C5_unresolved_business_is_terminal sample_env analyzed_event inactive_store)).
  intros b Hin Hact. simpl in Hin. destruct Hin as [Hb | []]. subst b.
  simpl in Hact. discriminate Hact.
Defined.

(** ** The two writes that swallow their errors *)

Lemma updateCallNotificationStatus_spec (env : Env) (callId : string)
    (notificationSent : bool) (st : Store) :
  updateCallNotificationStatus env callId notificationSent st
  = (Returned tt, after_notification_write env callId notificationSent st).
Proof.
  unfold updateCallNotificationStatus, update_call, after_notification_write.
  unfold_monad.
  destruct (notification_write_fault env) as [|e|e]; try reflexivity.
  destruct (calls st !! callId) as [r|]; reflexivity.
Qed.

Lemma updateCallAnalytics_returns (env : Env) (businessId : string)
    (callCompleted : bool) (eventType : option string) (st : Store) :
  exists st',
    updateCallAnalytics env businessId callCompleted eventType st = (Returned tt, st')
    /\ calls st' = calls st
    /\ businesses st' = businesses st
    /\ (analytics_select_fault env = NoFault ->
        analytics_write_fault env = NoFault ->
        call_analytics st'
        = <[(businessId, today env) :=
              counted eventType (call_analytics st !! (businessId, today env))]>
            (call_analytics st)).
Proof.
  unfold updateCallAnalytics, select_analytics, update_analytics, insert_analytics.
  cbv zeta. unfold_monad.
  destruct (analytics_select_fault env) as [|e|e];
    destruct (analytics_write_fault env) as [|e'|e'];
    destruct (call_analytics st !! (businessId, today env)) as [r|] eqn:L;
    cbn -[strictly_equals]; rewrite ?L; cbn -[strictly_equals];
    eexists; (split; [reflexivity|]); (split; [reflexivity|]);
    (split; [reflexivity|]); intros; try discriminate; reflexivity.
Qed.

(** ** The call upsert *)

Lemma createOrUpdateCall_cases (env : Env) (webhookData : Webhook.data)
    (businessId : string) (extractedInfo : option ExtractedInfo)
    (callStatus : option string) (st : Store) :
  let id := Webhook.call_id webhookData in
  let r := upserted env id (callData webhookData businessId extractedInfo callStatus) st in
  (exists e, createOrUpdateCall env webhookData businessId extractedInfo callStatus st
             = (Thrown e, st))
  \/ createOrUpdateCall env webhookData businessId extractedInfo callStatus st
     = (Returned (Call.mk id r), set_calls st (<[id := r]> (calls st))).
Proof.
  cbv zeta. unfold createOrUpdateCall, upserted, select_call, update_call_single, insert_call.
  cbv zeta. unfold_monad.
  destruct (call_select_fault env) as [|e|e];
    destruct (call_write_fault env) as [|e'|e'];
    destruct (calls st !! Webhook.call_id webhookData) as [r0|] eqn:L;
    cbn -[callData String.append]; rewrite ?L; cbn -[callData String.append];
    first [right; reflexivity | left; eexists; reflexivity].
Qed.

Lemma createOrUpdateCall_no_fault (env : Env) (webhookData : Webhook.data)
    (businessId : string) (extractedInfo : option ExtractedInfo)
    (callStatus : option string) (st : Store) :
  call_select_fault env = NoFault ->
  call_write_fault env = NoFault ->
  let id := Webhook.call_id webhookData in
  let r := upserted env id (callData webhookData businessId extractedInfo callStatus) st in
  createOrUpdateCall env webhookData businessId extractedInfo callStatus st
  = (Returned (Call.mk id r), set_calls st (<[id := r]> (calls st))).
Proof.
  intros Hs Hw. cbv zeta.
  unfold createOrUpdateCall, upserted, select_call, update_call_single, insert_call.
  cbv zeta. unfold_monad. rewrite Hs, Hw.
  destruct (calls st !! Webhook.call_id webhookData) as [r0|] eqn:L;
    cbn -[callData String.append]; rewrite ?L; reflexivity.
Qed.

(** C10: the notification flag write and the analytics write return
    normally whatever the store answers; a failed flag write leaves the
    whole store as it was and the analytics write never touches the call
    table; so once the call record is written, each of the four handlers
    returns its success result and the call table stays as committed. *)
Theorem C10_swallowed_store_errors (env : Env) (st : Store) :
  (forall callId sent,
      exists st',
        updateCallNotificationStatus env callId sent st = (Returned tt, st')
        /\ (notification_write_fault env <> NoFault -> st' = st))
  /\ (forall businessId completed eventType,
         exists st',
           updateCallAnalytics env businessId completed eventType st = (Returned tt, st')
           /\ calls st' = calls st)
  /\ (forall webhookData business r st1,
         createOrUpdateCall env webhookData (Business.id business)
           (analyzedInfo webhookData) (Some "completed") st = (Returned r, st1) ->
         exists res st2,
           handleCallAnalyzed env webhookData business st = (Returned res, st2)
           /\ (notification_write_fault env <> NoFault -> st2 = st1))
  /\ (forall webhookData business r st1,
         createOrUpdateCall env webhookData (Business.id business)
           None (Some "in-progress") st = (Returned r, st1) ->
         exists res st2,
           handleCallStarted env webhookData business st = (Returned res, st2)
           /\ calls st2 = calls st1)
  /\ (forall webhookData business r st1,
         updateCallStatus env (Webhook.call_id webhookData) "completed" st
         = (Returned r, st1) ->
         exists res st2,
           handleCallEnded env webhookData business st = (Returned res, st2)
           /\ calls st2 = calls st1)
  /\ (forall webhookData business r st1,
         createOrUpdateCall env webhookData (Business.id business)
           (legacyInfo webhookData) (Webhook.call_status webhookData) st
         = (Returned r, st1) ->
         exists res st2,
           handleLegacyWebhook env webhookData business st = (Returned res, st2)
           /\ (notification_write_fault env <> NoFault -> calls st2 = calls st1)).
Proof.
  split; [|split; [|split; [|split; [|split]]]].
  - intros callId sent. rewrite updateCallNotificationStatus_spec.
    eexists; split; [reflexivity|].
    unfold after_notification_write.
    destruct (notification_write_fault env); [congruence | reflexivity | reflexivity].
  - intros businessId completed eventType.
    destruct (updateCallAnalytics_returns env businessId completed eventType st)
      as [st' [H [Hc _]]].
    exists st'. auto.
  - intros webhookData business r st1 Hcommit.
    unfold handleCallAnalyzed, sendAllNotifications. cbv zeta. unfold_monad.
    rewrite Hcommit.
    destruct (has_summary (analyzedInfo webhookData)).
    + rewrite updateCallNotificationStatus_spec.
      do 2 eexists; split; [reflexivity|].
      unfold after_notification_write.
      destruct (notification_write_fault env); [congruence | reflexivity | reflexivity].
    + do 2 eexists; split; [reflexivity | reflexivity].
  - intros webhookData business r st1 Hcommit.
    unfold handleCallStarted. unfold_monad. rewrite Hcommit.
    destruct (updateCallAnalytics_returns env (Business.id business) false
                (Some "started") st1) as [st2 [H [Hc _]]].
    rewrite H. do 2 eexists; split; [reflexivity | exact Hc].
  - intros webhookData business r st1 Hcommit.
    unfold handleCallEnded. unfold_monad. rewrite Hcommit.
    destruct (updateCallAnalytics_returns env (Business.id business) true
                (Some "completed") st1) as [st2 [H [Hc _]]].
    rewrite H. do 2 eexists; split; [reflexivity | exact Hc].
  - intros webhookData business r st1 Hcommit.
    unfold handleLegacyWebhook, sendAllNotifications. cbv zeta. unfold_monad.
    rewrite Hcommit.
    destruct (strictly_equals (Webhook.call_status webhookData) "completed").
    + rewrite updateCallNotificationStatus_spec.
      match goal with
      | |- context [updateCallAnalytics env ?bid ?cc ?et ?s] =>
          destruct (updateCallAnalytics_returns env bid cc et s) as [st2 [H [Hc _]]]
      end.
      rewrite H. do 2 eexists; split; [reflexivity|].
      intros Hf. rewrite Hc. unfold after_notification_write.
      destruct (notification_write_fault env); [congruence | reflexivity | reflexivity].
    + destruct (updateCallAnalytics_returns env (Business.id business) false None st1)
        as [st2 [H [Hc _]]].
      rewrite H. do 2 eexists; split; [reflexivity | intros _; exact Hc].
Qed.

Lemma C10_swallowed_store_errors_witness :
  (exists st',
      updateCallNotificationStatus faulty_env "test-call-123" true
        (snd committed_analyzed) = (Returned tt, st')
      /\ st' = snd committed_analyzed)
  /\ (exists res st2,
         handleCallAnalyzed faulty_env analyzed_event sample_business sample_store
         = (Returned res, st2)
         /\ st2 = snd committed_analyzed).
Proof.
  split.
  - destruct (proj1 (C10_swallowed_store_errors faulty_env (snd committed_analyzed))
                "test-call-123" true) as [st' [H1 H2]].
    exists st'. split; [exact H1 | apply H2; discriminate].
  - destruct (proj1 (proj2 (proj2 (C10_swallowed_store_errors faulty_env sample_store)))
                analyzed_event sample_business
                (Call.mk "test-call-123"
                   (upserted faulty_env "test-call-123"
                      (callData analyzed_event (Business.id sample_business)
                         (analyzedInfo analyzed_event) (Some "completed")) sample_store))
                (snd committed_analyzed))
      as [res [st2 [H1 H2]]].
    + apply (createOrUpdateCall_no_fault faulty_env analyzed_event); reflexivity.
    + exists res, st2. split; [exact H1 | apply H2; discriminate].
Defined.

(** ** The dispatcher *)

Lemma handleRetellWebhook_resolved (env : Env) (webhookData : Webhook.data)
    (st : Store) (b : Business.row) :
  findBusinessByPhoneNumber env (Webhook.to_number webhookData) st
  = (Returned (Some b), st) ->
  handleRetellWebhook env webhookData st = dispatch env webhookData b st.
Proof.
  intros Hrun. unfold handleRetellWebhook, logFailedWebhook. unfold_monad.
  rewrite Hrun. destruct (dispatch env webhookData b st) as [[res|e] st']; reflexivity.
Qed.

Lemma handleRetellWebhook_unresolved (env : Env) (webhookData : Webhook.data)
    (st : Store) :
  findBusinessByPhoneNumber env (Webhook.to_number webhookData) st
  = (Returned None, st) ->
  handleRetellWebhook env webhookData st
  = (Thrown (business_not_found webhookData), st).
Proof.
  intros Hrun. unfold handleRetellWebhook, logFailedWebhook. unfold_monad.
  now rewrite Hrun.
Qed.

(** ** Status after a Started event *)

Lemma lookup_set_calls_insert (st : Store) (id : string) (r : Call.columns) :
  calls (set_calls st (<[id := r]> (calls st))) !! id = Some r.
Proof. simpl. apply lookup_insert_eq. Qed.

Lemma handleCallStarted_cases (env : Env) (webhookData : Webhook.data)
    (business : Business.row) (st : Store) :
  let id := Webhook.call_id webhookData in
  let r := upserted env id
             (callData webhookData (Business.id business) None (Some "in-progress")) st in
  (exists e, handleCallStarted env webhookData business st = (Thrown e, st))
  \/ (exists res st2,
        handleCallStarted env webhookData business st = (Returned res, st2)
        /\ calls st2 = <[id := r]> (calls st)).
Proof.
  cbv zeta. unfold handleCallStarted. unfold_monad.
  destruct (createOrUpdateCall_cases env webhookData (Business.id business) None
              (Some "in-progress") st) as [[e He] | Hok].
  - left. exists e. now rewrite He.
  - right. cbv zeta in Hok. rewrite Hok.
    destruct (updateCallAnalytics_returns env (Business.id business) false
                (Some "started") (set_calls st (<[Webhook.call_id webhookData :=
                   upserted env (Webhook.call_id webhookData)
                     (callData webhookData (Business.id business) None
                        (Some "in-progress")) st]> (calls st))))
      as [st2 [H [Hc _]]].
    rewrite H. do 2 eexists. split; [reflexivity | exact Hc].
Qed.

(** C1, as stated, fails: a record that an Analyzed event left
    'completed' is put back to 'in-progress' by a Started event that
    arrives afterwards. *)
Lemma C1_counterexample :
  let st := store_after sample_env analyzed_event sample_store in
  status_of st "test-call-123" = Some "completed"
  /\ succeeded (fst (handleRetellWebhook sample_env started_event st)) = true
  /\ status_of (store_after sample_env started_event st) "test-call-123"
     = Some "in-progress".
Proof. vm_compute. repeat split; reflexivity. Qed.

(** C1 (amended): whatever status the record had, a Started event that is
    processed successfully leaves it 'in-progress'; the status is kept only
    when the delivery fails, and then the whole store is untouched. *)
Theorem C1_started_sets_in_progress
    (env : Env) (webhookData : Webhook.data) (st : Store) :
  strictly_equals (Webhook.event_type webhookData) "call_started" = true ->
  (forall res,
      fst (handleRetellWebhook env webhookData st) = Returned res ->
      status_of (store_after env webhookData st) (Webhook.call_id webhookData)
      = Some "in-progress")
  /\ (forall e,
         fst (handleRetellWebhook env webhookData st) = Thrown e ->
         store_after env webhookData st = st).
Proof.
  intros Hev. unfold store_after.
  destruct (findBusinessByPhoneNumber_spec env (Webhook.to_number webhookData) st)
    as [found [Hrun _]].
  destruct found as [b|].
  - rewrite (handleRetellWebhook_resolved _ _ _ _ Hrun).
    unfold dispatch. rewrite Hev.
    destruct (handleCallStarted_cases env webhookData b st)
      as [[e He] | [res [st2 [Hok Hcalls]]]].
    + rewrite He. simpl. split; [discriminate | reflexivity].
    + rewrite Hok. simpl. split; [|discriminate].
      intros _ _. unfold status_of. rewrite Hcalls, lookup_insert_eq.
      reflexivity.
  - rewrite (handleRetellWebhook_unresolved _ _ _ Hrun).
    simpl. split; [discriminate | reflexivity].
Qed.

Lemma C1_started_sets_in_progress_witness :
  status_of
    (store_after sample_env started_event
       (store_after sample_env analyzed_event sample_store))
    "test-call-123"
  = Some "in-progress".
Proof.
  refine (proj1 (C1_started_sets_in_progress sample_env started_event
                   (store_after sample_env analyzed_event sample_store) _) _ _).
  - reflexivity.
  - vm_compute. reflexivity.
Defined.

(** ** Analytics counters *)

Lemma only_calls_differ_refl (st : Store) : only_calls_differ st st.
Proof. split; reflexivity. Qed.

Lemma only_calls_differ_set_calls (st : Store) (c : gmap string Call.columns) :
  only_calls_differ st (set_calls st c).
Proof. split; reflexivity. Qed.

Lemma only_calls_differ_trans (st1 st2 st3 : Store) :
  only_calls_differ st1 st2 -> only_calls_differ st2 st3 -> only_calls_differ st1 st3.
Proof. intros [A1 B1] [A2 B2]. split; congruence. Qed.

Lemma after_notification_write_frame (env : Env) (callId : string) (sent : bool)
    (st : Store) :
  only_calls_differ st (after_notification_write env callId sent st).
Proof.
  unfold after_notification_write.
  destruct (notification_write_fault env); try apply only_calls_differ_refl.
  destruct (calls st !! callId); [apply only_calls_differ_set_calls
                                 | apply only_calls_differ_refl].
Qed.

Lemma createOrUpdateCall_frame (env : Env) (webhookData : Webhook.data)
    (businessId : string) (extractedInfo : option ExtractedInfo)
    (callStatus : option string) (st : Store) :
  only_calls_differ st
    (snd (createOrUpdateCall env webhookData businessId extractedInfo callStatus st)).
Proof.
  destruct (createOrUpdateCall_cases env webhookData businessId extractedInfo
              callStatus st) as [[e He] | Hok].
  - rewrite He. apply only_calls_differ_refl.
  - cbv zeta in Hok. rewrite Hok. apply only_calls_differ_set_calls.
Qed.

Lemma updateCallStatus_cases (env : Env) (callId status : string) (st : Store) :
  (exists e, updateCallStatus env callId status st = (Thrown e, st))
  \/ (exists c,
        calls st !! callId = Some c
        /\ updateCallStatus env callId status st
           = (Returned (Call.mk callId (Call.apply (status_patch status) c)),
              set_calls st (<[callId := Call.apply (status_patch status) c]> (calls st)))).
Proof.
  unfold updateCallStatus, update_call_single. unfold_monad.
  destruct (call_write_fault env) as [|e|e];
    destruct (calls st !! callId) as [c|] eqn:L;
    cbn -[status_patch String.append];
    first [right; eexists; split; reflexivity | left; eexists; reflexivity].
Qed.

Lemma handleCallStarted_analytics (env : Env) (webhookData : Webhook.data)
    (b : Business.row) (st st2 : Store) (res : Result.t) :
  analytics_select_fault env = NoFault ->
  analytics_write_fault env = NoFault ->
  handleCallStarted env webhookData b st = (Returned res, st2) ->
  let key := (Business.id b, today env) in
  call_analytics st2
  = <[key := counted (Some "started") (call_analytics st !! key)]> (call_analytics st)
  /\ Result.business_id res = Business.id b.
Proof.
  intros Hs Hw. unfold handleCallStarted. unfold_monad.
  pose proof (createOrUpdateCall_frame env webhookData (Business.id b) None
                (Some "in-progress") st) as [Fa _].
  destruct (createOrUpdateCall env webhookData (Business.id b) None
              (Some "in-progress") st) as [[r|e] st1]; [|discriminate].
  simpl in Fa.
  destruct (updateCallAnalytics_returns env (Business.id b) false (Some "started") st1)
    as [st' [H [_ [_ Ha]]]].
  rewrite H. intros E; inversion E; subst. cbv zeta.
  rewrite (Ha Hs Hw), Fa. split; reflexivity.
Qed.

Lemma handleCallEnded_analytics (env : Env) (webhookData : Webhook.data)
    (b : Business.row) (st st2 : Store) (res : Result.t) :
  analytics_select_fault env = NoFault ->
  analytics_write_fault env = NoFault ->
  handleCallEnded env webhookData b st = (Returned res, st2) ->
  let key := (Business.id b, today env) in
  call_analytics st2
  = <[key := counted (Some "completed") (call_analytics st !! key)]> (call_analytics st)
  /\ Result.business_id res = Business.id b.
Proof.
  intros Hs Hw. unfold handleCallEnded. unfold_monad.
  destruct (updateCallStatus_cases env (Webhook.call_id webhookData) "completed" st)
    as [[e He] | [c [_ Hok]]].
  - rewrite He. discriminate.
  - rewrite Hok.
    match goal with
    | |- context [updateCallAnalytics env ?bid ?cc ?et ?s] =>
        destruct (updateCallAnalytics_returns env bid cc et s) as [st' [H [_ [_ Ha]]]]
    end.
    rewrite H. intros E; inversion E; subst. cbv zeta.
    rewrite (Ha Hs Hw). split; reflexivity.
Qed.

Lemma handleCallAnalyzed_frame (env : Env) (webhookData : Webhook.data)
    (b : Business.row) (st : Store) :
  only_calls_differ st (snd (handleCallAnalyzed env webhookData b st)).
Proof.
  unfold handleCallAnalyzed, sendAllNotifications. cbv zeta. unfold_monad.
  pose proof (createOrUpdateCall_frame env webhookData (Business.id b)
                (analyzedInfo webhookData) (Some "completed") st) as F.
  destruct (createOrUpdateCall env webhookData (Business.id b)
              (analyzedInfo webhookData) (Some "completed") st) as [[r|e] st1];
    simpl in F; [|exact F].
  destruct (has_summary (analyzedInfo webhookData)); [|exact F].
  rewrite updateCallNotificationStatus_spec. simpl.
  eapply only_calls_differ_trans; [exact F | apply after_notification_write_frame].
Qed.

Lemma handleLegacyWebhook_analytics (env : Env) (webhookData : Webhook.data)
    (b : Business.row) (st st2 : Store) (res : Result.t) :
  analytics_select_fault env = NoFault ->
  analytics_write_fault env = NoFault ->
  handleLegacyWebhook env webhookData b st = (Returned res, st2) ->
  let key := (Business.id b, today env) in
  call_analytics st2
  = <[key := counted None (call_analytics st !! key)]> (call_analytics st)
  /\ Result.business_id res = Business.id b.
Proof.
  intros Hs Hw. unfold handleLegacyWebhook, sendAllNotifications. cbv zeta.
  unfold_monad.
  pose proof (createOrUpdateCall_frame env webhookData (Business.id b)
                (legacyInfo webhookData) (Webhook.call_status webhookData) st) as F.
  destruct (createOrUpdateCall env webhookData (Business.id b)
              (legacyInfo webhookData) (Webhook.call_status webhookData) st)
    as [[r|e] st1]; [|discriminate].
  simpl in F.
  destruct (strictly_equals (Webhook.call_status webhookData) "completed").
  - rewrite updateCallNotificationStatus_spec.
    pose proof (after_notification_write_frame env (Call.id r)
                  (notification_success env) st1) as F'.
    destruct (only_calls_differ_trans _ _ _ F F') as [Fa _].
    match goal with
    | |- context [updateCallAnalytics env ?bid ?cc ?et ?s] =>
        destruct (updateCallAnalytics_returns env bid cc et s) as [st' [H [_ [_ Ha]]]]
    end.
    rewrite H. intros E; inversion E; subst. cbv zeta.
    rewrite (Ha Hs Hw), Fa. split; reflexivity.
  - destruct F as [Fa _].
    match goal with
    | |- context [updateCallAnalytics env ?bid ?cc ?et ?s] =>
        destruct (updateCallAnalytics_returns env bid cc et s) as [st' [H [_ [_ Ha]]]]
    end.
    rewrite H. intros E; inversion E; subst. cbv zeta.
    rewrite (Ha Hs Hw), Fa. split; reflexivity.
Qed.

(** C3, as stated, fails: an Analyzed event that is processed successfully
    leaves total_calls where it was; and so does a Started event whose
    analytics write is answered with an error. *)
Lemma C3_counterexample :
  let st := store_after sample_env started_event sample_store in
  (succeeded (fst (handleRetellWebhook sample_env analyzed_event st)) = true
   /\ total_calls_of st sample_key = 1%Z
   /\ total_calls_of (store_after sample_env analyzed_event st) sample_key = 1%Z
   /\ total_calls_of (store_after sample_env analyzed_event st) sample_key
      <> (total_calls_of st sample_key + 1)%Z)
  /\ (succeeded (fst (handleRetellWebhook faulty_env started_event st)) = true
      /\ total_calls_of (store_after faulty_env started_event st) sample_key = 1%Z).
Proof. vm_compute. repeat split; try reflexivity. discriminate. Qed.

(** A Started event that opens the day's row records a failed notification. *)
Lemma started_opens_row_with_failure :
  call_analytics sample_store !! sample_key = None
  /\ failed_of (store_after sample_env started_event sample_store) sample_key = 1%Z.
Proof. vm_compute. split; reflexivity. Qed.

Lemma strictly_equals_exclusive (eventType : option string) (a b : string) :
  strictly_equals eventType a = true -> a <> b -> strictly_equals eventType b = false.
Proof.
  destruct eventType as [e|]; simpl; [|discriminate].
  intros Ha Hab. apply String.eqb_eq in Ha. subst e.
  now apply String.eqb_neq.
Qed.

Lemma counted_total (eventType : option string) (old : option Analytics.row) :
  Analytics.total_calls (counted eventType old)
  = (match old with Some r => Analytics.total_calls r | None => 0 end + 1)%Z.
Proof. destruct old; reflexivity. Qed.

(** The counters of an existing row after a counted delivery. *)
Lemma insert_counted (a : gmap (string * string) Analytics.row) (st st' : Store)
    (key : string * string) (eventType : option string) :
  call_analytics st = a ->
  call_analytics st' = <[key := counted eventType (a !! key)]> a ->
  total_calls_of st' key = (total_calls_of st key + 1)%Z
  /\ (forall k, k <> key -> call_analytics st' !! k = call_analytics st !! k)
  /\ (forall r, call_analytics st !! key = Some r ->
        successful_of st' key
        = (Analytics.successful_notifications r
           + if strictly_equals eventType "completed" then 1 else 0)%Z
        /\ failed_of st' key = Analytics.failed_notifications r).
Proof.
  intros Ha Ha'. unfold total_calls_of, successful_of, failed_of.
  rewrite Ha', Ha. rewrite lookup_insert_eq. split; [apply counted_total|]. split.
  - intros k Hk. now rewrite lookup_insert_ne by congruence.
  - intros r Hr. rewrite Hr. cbn -[strictly_equals].
    destruct (strictly_equals eventType "completed"); split; (reflexivity || lia).
Qed.

(** C3 (amended): with the analytics requests answered normally, a
    successfully processed Started, Ended or Legacy event raises total_calls
    of the (business_id, today) row by exactly 1 (a missing row counts as 0)
    and touches no other row; when the row already exists,
    successful_notifications rises by 1 on an Ended event and is kept
    otherwise, and failed_notifications is kept.  A successfully processed
    Analyzed event leaves every analytics row as it was. *)
Theorem C3_analytics_counters
    (env : Env) (webhookData : Webhook.data) (st : Store) (res : Result.t) :
  analytics_select_fault env = NoFault ->
  analytics_write_fault env = NoFault ->
  fst (handleRetellWebhook env webhookData st) = Returned res ->
  let key := (Result.business_id res, today env) in
  let st' := store_after env webhookData st in
  if strictly_equals (Webhook.event_type webhookData) "call_analyzed"
  then call_analytics st' = call_analytics st
  else
    total_calls_of st' key = (total_calls_of st key + 1)%Z
    /\ (forall k, k <> key -> call_analytics st' !! k = call_analytics st !! k)
    /\ (forall r, call_analytics st !! key = Some r ->
          successful_of st' key
          = (Analytics.successful_notifications r
             + if strictly_equals (Webhook.event_type webhookData) "call_ended"
               then 1 else 0)%Z
          /\ failed_of st' key = Analytics.failed_notifications r).
Proof.
  intros Hs Hw. unfold store_after.
  destruct (findBusinessByPhoneNumber_spec env (Webhook.to_number webhookData) st)
    as [found [Hrun _]].
  destruct found as [b|];
    [|rewrite (handleRetellWebhook_unresolved _ _ _ Hrun); discriminate].
  rewrite (handleRetellWebhook_resolved _ _ _ _ Hrun). unfold dispatch.
  destruct (strictly_equals (Webhook.event_type webhookData) "call_started") eqn:E1;
    [rewrite (strictly_equals_exclusive _ _ "call_analyzed" E1) by discriminate;
     rewrite (strictly_equals_exclusive _ _ "call_ended" E1) by discriminate
    |destruct (strictly_equals (Webhook.event_type webhookData) "call_ended") eqn:E2;
      [rewrite (strictly_equals_exclusive _ _ "call_analyzed" E2) by discriminate
      |destruct (strictly_equals (Webhook.event_type webhookData) "call_analyzed") eqn:E3]].
  - destruct (handleCallStarted env webhookData b st) as [o st2] eqn:H.
    simpl. intros Ho; subst o.
    destruct (handleCallStarted_analytics _ _ _ _ _ _ Hs Hw H) as [Ha Hb].
    rewrite Hb. eapply (insert_counted _ st st2 _ (Some "started")); [reflexivity | exact Ha].
  - destruct (handleCallEnded env webhookData b st) as [o st2] eqn:H.
    simpl. intros Ho; subst o.
    destruct (handleCallEnded_analytics _ _ _ _ _ _ Hs Hw H) as [Ha Hb].
    rewrite Hb. eapply (insert_counted _ st st2 _ (Some "completed")); [reflexivity | exact Ha].
  - intros _. apply (handleCallAnalyzed_frame env webhookData b st).
  - destruct (handleLegacyWebhook env webhookData b st) as [o st2] eqn:H.
    simpl. intros Ho; subst o.
    destruct (handleLegacyWebhook_analytics _ _ _ _ _ _ Hs Hw H) as [Ha Hb].
    rewrite Hb. eapply (insert_counted _ st st2 _ None); [reflexivity | exact Ha].
Qed.

Lemma C3_analytics_counters_witness :
  let st := store_after sample_env started_event sample_store in
  total_calls_of (store_after sample_env ended_event st) sample_key
  = (total_calls_of st sample_key + 1)%Z.
Proof.
  cbv zeta.
  pose proof (C3_analytics_counters sample_env ended_event
                (store_after sample_env started_event sample_store)
                {| Result.success := true;
                   Result.call_id := "test-call-123";
                   Result.business_id := "business-123";
                   Result.event_type := Some "call_ended";
                   Result.notifications_sent := None;
                   Result.extracted_info := None;
                   Result.message := Some "Call ended successfully" |}
                eq_refl eq_refl) as H.
  cbv zeta in H.
  refine (proj1 (H _)). vm_compute. reflexivity.
Defined.

(** ** Redelivery of an Analyzed event *)

Lemma findBusinessByPhoneNumber_resolve (env : Env) (phone : option string) (st : Store) :
  findBusinessByPhoneNumber env phone st
  = (Returned (resolve (business_select_fault env) phone (businesses st)), st).
Proof.
  unfold findBusinessByPhoneNumber, select_active_business, resolve.
  cbv zeta. unfold_monad.
  destruct (business_select_fault env) as [|e|e]; try reflexivity.
  destruct (normalizePhoneNumber phone) as [p|]; [|reflexivity].
  destruct (List.filter _ (businesses st)) as [|b [|b' l]]; reflexivity.
Qed.



Lemma apply_upd_idem {A : Type} (u : upd A) (o : option A) :
  apply_upd u (apply_upd u o) = apply_upd u o.
Proof. destruct u; reflexivity. Qed.

Lemma apply_idem (p : Call.patch) (c : Call.columns) :
  Call.apply p (Call.apply p c) = Call.apply p c.
Proof. unfold Call.apply; simpl. now rewrite !apply_upd_idem. Qed.













(** ** The embedding on the transcripts of the test suite and the scenarios *)

Example extraction_of_test_transcript :
  extractCallInformation
    (JsString "Hello, my name is John Doe. My phone number is 555-123-4567. I need help with a plumbing issue.")
  = {| name := Some "John Doe"; callback_number := Some "+15551234567";
       address := None; reason := Some "Help"; call_summary := Some "Help" |}.
Proof. vm_compute. reflexivity. Qed.

Example extraction_of_legacy_scenario :
  let info := extractCallInformation
                (JsString "My name is Sarah Jones and I need help with a clogged drain") in
  name info = Some "Sarah Jones" /\ call_summary info = reason info.
Proof. vm_compute. split; reflexivity. Qed.

Example legacy_completed_is_stored :
  let st := store_after sample_env legacy_event sample_store in
  status_of st "test-call-123" = Some "completed"
  /\ (Call.caller_name <$> calls st !! "test-call-123") = Some (Some "Sarah Jones")
  /\ (Call.notification_sent <$> calls st !! "test-call-123") = Some (Some true)
  /\ total_calls_of st sample_key = 1%Z.
Proof. vm_compute. repeat split; reflexivity. Qed.

Example ended_without_record_fails :
  succeeded (fst (handleRetellWebhook sample_env ended_event sample_store)) = false
  /\ store_after sample_env ended_event sample_store = sample_store.
Proof. vm_compute. split; reflexivity. Qed.

(* ===================================================================== *)
(** * Further properties of the extractor                                 *)
(* ===================================================================== *)

(** ** The transcript normalizer *)

Lemma is_space_lower_char (c : ascii) : Js.is_space (Js.lower_char c) = Js.is_space c.
Proof. destruct c as [[] [] [] [] [] [] [] []]; reflexivity. Qed.

Lemma lower_char_idem (c : ascii) : Js.lower_char (Js.lower_char c) = Js.lower_char c.
Proof. destruct c as [[] [] [] [] [] [] [] []]; reflexivity. Qed.

Lemma is_upper_lower_char (c : ascii) : Js.is_upper (Js.lower_char c) = false.
Proof. destruct c as [[] [] [] [] [] [] [] []]; reflexivity. Qed.

Lemma toLowerCase_idem (s : string) : Js.toLowerCase (Js.toLowerCase s) = Js.toLowerCase s.
Proof.
  unfold Js.toLowerCase. induction s as [|c r IH]; simpl; [reflexivity|].
  now rewrite lower_char_idem, IH.
Qed.

Lemma collapse_from_idem (s : string) (b : bool) :
  Js.collapse_from b (Js.collapse_from b s) = Js.collapse_from b s.
Proof.
  revert b. induction s as [|c r IH]; intros b; simpl; [reflexivity|].
  destruct (Js.is_space c) eqn:Ec.
  - destruct b; [apply IH|]. simpl. now rewrite IH.
  - simpl. now rewrite Ec, IH.
Qed.

Lemma toLowerCase_collapse_from (s : string) (b : bool) :
  Js.toLowerCase (Js.collapse_from b s) = Js.collapse_from b (Js.toLowerCase s).
Proof.
  unfold Js.toLowerCase. revert b. induction s as [|c r IH]; intros b; simpl; [reflexivity|].
  rewrite is_space_lower_char. destruct (Js.is_space c) eqn:Ec.
  - destruct b; simpl; now rewrite IH.
  - simpl. now rewrite IH.
Qed.

Lemma cleanTranscript_idem (s : string) :
  cleanTranscript (cleanTranscript s) = cleanTranscript s.
Proof.
  unfold cleanTranscript, Js.collapse_whitespace.
  rewrite toLowerCase_collapse_from, toLowerCase_idem. apply collapse_from_idem.
Qed.

Lemma collapse_from_blanks (s : string) (b : bool) (c : ascii) :
  In c (list_ascii_of_string (Js.collapse_from b s)) ->
  Js.is_space c = true -> c = " "%char.
Proof.
  revert b. induction s as [|a r IH]; intros b; simpl; [tauto|].
  destruct (Js.is_space a) eqn:Ea.
  - destruct b; [apply IH|]. simpl. intros [H|H] Hc; [now subst | eapply IH; eauto].
  - simpl. intros [H|H] Hc; [subst; congruence | eapply IH; eauto].
Qed.

Lemma collapse_from_upper (s : string) (b : bool) (c : ascii) :
  In c (list_ascii_of_string (Js.collapse_from b (Js.toLowerCase s))) ->
  Js.is_upper c = false.
Proof.
  unfold Js.toLowerCase. revert b. induction s as [|a r IH]; intros b; simpl; [tauto|].
  destruct (Js.is_space (Js.lower_char a)) eqn:Ea.
  - destruct b; [apply IH|]. simpl. intros [H|H]; [now subst | eapply IH; eauto].
  - simpl. intros [H|H]; [subst; apply is_upper_lower_char | eapply IH; eauto].
Qed.

Lemma includes_cons (c : ascii) (s p : string) :
  Js.includes (String c s) p = Js.startsWith p (String c s) || Js.includes s p.
Proof. reflexivity. Qed.

Lemma startsWith_cons (a b : ascii) (p s : string) :
  Js.startsWith (String a p) (String b s) = Ascii.eqb a b && Js.startsWith p s.
Proof. reflexivity. Qed.

(** No two blanks in a row: after a blank ([b = true]) the output does not
    start with a space, and nowhere does it contain two spaces. *)
Lemma collapse_from_no_double (s : string) (b : bool) :
  Js.includes (Js.collapse_from b s) "  " = false
  /\ (b = true -> Js.startsWith " " (Js.collapse_from b s) = false).
Proof.
  revert b. induction s as [|a r IH]; intros b.
  - split; [reflexivity | intros _; reflexivity].
  - cbn [Js.collapse_from]. destruct (Js.is_space a) eqn:Ea.
    + destruct b; [apply IH|].
      destruct (IH true) as [Hi Hs]. specialize (Hs eq_refl).
      split; [|discriminate].
      rewrite includes_cons, startsWith_cons, Hi, Hs. reflexivity.
    + assert (Hne : Ascii.eqb " " a = false).
      { apply Ascii.eqb_neq. intros <-. discriminate Ea. }
      destruct (IH false) as [Hi _]. split.
      * rewrite includes_cons, startsWith_cons, Hi, Hne. reflexivity.
      * intros _. rewrite startsWith_cons, Hne. reflexivity.
Qed.

(** X1: the normalizer is idempotent, its output has no upper-case letter,
    no blank other than the space and no two spaces in a row; so
    extraction gives the same result on a transcript and on its normal
    form. *)
Theorem cleanTranscript_normal_form (s : string) :
  cleanTranscript (cleanTranscript s) = cleanTranscript s
  /\ (forall c, In c (list_ascii_of_string (cleanTranscript s)) ->
        Js.is_upper c = false /\ (Js.is_space c = true -> c = " "%char))
  /\ Js.includes (cleanTranscript s) "  " = false
  /\ extractCallInformation (JsString (cleanTranscript s))
     = extractCallInformation (JsString s).
Proof.
  split; [apply cleanTranscript_idem|]. split; [|split].
  - intros c Hc. split.
    + eapply collapse_from_upper; exact Hc.
    + eapply collapse_from_blanks; exact Hc.
  - apply (collapse_from_no_double (Js.toLowerCase s) false).
  - unfold extractCallInformation.
    destruct s as [|a r]; [reflexivity|].
    assert (Hne : Js.is_empty (cleanTranscript (String a r)) = false).
    { unfold cleanTranscript, Js.collapse_whitespace. simpl.
      destruct (Js.is_space (Js.lower_char a)); reflexivity. }
    rewrite Hne. cbn [Js.is_empty]. now rewrite cleanTranscript_idem.
Qed.

(** ** Phone numbers *)

Lemma length_append (a b : string) :
  String.length (a +:+ b) = (String.length a + String.length b)%nat.
Proof. induction a as [|c r IH]; simpl; [reflexivity | now rewrite IH]. Qed.

Lemma strip_all_digits (s : string) : all_digits (Js.strip_non_digits s).
Proof. apply sfilter_idem. Qed.

Lemma strip_plus (x : string) :
  Js.strip_non_digits (String "+" x) = Js.strip_non_digits x.
Proof. reflexivity. Qed.

Lemma strip_one (x : string) :
  Js.strip_non_digits (String "1" x) = String "1" (Js.strip_non_digits x).
Proof. reflexivity. Qed.

Lemma strip_strip (x : string) :
  Js.strip_non_digits (Js.strip_non_digits x) = Js.strip_non_digits x.
Proof. apply sfilter_idem. Qed.

(** The canonical format is a plus sign and the digits, with a leading 1
    put before exactly ten digits. *)
Lemma canonical_phone_shape (s : string) :
  exists d, canonical_phone s = "+" +:+ d
            /\ all_digits d
            /\ d = (if (String.length (Js.strip_non_digits s) =? 10)%nat
                    then "1" +:+ Js.strip_non_digits s
                    else Js.strip_non_digits s).
Proof.
  unfold canonical_phone. cbv zeta.
  destruct (String.length (Js.strip_non_digits s) =? 10)%nat.
  - exists ("1" +:+ Js.strip_non_digits s). split; [reflexivity|]. split; [|reflexivity].
    unfold all_digits. change ("1" +:+ Js.strip_non_digits s)
      with (String "1" (Js.strip_non_digits s)).
    now rewrite strip_one, strip_strip.
  - exists (Js.strip_non_digits s). split; [reflexivity|]. split; [|reflexivity].
    apply strip_all_digits.
Qed.

Lemma canonical_phone_idem (s : string) :
  canonical_phone (canonical_phone s) = canonical_phone s.
Proof.
  unfold canonical_phone. cbv zeta.
  destruct (String.length (Js.strip_non_digits s) =? 10)%nat eqn:E.
  - assert (Hs : Js.strip_non_digits ("+1" +:+ Js.strip_non_digits s)
                 = "1" +:+ Js.strip_non_digits s).
    { change ("+1" +:+ Js.strip_non_digits s)
        with (String "+" (String "1" (Js.strip_non_digits s))).
      now rewrite strip_plus, strip_one, strip_strip. }
    rewrite Hs. apply Nat.eqb_eq in E.
    assert (Hl : (String.length ("1" +:+ Js.strip_non_digits s) =? 10)%nat = false).
    { apply Nat.eqb_neq.
      change (String.length ("1" +:+ Js.strip_non_digits s))
        with (S (String.length (Js.strip_non_digits s))).
      lia. }
    rewrite Hl. reflexivity.
  - assert (Hs : Js.strip_non_digits ("+" +:+ Js.strip_non_digits s)
                 = Js.strip_non_digits s).
    { change ("+" +:+ Js.strip_non_digits s)
        with (String "+" (Js.strip_non_digits s)).
      now rewrite strip_plus, strip_strip. }
    rewrite Hs, E. reflexivity.
Qed.

(** X2: [formatPhoneNumber] returns a plus sign followed by digits only,
    formatting its own output changes nothing, and two inputs with the same
    digits get the same format. *)
Theorem formatPhoneNumber_shape_and_idempotence (s : string) :
  (exists d, formatPhoneNumber s = "+" +:+ d /\ all_digits d)
  /\ formatPhoneNumber (formatPhoneNumber s) = formatPhoneNumber s
  /\ (forall s', Js.strip_non_digits s' = Js.strip_non_digits s ->
        formatPhoneNumber s' = formatPhoneNumber s).
Proof.
  split; [|split].
  - rewrite formatPhoneNumber_canonical.
    destruct (canonical_phone_shape s) as [d [H1 [H2 _]]]. exists d. auto.
  - rewrite !formatPhoneNumber_canonical. apply canonical_phone_idem.
  - intros s' H. rewrite !formatPhoneNumber_canonical. unfold canonical_phone.
    now rewrite H.
Qed.

Lemma formatPhoneNumber_shape_and_idempotence_witness :
  formatPhoneNumber "1-555-123-4567" = formatPhoneNumber "+1 (555) 123 4567".
Proof.
  apply (proj2 (proj2 (formatPhoneNumber_shape_and_idempotence "+1 (555) 123 4567"))).
  reflexivity.
Defined.

(** X3: a phone number that [extractPhoneNumber] returns is a plus sign
    followed by 7 to 15 digits. *)
Theorem extractPhoneNumber_shape (t p : string) :
  extractPhoneNumber t = Some p ->
  exists d, p = "+" +:+ d /\ all_digits d
            /\ (7 <= String.length d <= 15)%nat.
Proof.
  intros H. unfold extractPhoneNumber in H.
  apply first_some_In in H. destruct H as [pattern [_ Hc]].
  apply phone_candidate_Some in Hc. destruct Hc as (run & _ & Hlen & Hp). subst p.
  destruct (canonical_phone_shape run) as [d [H1 [H2 H3]]].
  exists d. split; [exact H1|]. split; [exact H2|].
  subst d. destruct (String.length (Js.strip_non_digits run) =? 10)%nat eqn:E.
  - apply Nat.eqb_eq in E.
    change (String.length ("1" +:+ Js.strip_non_digits run))
      with (S (String.length (Js.strip_non_digits run))).
    lia.
  - lia.
Qed.

Lemma extractPhoneNumber_shape_witness :
  exists d, "+442079460958" = "+" +:+ d /\ all_digits d
            /\ (7 <= String.length d <= 15)%nat.
Proof.
  apply (extractPhoneNumber_shape "you can reach me at 44 20 7946 0958 after five").
  vm_compute. reflexivity.
Defined.

(** ** The summary builder *)

Lemma append_empty_r (s : string) : s +:+ "" = s.
Proof.
  induction s as [|c r IH]; [reflexivity|].
  change (String c r +:+ "") with (String c (r +:+ "")). now rewrite IH.
Qed.

Lemma append_cons (c : ascii) (a b : string) : String c a +:+ b = String c (a +:+ b).
Proof. reflexivity. Qed.

Lemma append_assoc_string (a b c : string) : (a +:+ b) +:+ c = a +:+ (b +:+ c).
Proof.
  induction a as [|x r IH]; [reflexivity|].
  change ((String x r +:+ b) +:+ c) with (String x ((r +:+ b) +:+ c)).
  change (String x r +:+ (b +:+ c)) with (String x (r +:+ (b +:+ c))).
  now rewrite IH.
Qed.

Lemma space_free_app (a b : string) :
  space_free a -> space_free b -> space_free (a +:+ b).
Proof.
  unfold space_free. induction a as [|x r IH]; simpl; intros Ha Hb c Hc; [auto|].
  destruct Hc as [Hc|Hc]; [apply Ha; auto|].
  apply IH; auto.
Qed.

Lemma split_from_space_free_app (w acc s : string) :
  space_free w ->
  Js.split_from acc (w +:+ s) = Js.split_from (acc +:+ w) s.
Proof.
  revert acc. induction w as [|c r IH]; intros acc Hw.
  - rewrite append_empty_r. reflexivity.
  - assert (Hc : Ascii.eqb c " " = false).
    { apply Ascii.eqb_neq. apply Hw. simpl. auto. }
    change (Js.split_from acc (String c r +:+ s))
      with (if Ascii.eqb c " " then acc :: Js.split_from "" (r +:+ s)
            else Js.split_from (acc +:+ String c "") (r +:+ s)).
    rewrite Hc, IH by (intros x Hx; apply Hw; simpl; auto).
    rewrite append_assoc_string. reflexivity.
Qed.

Lemma split_from_nonempty (acc s : string) : Js.split_from acc s <> [].
Proof.
  revert acc. induction s as [|c r IH]; intros acc; simpl; [discriminate|].
  destruct (Ascii.eqb c " "); [discriminate | apply IH].
Qed.

Lemma split_from_space_free (s acc : string) :
  space_free acc -> Forall space_free (Js.split_from acc s).
Proof.
  revert acc. induction s as [|c r IH]; intros acc Hacc; simpl.
  - constructor; [exact Hacc | constructor].
  - destruct (Ascii.eqb c " ") eqn:Ec.
    + constructor; [exact Hacc|]. apply IH. intros x [].
    + apply IH. apply space_free_app; [exact Hacc|].
      intros x [Hx|[]]. subst x. now apply Ascii.eqb_neq.
Qed.

(** Cutting a space-joined list of space-free words gives the words back. *)
Lemma split_join (l : list string) :
  l <> [] -> Forall space_free l -> Js.split_space (Js.join_space l) = l.
Proof.
  unfold Js.split_space, Js.join_space.
  induction l as [|w l IH]; intros Hne Hall; [congruence|].
  inversion Hall as [|? ? Hw Hl]; subst.
  destruct l as [|w2 l'].
  - simpl. rewrite <- (append_empty_r w) at 1.
    now rewrite split_from_space_free_app.
  - change (String.concat " " (w :: w2 :: l'))
      with (w +:+ String " " (String.concat " " (w2 :: l'))).
    rewrite split_from_space_free_app by exact Hw.
    simpl Js.split_from. f_equal. apply IH; [discriminate | exact Hl].
Qed.

Lemma space_words_spec (r : string) :
  Forall (fun w => space_free w /\ w <> "") (space_words r).
Proof.
  unfold space_words, Js.split_space.
  assert (H : Forall space_free (Js.split_from "" r))
    by (apply split_from_space_free; intros x []).
  induction H as [|w l Hw Hl IH]; simpl; [constructor|].
  destruct w as [|c w']; simpl; [exact IH|].
  constructor; [split; [exact Hw | discriminate] | exact IH].
Qed.

Lemma space_words_join (l : list string) :
  l <> [] -> Forall (fun w => space_free w /\ w <> "") l ->
  space_words (Js.join_space l) = l.
Proof.
  intros Hne Hall. unfold space_words.
  rewrite split_join; [|exact Hne|].
  - induction Hall as [|w l [_ Hw] Hl IH]; simpl; [reflexivity|].
    destruct w as [|c w']; [congruence|]. simpl. f_equal.
    destruct l; [reflexivity | apply IH; discriminate].
  - eapply List.Forall_impl; [|exact Hall]. simpl. tauto.
Qed.

Lemma join_space_last (l : list string) (w x : string) :
  Js.join_space (l ++ [w]) +:+ x = Js.join_space (l ++ [w +:+ x]).
Proof.
  unfold Js.join_space. induction l as [|a l IH]; [reflexivity|].
  destruct l as [|b l'].
  - simpl. now rewrite append_assoc_string.
  - change (String.concat " " ((a :: b :: l') ++ [w]))
      with (a +:+ String " " (String.concat " " ((b :: l') ++ [w]))).
    change (String.concat " " ((a :: b :: l') ++ [w +:+ x]))
      with (a +:+ String " " (String.concat " " ((b :: l') ++ [w +:+ x]))).
    rewrite append_assoc_string, append_cons. now rewrite IH.
Qed.

Lemma createCallSummary_short (r : string) :
  r <> "" -> (List.length (space_words r) <= 10)%nat -> createCallSummary (Some r) = r.
Proof.
  intros Hr Hlen. unfold createCallSummary.
  destruct r as [|c r']; [congruence|].
  cbv beta iota delta [Js.is_empty]. cbv zeta. fold (space_words (String c r')).
  apply Nat.leb_le in Hlen. now rewrite Hlen.
Qed.

(** A truncated summary: its words are the first nine words of the reason
    and the tenth with the dots appended. *)
Lemma truncated_summary_words (r : string) :
  (10 < List.length (space_words r))%nat ->
  exists l w,
    firstn 10 (space_words r) = l ++ [w]
    /\ createCallSummary (Some r) = Js.join_space (l ++ [w +:+ "..."])
    /\ space_words (createCallSummary (Some r)) = l ++ [w +:+ "..."]
    /\ List.length (l ++ [w +:+ "..."]) = 10%nat.
Proof.
  intros Hlen.
  assert (Hf : List.length (firstn 10 (space_words r)) = 10%nat)
    by (rewrite length_firstn; lia).
  destruct (exists_last (l := firstn 10 (space_words r))) as [l [w Hlw]].
  { intros E. rewrite E in Hf. discriminate. }
  exists l, w.
  assert (Hsum : createCallSummary (Some r) = Js.join_space (l ++ [w +:+ "..."])).
  { unfold createCallSummary. destruct r as [|c r']; [simpl in Hlen; lia|].
    cbv beta iota delta [Js.is_empty]. cbv zeta. fold (space_words (String c r')).
    apply Nat.leb_gt in Hlen. rewrite Hlen, Hlw. apply join_space_last. }
  assert (Hall : Forall (fun w => space_free w /\ w <> "") (l ++ [w +:+ "..."])).
  { pose proof (space_words_spec r) as Hs.
    apply (Forall_take _ 10) in Hs. rewrite Hlw in Hs.
    apply Forall_app in Hs. destruct Hs as [Hl Hw].
    apply Forall_app. split; [exact Hl|].
    inversion Hw as [|? ? [Hw1 Hw2] _]; subst. constructor; [|constructor]. split.
    - apply space_free_app; [exact Hw1|].
      intros x Hx. simpl in Hx. destruct Hx as [<-|[<-|[<-|[]]]]; discriminate.
    - destruct w; [congruence | discriminate]. }
  split; [exact Hlw|]. split; [exact Hsum|]. split.
  - rewrite Hsum. apply space_words_join; [|exact Hall].
    destruct l; discriminate.
  - rewrite Hlw in Hf. rewrite length_app in *. simpl in *. lia.
Qed.

Lemma createCallSummary_bounds (reason : option string) :
  createCallSummary reason <> ""
  /\ (List.length (space_words (createCallSummary reason)) <= 10)%nat
  /\ createCallSummary (Some (createCallSummary reason)) = createCallSummary reason.
Proof.
  assert (Hplaceholder :
            createCallSummary (Some "Customer inquiry") = "Customer inquiry"
            /\ (List.length (space_words "Customer inquiry") <= 10)%nat)
    by (split; [reflexivity | vm_compute; lia]).
  destruct reason as [r|]; [|simpl; split; [discriminate | split; tauto]].
  destruct r as [|c r']; [simpl; split; [discriminate | split; tauto]|].
  destruct (Nat.leb_spec (List.length (space_words (String c r'))) 10) as [Hle|Hgt].
  - rewrite (createCallSummary_short (String c r')) by (discriminate || exact Hle).
    split; [discriminate|]. split; [exact Hle|].
    apply createCallSummary_short; [discriminate | exact Hle].
  - destruct (truncated_summary_words _ Hgt) as (l & w & _ & Hsum & Hwords & Hlen).
    assert (Hne : createCallSummary (Some (String c r')) <> "").
    { intros E. rewrite E in Hwords. simpl in Hwords.
      rewrite <- Hwords in Hlen. discriminate. }
    split; [exact Hne|]. split; [rewrite Hwords; lia|].
    apply createCallSummary_short; [exact Hne | rewrite Hwords; lia].
Qed.

(** X4: a summary is never empty and never has more than ten words, and
    summarising a summary changes nothing. *)
Theorem createCallSummary_bounded (reason : option string) :
  createCallSummary reason <> ""
  /\ (List.length (space_words (createCallSummary reason)) <= 10)%nat
  /\ createCallSummary (Some (createCallSummary reason)) = createCallSummary reason.
Proof. apply createCallSummary_bounds. Qed.

(** ** The reason and the other fields *)

(** X5: a transcript that mentions "emergency", "urgent" or "storm" always
    gets a reason, one of the four fixed emergency phrases, and the summary
    of that reason is the reason itself; so the extraction of such a
    transcript carries the phrase as reason and as call_summary. *)
Theorem emergency_always_has_reason :
  (forall t,
      mentions_emergency t = true ->
      exists phrase,
        In phrase emergency_phrases
        /\ extractReason t = Some phrase
        /\ createCallSummary (Some phrase) = phrase)
  /\ (forall s,
         s <> "" ->
         mentions_emergency (cleanTranscript s) = true ->
         exists phrase,
           In phrase emergency_phrases
           /\ reason (extractCallInformation (JsString s)) = Some phrase
           /\ call_summary (extractCallInformation (JsString s)) = Some phrase).
Proof.
  assert (H : forall t, mentions_emergency t = true ->
                exists phrase, In phrase emergency_phrases
                               /\ extractReason t = Some phrase
                               /\ createCallSummary (Some phrase) = phrase).
  { intros t Hm. unfold extractReason, extractReason_with, emergency_reason.
    unfold mentions_emergency in Hm. rewrite Hm.
    destruct (Js.includes t "plumbing" || Js.includes t "sink" || Js.includes t "water").
    { eexists; split; [|split; reflexivity]. simpl; auto. }
    destruct (Js.includes t "tree" || Js.includes t "branch").
    { eexists; split; [|split; reflexivity]. simpl; auto. }
    destruct (Js.includes t "electrical" || Js.includes t "power").
    { eexists; split; [|split; reflexivity]. simpl; auto. }
    eexists; split; [|split; reflexivity]. simpl; auto. }
  split; [exact H|].
  intros s Hs Hm. destruct (H _ Hm) as (phrase & Hin & Hr & Hsum).
  exists phrase. split; [exact Hin|].
  unfold extractCallInformation. destruct s as [|c r]; [congruence|].
  cbv beta iota delta [Js.is_empty]. cbv zeta. simpl reason. simpl call_summary.
  rewrite Hr, Hsum. split; reflexivity.
Qed.

Lemma emergency_always_has_reason_witness :
  exists phrase,
    In phrase emergency_phrases
    /\ reason (extractCallInformation (JsString "URGENT: a branch fell on my car")) = Some phrase
    /\ call_summary (extractCallInformation (JsString "URGENT: a branch fell on my car"))
       = Some phrase.
Proof.
  apply (proj2 emergency_always_has_reason "URGENT: a branch fell on my car");
    [discriminate | vm_compute; reflexivity].
Defined.

Lemma or_else_Some {A : Type} (o k : option A) (x : A) :
  or_else o k = Some x -> o = Some x \/ k = Some x.
Proof. destruct o; simpl; auto. Qed.

Lemma capitalize_length (s : string) : String.length (Js.capitalize s) = String.length s.
Proof. destruct s; reflexivity. Qed.

Lemma capitalize_words_from_length (s acc : string) :
  String.length (Js.join_space (map Js.capitalize (Js.split_from acc s)))
  = (String.length acc + String.length s)%nat.
Proof.
  unfold Js.join_space. revert acc. induction s as [|c r IH]; intros acc.
  - simpl. rewrite capitalize_length. lia.
  - cbn [Js.split_from]. destruct (Ascii.eqb c " ").
    + pose proof (split_from_nonempty "" r) as Hne.
      specialize (IH ""). destruct (Js.split_from "" r) as [|p ps]; [congruence|].
      change (String.concat " " (map Js.capitalize (acc :: p :: ps)))
        with (Js.capitalize acc +:+ String " " (String.concat " " (map Js.capitalize (p :: ps)))).
      rewrite length_append. cbn [String.length]. rewrite IH, capitalize_length.
      simpl. lia.
    + rewrite IH, length_append. simpl. lia.
Qed.

Lemma capitalize_words_length (s : string) :
  String.length (Js.capitalize_words s) = String.length s.
Proof. apply (capitalize_words_from_length s ""). Qed.

Lemma extractName_length (t n : string) :
  extractName t = Some n -> (2 < String.length n)%nat.
Proof.
  unfold extractName. intros H.
  apply or_else_Some in H. destruct H as [H | H]; [|apply or_else_Some in H; destruct H as [H | H]].
  - destruct (capture1 re_name_confirmation t) as [c|]; [|discriminate]. cbv zeta in H.
    destruct (2 <? String.length (Js.trim c))%nat eqn:E; [|discriminate].
    inversion H; subst. rewrite capitalize_length. now apply Nat.ltb_lt.
  - apply first_some_In in H. destruct H as [pattern [_ H]].
    destruct (capture1 pattern t) as [c|]; [|discriminate]. cbv zeta in H.
    destruct ((2 <? String.length (Js.trim c))%nat
              && negb (Js.mem_string (Js.toLowerCase (Js.trim c)) name_stopwords)) eqn:E;
      [|discriminate].
    apply andb_prop in E. destruct E as [E _].
    inversion H; subst. rewrite capitalize_words_length. now apply Nat.ltb_lt.
  - destruct (capture1 re_name_fallback t) as [c|]; [|discriminate]. cbv zeta in H.
    destruct (2 <? String.length (Js.trim c))%nat eqn:E; [|discriminate].
    inversion H; subst. rewrite capitalize_words_length. now apply Nat.ltb_lt.
Qed.

Lemma extractAddress_length (t a : string) :
  extractAddress t = Some a -> (5 < String.length a)%nat.
Proof.
  unfold extractAddress. intros H.
  apply or_else_Some in H. destruct H as [H | H]; [|apply or_else_Some in H; destruct H as [H | H]].
  - apply first_some_In in H. destruct H as [pattern [_ H]].
    destruct (capture1 pattern t) as [c|]; [|discriminate]. cbv zeta in H.
    destruct ((5 <? String.length (Js.trim c))%nat
              && negb (Js.mem_string (Js.toLowerCase (Js.trim c)) address_stopwords)) eqn:E;
      [|discriminate].
    apply andb_prop in E. destruct E as [E _].
    inversion H; subst. rewrite capitalize_length. now apply Nat.ltb_lt.
  - destruct (capture1 (re_clause ["address"]) t) as [c|]; [|discriminate]. cbv zeta in H.
    destruct (5 <? String.length (Js.trim c))%nat eqn:E; [|discriminate].
    inversion H; subst. rewrite capitalize_length. now apply Nat.ltb_lt.
  - destruct (capture1 (re_clause street_words) t) as [c|]; [|discriminate]. cbv zeta in H.
    destruct (5 <? String.length (Js.trim c))%nat eqn:E; [|discriminate].
    inversion H; subst. rewrite capitalize_length. now apply Nat.ltb_lt.
Qed.

Lemma reason_from_services_length (t r : string) :
  reason_from_services t = Some r -> (3 < String.length r)%nat.
Proof.
  unfold reason_from_services. intros H.
  apply first_some_In in H. destruct H as [service [_ H]].
  destruct (Js.includes t service); [|discriminate].
  destruct (Js.includes t "maintenance" || Js.includes t "routine");
    [inversion H; subst; rewrite length_append; simpl; lia|].
  destruct (Js.includes t "repair" || Js.includes t "fix");
    [inversion H; subst; rewrite length_append; simpl; lia|].
  destruct (Js.includes t "installation" || Js.includes t "install");
    [inversion H; subst; rewrite length_append; simpl; lia|].
  inversion H; subst; rewrite length_append; simpl; lia.
Qed.

Lemma extractReason_length (t r : string) :
  extractReason t = Some r -> (3 < String.length r)%nat.
Proof.
  unfold extractReason, extractReason_with. intros H.
  destruct (emergency_reason t) as [phrase|] eqn:Ee.
  - inversion H; subst. unfold emergency_reason in Ee.
    repeat match type of Ee with
           | (if ?b then _ else _) = _ => destruct b
           end;
      inversion Ee; subst; simpl; lia.
  - unfold later_reason_strategies in H.
    apply or_else_Some in H. destruct H as [H | H];
      [|apply or_else_Some in H; destruct H as [H | H]].
    + unfold reason_from_patterns in H.
      apply first_some_In in H. destruct H as [pattern [_ H]].
      destruct (capture1 pattern t) as [c|]; [|discriminate]. cbv zeta in H.
      destruct (3 <? String.length (Js.trim c))%nat eqn:E; [|discriminate].
      inversion H; subst. rewrite capitalize_length. now apply Nat.ltb_lt.
    + now apply (reason_from_services_length t).
    + unfold reason_from_confirmation in H.
      destruct (capture1 (re_clause ["reason"; "need"]) t) as [c|]; [|discriminate].
      cbv zeta in H.
      destruct (3 <? String.length (Js.trim c))%nat eqn:E; [|discriminate].
      inversion H; subst. rewrite capitalize_length. now apply Nat.ltb_lt.
Qed.

(** X6: the extractors never return a short value: a name has more than 2
    characters, an address more than 5 and a reason more than 3; so no
    field of an extraction is ever an empty string. *)
Theorem extractors_minimum_length (t : string) :
  (forall n, extractName t = Some n -> (2 < String.length n)%nat)
  /\ (forall a, extractAddress t = Some a -> (5 < String.length a)%nat)
  /\ (forall r, extractReason t = Some r -> (3 < String.length r)%nat).
Proof.
  split; [|split]; intros x H.
  - now apply (extractName_length t).
  - now apply (extractAddress_length t).
  - now apply (extractReason_length t).
Qed.

Lemma extractors_minimum_length_witness :
  (2 < String.length "Sarah Jones")%nat.
Proof.
  apply (proj1 (extractors_minimum_length
                  "my name is sarah jones and i need help with a clogged drain")).
  vm_compute. reflexivity.
Defined.

(** ** The summary builder at its call site *)

Lemma blanks_are_spaces_spec (s : string) :
  blanks_are_spaces s = true
  <-> (forall c, In c (list_ascii_of_string s) -> Js.is_space c = true -> c = " "%char).
Proof.
  unfold blanks_are_spaces. rewrite List.forallb_forall. split.
  - intros H c Hc Hs. specialize (H c Hc). rewrite Hs in H. simpl in H.
    now apply Ascii.eqb_eq.
  - intros H c Hc. destruct (Js.is_space c) eqn:Hs; [|reflexivity].
    simpl. apply Ascii.eqb_eq. auto.
Qed.

Lemma blanks_are_spaces_incl (s t : string) :
  incl (list_ascii_of_string s) (list_ascii_of_string t) ->
  blanks_are_spaces t = true -> blanks_are_spaces s = true.
Proof.
  unfold blanks_are_spaces. rewrite !List.forallb_forall. intros Hi H c Hc.
  apply H, Hi, Hc.
Qed.

(** What a match leaves over and what its group captures is made of code
    units of the text. *)
Lemma lit_match_chars (p s rest : string) :
  lit_match p s = Some rest ->
  incl (list_ascii_of_string rest) (list_ascii_of_string s).
Proof.
  revert s. induction p as [|a p IH]; intros s; simpl.
  - intros H. inversion H; subst. apply incl_refl.
  - destruct s as [|b s']; [discriminate|].
    destruct (Ascii.eqb _ _); [|discriminate]. intros H. simpl.
    apply incl_tl. now apply IH.
Qed.

Lemma rep_suffixes_chars (p : ascii -> bool) (s rest : string) :
  In rest (rep_suffixes p s) ->
  incl (list_ascii_of_string rest) (list_ascii_of_string s).
Proof.
  induction s as [|a s IH]; simpl.
  - intros [<-|[]]. apply incl_refl.
  - intros [<-|H]; [apply incl_refl|].
    destruct (p a); [|destruct H]. apply incl_tl, IH, H.
Qed.

Lemma In_skipn_list {A : Type} (n : nat) (l : list A) (x : A) :
  In x (skipn n l) -> In x l.
Proof.
  revert l. induction n as [|n IH]; intros l; simpl; [auto|].
  destruct l as [|a l]; [auto|]. intros H. right. now apply IH.
Qed.

Lemma substring_chars (n : nat) (s : string) :
  incl (list_ascii_of_string (String.substring 0 n s)) (list_ascii_of_string s).
Proof.
  revert n. induction s as [|a s IH]; intros [|n]; simpl.
  - apply incl_refl.
  - apply incl_refl.
  - intros c H. destruct H.
  - intros c [H|H]; [left; exact H | right; apply (IH n), H].
Qed.

Lemma run_chars (r : re) (s0 : string) (c : option string) (rest : string) :
  In (c, rest) (run r s0) ->
  incl (list_ascii_of_string rest) (list_ascii_of_string s0)
  /\ (forall x, c = Some x ->
        incl (list_ascii_of_string x) (list_ascii_of_string s0)).
Proof.
  revert s0 c rest. induction r as [|p|p|p least greedy|r1 IH1 r2 IH2|r1 IH1 r2 IH2|r IH|];
    intros s0 c rest; cbn [run].
  - intros [H|[]]. inversion H; subst. split; [apply incl_refl | discriminate].
  - destruct (lit_match p s0) as [rest'|] eqn:E; [|intros []].
    intros [H|[]]. inversion H; subst.
    split; [eapply lit_match_chars; eauto | discriminate].
  - destruct s0 as [|a s']; [intros []|]. destruct (p a); [|intros []].
    intros [H|[]]. inversion H; subst.
    split; [simpl; apply incl_tl, incl_refl | discriminate].
  - cbv zeta. rewrite in_map_iff. intros [x [Hx Hin]]. inversion Hx; subst.
    split; [|discriminate]. apply (rep_suffixes_chars p).
    destruct greedy; [apply in_rev in Hin|]; eapply In_skipn_list; exact Hin.
  - rewrite in_flat_map. intros [[c1 rest1] [H1 H2]].
    rewrite in_map_iff in H2. destruct H2 as [[c2 rest2] [E H2]].
    inversion E; subst.
    apply IH1 in H1. apply IH2 in H2. destruct H1 as [R1 G1], H2 as [R2 G2].
    split; [eapply incl_tran; eauto|].
    intros x Hx. destruct c2 as [y|]; simpl in Hx.
    + inversion Hx; subst. eapply incl_tran; [apply G2; reflexivity | exact R1].
    + apply G1, Hx.
  - rewrite in_app_iff. intros [H|H]; [apply IH1, H | apply IH2, H].
  - rewrite in_map_iff. intros [[c' rest'] [E H]]. inversion E; subst.
    apply IH in H. split; [exact (proj1 H)|].
    intros x Hx. inversion Hx; subst. apply substring_chars.
  - destruct s0; [|intros []]. intros [H|[]]. inversion H; subst.
    split; [apply incl_refl | discriminate].
Qed.

Lemma search_chars (r : re) (s x : string) :
  search r s = Some (Some x) ->
  incl (list_ascii_of_string x) (list_ascii_of_string s).
Proof.
  induction s as [|a s IH]; cbn [search].
  - destruct (run r "") as [|[c rest] l] eqn:E; [discriminate|].
    intros H. inversion H; subst.
    apply (run_chars r "" (Some x) rest); [rewrite E; left; reflexivity | reflexivity].
  - destruct (run r (String a s)) as [|[c rest] l] eqn:E.
    + intros H. simpl. apply incl_tl, IH, H.
    + intros H. inversion H; subst.
      apply (run_chars r (String a s) (Some x) rest);
        [rewrite E; left; reflexivity | reflexivity].
Qed.

Lemma capture1_chars (r : re) (s c : string) :
  capture1 r s = Some c ->
  incl (list_ascii_of_string c) (list_ascii_of_string s).
Proof.
  unfold capture1. destruct (search r s) as [[x|]|] eqn:E; try discriminate.
  destruct (Js.is_empty x); [discriminate|]. intros H. inversion H; subst.
  eapply search_chars; eauto.
Qed.

Lemma drop_while_chars (p : ascii -> bool) (s : string) :
  incl (list_ascii_of_string (Js.drop_while p s)) (list_ascii_of_string s).
Proof.
  induction s as [|a s IH]; simpl; [apply incl_refl|].
  destruct (p a); [apply incl_tl, IH | apply incl_refl].
Qed.

Lemma srev_onto_chars (s acc : string) (c : ascii) :
  In c (list_ascii_of_string (Js.srev_onto acc s))
  <-> In c (list_ascii_of_string acc) \/ In c (list_ascii_of_string s).
Proof.
  revert acc. induction s as [|a s IH]; intros acc; simpl; [tauto|].
  rewrite IH. simpl. tauto.
Qed.

Lemma srev_chars (s : string) :
  incl (list_ascii_of_string (Js.srev s)) (list_ascii_of_string s).
Proof.
  intros c H. unfold Js.srev in H. apply srev_onto_chars in H. simpl in H. tauto.
Qed.

Lemma trim_chars (s : string) :
  incl (list_ascii_of_string (Js.trim s)) (list_ascii_of_string s).
Proof.
  unfold Js.trim.
  eapply incl_tran; [apply srev_chars|].
  eapply incl_tran; [apply drop_while_chars|].
  eapply incl_tran; [apply srev_chars|]. apply drop_while_chars.
Qed.

Lemma upper_char_blank (c : ascii) :
  Js.is_space (Js.upper_char c) = true -> Js.upper_char c = c.
Proof.
  destruct c as [[] [] [] [] [] [] [] []]; vm_compute; intros H;
    first [reflexivity | discriminate H].
Qed.

Lemma capitalize_blanks (s : string) :
  blanks_are_spaces s = true -> blanks_are_spaces (Js.capitalize s) = true.
Proof.
  destruct s as [|a s]; [auto|]. unfold blanks_are_spaces. simpl.
  intros H. apply andb_true_iff in H. destruct H as [H1 H2].
  apply andb_true_iff. split; [|exact H2].
  destruct (Js.is_space (Js.upper_char a)) eqn:E; [|reflexivity].
  pose proof (upper_char_blank _ E) as Hu. rewrite Hu in E |- *.
  rewrite E in H1. exact H1.
Qed.

(** A reason cut out of the transcript by a pattern. *)
Lemma captured_reason_blanks (pattern : re) (t c : string) :
  blanks_are_spaces t = true ->
  capture1 pattern t = Some c ->
  blanks_are_spaces (Js.capitalize (Js.trim c)) = true.
Proof.
  intros Ht Hc. apply capitalize_blanks.
  apply (blanks_are_spaces_incl _ t); [|exact Ht].
  eapply incl_tran; [apply trim_chars | eapply capture1_chars; eauto].
Qed.

Lemma emergency_reason_blanks (t phrase : string) :
  emergency_reason t = Some phrase -> blanks_are_spaces phrase = true.
Proof.
  unfold emergency_reason. intros Ee.
  repeat match type of Ee with
         | (if ?b then _ else _) = _ => destruct b
         end;
    inversion Ee; subst; reflexivity.
Qed.

Lemma reason_from_services_blanks (t r : string) :
  reason_from_services t = Some r -> blanks_are_spaces r = true.
Proof.
  unfold reason_from_services. intros H.
  apply first_some_In in H. destruct H as [service [Hin H]].
  destruct (Js.includes t service); [|discriminate].
  unfold businessServices in Hin. simpl in Hin.
  repeat (destruct Hin as [<-|Hin]); [..|destruct Hin];
    repeat match type of H with
           | (if ?b then _ else _) = _ => destruct b
           end;
    inversion H; subst; reflexivity.
Qed.

(** Every reason that [extractReason] finds in a text whose only blank is
    the space has itself no other blank. *)
Lemma extractReason_blanks (t r : string) :
  blanks_are_spaces t = true ->
  extractReason t = Some r -> blanks_are_spaces r = true.
Proof.
  intros Ht. unfold extractReason, extractReason_with. intros H.
  destruct (emergency_reason t) as [phrase|] eqn:Ee.
  - inversion H; subst. eapply emergency_reason_blanks; eauto.
  - unfold later_reason_strategies in H.
    apply or_else_Some in H. destruct H as [H | H];
      [|apply or_else_Some in H; destruct H as [H | H]].
    + unfold reason_from_patterns in H.
      apply first_some_In in H. destruct H as [pattern [_ H]].
      destruct (capture1 pattern t) as [c|] eqn:Ec; [|discriminate]. cbv zeta in H.
      destruct (3 <? String.length (Js.trim c))%nat; [|discriminate].
      inversion H; subst. eapply captured_reason_blanks; eauto.
    + now apply (reason_from_services_blanks t).
    + unfold reason_from_confirmation in H.
      destruct (capture1 (re_clause ["reason"; "need"]) t) as [c|] eqn:Ec;
        [|discriminate].
      cbv zeta in H.
      destruct (3 <? String.length (Js.trim c))%nat; [|discriminate].
      inversion H; subst. eapply captured_reason_blanks; eauto.
Qed.

Lemma cleanTranscript_blanks (t : string) :
  blanks_are_spaces (cleanTranscript t) = true.
Proof.
  apply blanks_are_spaces_spec. intros c Hc.
  eapply collapse_from_blanks; exact Hc.
Qed.

(** C8: [createCallSummary] maps a missing reason to "Customer inquiry".
    It is called at one place only, on the reason that [extractReason]
    finds in the cleaned transcript; such a reason is never empty and has no
    blank other than the space.  On every such reason the words between
    whitespace are the words the function counts: a reason of at most ten
    words comes back unchanged, and a longer one gives its first ten words
    joined by single spaces, followed by "...". *)
Theorem C8_createCallSummary :
  createCallSummary None = "Customer inquiry"
  /\ (forall t r : string,
         extractReason (cleanTranscript t) = Some r ->
         r <> "" /\ blanks_are_spaces r = true)
  /\ (forall r : string,
         r <> "" -> blanks_are_spaces r = true ->
         ((List.length (whitespace_words r) <= 10)%nat ->
          createCallSummary (Some r) = r)
         /\ ((10 < List.length (whitespace_words r))%nat ->
             createCallSummary (Some r)
             = Js.join_space (firstn 10 (whitespace_words r)) +:+ "...")).
Proof.
  split; [reflexivity|]. split.
  - intros t r H. split.
    + apply extractReason_length in H. destruct r; [simpl in H; lia | discriminate].
    + eapply extractReason_blanks; [apply cleanTranscript_blanks | exact H].
  - intros r Hne Hb.
    rewrite (whitespace_words_spaces r) by (apply blanks_are_spaces_spec, Hb).
    destruct createCallSummary_by_space_words as (_ & _ & Hshort & Hlong).
    split; [apply Hshort, Hne | apply Hlong].
Qed.

Lemma C8_createCallSummary_witness :
  createCallSummary (Some "clogged kitchen drain") = "clogged kitchen drain"
  /\ createCallSummary (Some fifteen_words) = "a b c d e f g h i j..."
  /\ blanks_are_spaces "Help" = true.
Proof.
  split; [|split].
  - apply (proj1 (proj2 (proj2 C8_createCallSummary) "clogged kitchen drain"
                    ltac:(discriminate) eq_refl)).
    vm_compute; lia.
  - apply (proj2 (proj2 (proj2 C8_createCallSummary) fifteen_words
                    ltac:(discriminate) eq_refl)).
    vm_compute; lia.
  - apply (proj1 (proj2 C8_createCallSummary)
             "Hello, I need help with a plumbing issue." "Help").
    vm_compute; reflexivity.
Defined.

Lemma first_some_exists {A B : Type} (f : A -> option B) (l : list A) (x : A) (y : B) :
  In x l -> f x = Some y -> exists y', first_some f l = Some y'.
Proof.
  induction l as [|a l IH]; simpl; [tauto|].
  intros [Hx | Hx] Hy.
  - subst a. rewrite Hy. eauto.
  - destruct (f a) as [z|]; [eauto | now apply IH].
Qed.

(** X7: when the transcript names one of the listed business services,
    [extractReason] always finds a reason. *)
Theorem service_mention_gives_reason (t service : string) :
  In service businessServices ->
  Js.includes t service = true ->
  exists r, extractReason t = Some r.
Proof.
  intros Hin Hinc. unfold extractReason, extractReason_with.
  destruct (emergency_reason t) as [phrase|]; [eauto|].
  unfold later_reason_strategies.
  destruct (reason_from_patterns t) as [r|]; [simpl; eauto|].
  cbn [or_else].
  assert (Hs : exists r, reason_from_services t = Some r).
  { unfold reason_from_services.
    match goal with
    | |- exists r, first_some ?f _ = Some r =>
        assert (Hf : exists y, f service = Some y)
    end.
    { cbv beta. rewrite Hinc.
      destruct (Js.includes t "maintenance" || Js.includes t "routine"); [eauto|].
      destruct (Js.includes t "repair" || Js.includes t "fix"); [eauto|].
      destruct (Js.includes t "installation" || Js.includes t "install"); eauto. }
    destruct Hf as [y Hy]. eapply first_some_exists; eauto. }
  destruct Hs as [r Hr]. rewrite Hr. simpl. eauto.
Qed.

Lemma service_mention_gives_reason_witness :
  exists r, extractReason "my hvac unit is making a noise" = Some r.
Proof.
  apply (service_mention_gives_reason "my hvac unit is making a noise" "hvac").
  - simpl. auto.
  - reflexivity.
Defined.

(** ** The confidence score *)

(** X8: the confidence score is a quarter of the number of truthy fields
    among name, callback_number, address and reason; it lies between 0 and
    1 and does not depend on the transcript or on call_summary; with only
    name and reason present it is one half. *)
Theorem calculateConfidence_counts_fields (e : ExtractedInfo) (transcript : string) :
  (calculateConfidence e transcript == inject_Z (Z.of_nat (present_fields e)) * (1 # 4))%Q
  /\ (0 <= calculateConfidence e transcript <= 1)%Q
  /\ (forall summary transcript',
         calculateConfidence
           {| name := name e; callback_number := callback_number e;
              address := address e; reason := reason e; call_summary := summary |}
           transcript'
         = calculateConfidence e transcript)
  /\ (truthy (name e) = true -> truthy (reason e) = true ->
      truthy (callback_number e) = false -> truthy (address e) = false ->
      (calculateConfidence e transcript == 1 # 2)%Q).
Proof.
  split; [|split; [|split; [intros; reflexivity|]]];
    unfold calculateConfidence, present_fields; cbv zeta;
    destruct (truthy (name e)), (truthy (callback_number e)),
      (truthy (address e)), (truthy (reason e));
    first [ vm_compute; reflexivity
          | split; vm_compute; discriminate
          | intros; try discriminate; vm_compute; reflexivity ].
Qed.

Lemma calculateConfidence_counts_fields_witness :
  (calculateConfidence
     (extractCallInformation
        (JsString "My name is Sarah Jones and I need help with a clogged drain"))
     "My name is Sarah Jones and I need help with a clogged drain" == 1 # 2)%Q.
Proof.
  apply (proj2 (proj2 (proj2 (calculateConfidence_counts_fields _ _))));
    vm_compute; reflexivity.
Defined.

(* ===================================================================== *)
(** * Further properties of the controller                                *)
(* ===================================================================== *)

(** ** Business lookup *)

(** X9: the lookup goes by the canonical number only: two spellings of
    the same digits resolve alike, a missing or empty number resolves to
    nothing, and a business whose stored phone_number is not in canonical
    format is never found. *)
Theorem lookup_by_canonical_number (env : Env) (st : Store) :
  (forall s1 s2,
      s1 <> "" -> s2 <> "" ->
      Js.strip_non_digits s1 = Js.strip_non_digits s2 ->
      findBusinessByPhoneNumber env (Some s1) st
      = findBusinessByPhoneNumber env (Some s2) st)
  /\ findBusinessByPhoneNumber env None st = (Returned None, st)
  /\ findBusinessByPhoneNumber env (Some "") st = (Returned None, st)
  /\ (forall phone b,
         findBusinessByPhoneNumber env phone st = (Returned (Some b), st) ->
         formatPhoneNumber (Business.phone_number b) = Business.phone_number b).
Proof.
  split; [|split; [|split]].
  - intros s1 s2 H1 H2 Hd. rewrite !findBusinessByPhoneNumber_resolve.
    unfold resolve.
    rewrite (normalizePhoneNumber_nonempty s1 H1), (normalizePhoneNumber_nonempty s2 H2).
    rewrite !formatPhoneNumber_canonical. unfold canonical_phone. now rewrite Hd.
  - rewrite findBusinessByPhoneNumber_resolve. unfold resolve. simpl.
    now destruct (business_select_fault env).
  - rewrite findBusinessByPhoneNumber_resolve. unfold resolve. simpl.
    now destruct (business_select_fault env).
  - intros phone b H.
    destruct (findBusinessByPhoneNumber_spec env phone st) as [found [Hrun [Hsome _]]].
    rewrite Hrun in H. inversion H; subst found.
    destruct (Hsome b eq_refl) as (_ & _ & Hm). unfold matches_phone in Hm.
    destruct phone as [s|]; [|discriminate].
    destruct s as [|c r]; [discriminate|].
    rewrite normalizePhoneNumber_nonempty in Hm by discriminate.
    injection Hm as Hp. rewrite <- Hp.
    rewrite !formatPhoneNumber_canonical. apply canonical_phone_idem.
Qed.

Lemma lookup_by_canonical_number_witness :
  findBusinessByPhoneNumber sample_env (Some "555.987.6543") sample_store
  = findBusinessByPhoneNumber sample_env (Some "(555) 987-6543") sample_store
  /\ formatPhoneNumber (Business.phone_number sample_business)
     = Business.phone_number sample_business.
Proof.
  split.
  - apply (proj1 (lookup_by_canonical_number sample_env sample_store));
      [discriminate | discriminate | reflexivity].
  - apply (proj2 (proj2 (proj2 (lookup_by_canonical_number sample_env sample_store)))
             (Some "555.987.6543")).
    vm_compute. reflexivity.
Defined.

(** ** What a delivery can touch *)

Lemma touches_only_refl (id : string) (key : string * string) (st : Store) :
  touches_only id key st st.
Proof. repeat split. Qed.

Lemma touches_only_trans (id : string) (key : string * string) (st1 st2 st3 : Store) :
  touches_only id key st1 st2 -> touches_only id key st2 st3 ->
  touches_only id key st1 st3.
Proof.
  intros (B1 & C1 & A1) (B2 & C2 & A2). split; [congruence|]. split.
  - intros k Hk. rewrite C2, C1; auto.
  - intros k Hk. rewrite A2, A1; auto.
Qed.

Lemma touches_only_call (id : string) (key : string * string) (st : Store)
    (c : Call.columns) :
  touches_only id key st (set_calls st (<[id := c]> (calls st))).
Proof.
  split; [reflexivity|]. split; [|reflexivity].
  intros k Hk. simpl. now rewrite lookup_insert_ne by congruence.
Qed.

Lemma counted_touches_only (id : string) (key : string * string)
    (eventType : option string) (st st' : Store) :
  calls st' = calls st -> businesses st' = businesses st ->
  counted_at_most_once key eventType st st' ->
  touches_only id key st st'.
Proof.
  intros Hc Hb Ha. split; [exact Hb|]. split.
  - intros k _. now rewrite Hc.
  - intros k Hk. destruct Ha as [Ha|Ha]; rewrite Ha; [reflexivity|].
    now rewrite lookup_insert_ne by congruence.
Qed.

Lemma updateCallAnalytics_cases (env : Env) (businessId : string)
    (callCompleted : bool) (eventType : option string) (st : Store) :
  exists st',
    updateCallAnalytics env businessId callCompleted eventType st = (Returned tt, st')
    /\ calls st' = calls st
    /\ businesses st' = businesses st
    /\ counted_at_most_once (businessId, today env) eventType st st'.
Proof.
  unfold updateCallAnalytics, select_analytics, update_analytics, insert_analytics,
    counted_at_most_once.
  cbv zeta. unfold_monad.
  destruct (analytics_select_fault env) as [|e|e];
    destruct (analytics_write_fault env) as [|e'|e'];
    destruct (call_analytics st !! (businessId, today env)) as [r|] eqn:L;
    cbn -[strictly_equals]; rewrite ?L; cbn -[strictly_equals];
    eexists; (split; [reflexivity|]); (split; [reflexivity|]);
    (split; [reflexivity|]); first [left; reflexivity | right; reflexivity].
Qed.

Lemma createOrUpdateCall_touches (env : Env) (webhookData : Webhook.data)
    (businessId : string) (extractedInfo : option ExtractedInfo)
    (callStatus : option string) (key : string * string) (st : Store) :
  touches_only (Webhook.call_id webhookData) key st
    (snd (createOrUpdateCall env webhookData businessId extractedInfo callStatus st)).
Proof.
  destruct (createOrUpdateCall_cases env webhookData businessId extractedInfo
              callStatus st) as [[e He] | Hok].
  - rewrite He. apply touches_only_refl.
  - cbv zeta in Hok. rewrite Hok. apply touches_only_call.
Qed.

Lemma after_notification_write_touches (env : Env) (callId : string) (sent : bool)
    (key : string * string) (st : Store) :
  touches_only callId key st (after_notification_write env callId sent st).
Proof.
  unfold after_notification_write.
  destruct (notification_write_fault env); try apply touches_only_refl.
  destruct (calls st !! callId); [apply touches_only_call | apply touches_only_refl].
Qed.

Lemma effect_within_calls_only (id : string) (key : string * string)
    (eventType : option string) (st st' : Store) :
  touches_only id key st st' -> call_analytics st' = call_analytics st ->
  effect_within id key eventType st st'.
Proof. intros H Ha. split; [exact H | left; exact Ha]. Qed.

Lemma effect_within_then_count (id : string) (key : string * string)
    (eventType : option string) (st st1 st2 : Store) :
  touches_only id key st st1 -> call_analytics st1 = call_analytics st ->
  calls st2 = calls st1 -> businesses st2 = businesses st1 ->
  counted_at_most_once key eventType st1 st2 ->
  effect_within id key eventType st st2.
Proof.
  intros H1 Ha Hc Hb Hcount. split.
  - eapply touches_only_trans; [exact H1|].
    eapply counted_touches_only; eassumption.
  - unfold counted_at_most_once in *. rewrite <- Ha. exact Hcount.
Qed.

Lemma createOrUpdateCall_analytics (env : Env) (webhookData : Webhook.data)
    (businessId : string) (extractedInfo : option ExtractedInfo)
    (callStatus : option string) (st : Store) :
  call_analytics
    (snd (createOrUpdateCall env webhookData businessId extractedInfo callStatus st))
  = call_analytics st.
Proof. apply createOrUpdateCall_frame. Qed.

Lemma handleCallStarted_effect (env : Env) (webhookData : Webhook.data)
    (b : Business.row) (st : Store) :
  effect_within (Webhook.call_id webhookData) (Business.id b, today env)
    (Some "started") st (snd (handleCallStarted env webhookData b st)).
Proof.
  pose proof (createOrUpdateCall_touches env webhookData (Business.id b) None
                (Some "in-progress") (Business.id b, today env) st) as T.
  pose proof (createOrUpdateCall_analytics env webhookData (Business.id b) None
                (Some "in-progress") st) as A.
  unfold handleCallStarted. unfold_monad.
  destruct (createOrUpdateCall env webhookData (Business.id b) None
              (Some "in-progress") st) as [[r|e] st1]; cbn [snd] in *.
  - destruct (updateCallAnalytics_cases env (Business.id b) false (Some "started") st1)
      as (st2 & H & Hc & Hb & Hcount).
    rewrite H. cbn [snd]. eapply effect_within_then_count; eassumption.
  - now apply effect_within_calls_only.
Qed.

Lemma updateCallStatus_touches (env : Env) (callId status : string)
    (key : string * string) (st : Store) :
  touches_only callId key st (snd (updateCallStatus env callId status st))
  /\ call_analytics (snd (updateCallStatus env callId status st)) = call_analytics st.
Proof.
  destruct (updateCallStatus_cases env callId status st) as [[e He] | [c [_ Hok]]].
  - rewrite He. split; [apply touches_only_refl | reflexivity].
  - rewrite Hok. split; [apply touches_only_call | reflexivity].
Qed.

Lemma handleCallEnded_effect (env : Env) (webhookData : Webhook.data)
    (b : Business.row) (st : Store) :
  effect_within (Webhook.call_id webhookData) (Business.id b, today env)
    (Some "completed") st (snd (handleCallEnded env webhookData b st)).
Proof.
  pose proof (updateCallStatus_touches env (Webhook.call_id webhookData) "completed"
                (Business.id b, today env) st) as [T A].
  unfold handleCallEnded. unfold_monad.
  destruct (updateCallStatus env (Webhook.call_id webhookData) "completed" st)
    as [[r|e] st1]; cbn [snd] in *.
  - destruct (updateCallAnalytics_cases env (Business.id b) true (Some "completed") st1)
      as (st2 & H & Hc & Hb & Hcount).
    rewrite H. cbn [snd]. eapply effect_within_then_count; eassumption.
  - now apply effect_within_calls_only.
Qed.

(** The row a successful upsert returns carries the call id of the payload. *)
Lemma createOrUpdateCall_id (env : Env) (webhookData : Webhook.data)
    (businessId : string) (extractedInfo : option ExtractedInfo)
    (callStatus : option string) (st st1 : Store) (r : Call.row) :
  createOrUpdateCall env webhookData businessId extractedInfo callStatus st
  = (Returned r, st1) ->
  Call.id r = Webhook.call_id webhookData.
Proof.
  intros H.
  destruct (createOrUpdateCall_cases env webhookData businessId extractedInfo
              callStatus st) as [[e He] | Hok].
  - rewrite He in H. discriminate.
  - cbv zeta in Hok. rewrite Hok in H. inversion H. reflexivity.
Qed.

Lemma handleCallAnalyzed_effect (env : Env) (webhookData : Webhook.data)
    (b : Business.row) (eventType : option string) (st : Store) :
  effect_within (Webhook.call_id webhookData) (Business.id b, today env)
    eventType st (snd (handleCallAnalyzed env webhookData b st)).
Proof.
  apply effect_within_calls_only;
    [|apply (handleCallAnalyzed_frame env webhookData b st)].
  pose proof (createOrUpdateCall_touches env webhookData (Business.id b)
                (analyzedInfo webhookData) (Some "completed")
                (Business.id b, today env) st) as T.
  unfold handleCallAnalyzed, sendAllNotifications. cbv zeta. unfold_monad.
  destruct (createOrUpdateCall env webhookData (Business.id b)
              (analyzedInfo webhookData) (Some "completed") st) as [[r|e] st1] eqn:U;
    cbn [snd] in *; [|exact T].
  destruct (has_summary (analyzedInfo webhookData)); [|exact T].
  rewrite updateCallNotificationStatus_spec. cbn [snd].
  rewrite (createOrUpdateCall_id _ _ _ _ _ _ _ _ U).
  eapply touches_only_trans; [exact T | apply after_notification_write_touches].
Qed.

Lemma handleLegacyWebhook_effect (env : Env) (webhookData : Webhook.data)
    (b : Business.row) (st : Store) :
  effect_within (Webhook.call_id webhookData) (Business.id b, today env)
    None st (snd (handleLegacyWebhook env webhookData b st)).
Proof.
  pose proof (createOrUpdateCall_touches env webhookData (Business.id b)
                (legacyInfo webhookData) (Webhook.call_status webhookData)
                (Business.id b, today env) st) as T.
  pose proof (createOrUpdateCall_analytics env webhookData (Business.id b)
                (legacyInfo webhookData) (Webhook.call_status webhookData) st) as A.
  unfold handleLegacyWebhook, sendAllNotifications. cbv zeta. unfold_monad.
  destruct (createOrUpdateCall env webhookData (Business.id b)
              (legacyInfo webhookData) (Webhook.call_status webhookData) st)
    as [[r|e] st1] eqn:U; cbn [snd] in *;
    [|now apply effect_within_calls_only].
  destruct (strictly_equals (Webhook.call_status webhookData) "completed").
  - rewrite updateCallNotificationStatus_spec.
    rewrite (createOrUpdateCall_id _ _ _ _ _ _ _ _ U).
    pose proof (after_notification_write_touches env (Webhook.call_id webhookData)
                  (notification_success env) (Business.id b, today env) st1) as T'.
    pose proof (after_notification_write_frame env (Webhook.call_id webhookData)
                  (notification_success env) st1) as [A' _].
    match goal with
    | |- context [updateCallAnalytics env ?bid ?cc ?et ?s] =>
        destruct (updateCallAnalytics_cases env bid cc et s)
          as (st2 & H & Hc & Hb & Hcount)
    end.
    rewrite H. cbn [snd].
    eapply effect_within_then_count;
      [eapply touches_only_trans; [exact T | exact T'] | congruence | eassumption ..].
  - match goal with
    | |- context [updateCallAnalytics env ?bid ?cc ?et ?s] =>
        destruct (updateCallAnalytics_cases env bid cc et s)
          as (st2 & H & Hc & Hb & Hcount)
    end.
    rewrite H. cbn [snd]. eapply effect_within_then_count; eassumption.
Qed.

Lemma dispatch_effect (env : Env) (webhookData : Webhook.data)
    (b : Business.row) (st : Store) :
  effect_within (Webhook.call_id webhookData) (Business.id b, today env)
    (counted_as webhookData) st (snd (dispatch env webhookData b st)).
Proof.
  unfold dispatch, counted_as.
  destruct (strictly_equals (Webhook.event_type webhookData) "call_started");
    [apply handleCallStarted_effect|].
  destruct (strictly_equals (Webhook.event_type webhookData) "call_ended");
    [apply handleCallEnded_effect|].
  destruct (strictly_equals (Webhook.event_type webhookData) "call_analyzed");
    [apply handleCallAnalyzed_effect | apply handleLegacyWebhook_effect].
Qed.

Lemma handleRetellWebhook_resolve (env : Env) (webhookData : Webhook.data) (st : Store) :
  handleRetellWebhook env webhookData st
  = match resolve (business_select_fault env) (Webhook.to_number webhookData)
            (businesses st) with
    | Some b => dispatch env webhookData b st
    | None => (Thrown (business_not_found webhookData), st)
    end.
Proof.
  pose proof (findBusinessByPhoneNumber_resolve env (Webhook.to_number webhookData) st)
    as Hrun.
  destruct (resolve _ _ _) as [b|].
  - apply (handleRetellWebhook_resolved _ _ _ _ Hrun).
  - apply (handleRetellWebhook_unresolved _ _ _ Hrun).
Qed.

(** X10: a delivery, whatever its kind and whatever the store answers,
    never changes the business table, touches no call other than the one
    of its call_id and no analytics row other than the one of the resolved
    business for the day; when no business resolves it changes nothing. *)
Theorem delivery_touches_only_its_own_rows
    (env : Env) (webhookData : Webhook.data) (st : Store) :
  businesses (store_after env webhookData st) = businesses st
  /\ (forall k, k <> Webhook.call_id webhookData ->
        calls (store_after env webhookData st) !! k = calls st !! k)
  /\ match resolve (business_select_fault env) (Webhook.to_number webhookData)
             (businesses st) with
     | Some b =>
         forall key, key <> (Business.id b, today env) ->
           call_analytics (store_after env webhookData st) !! key
           = call_analytics st !! key
     | None => store_after env webhookData st = st
     end.
Proof.
  unfold store_after. rewrite handleRetellWebhook_resolve.
  destruct (resolve _ _ _) as [b|].
  - destruct (dispatch_effect env webhookData b st) as [(B & C & A) _]. auto.
  - cbn [snd]. auto.
Qed.

Lemma counted_bounds (eventType : option string) (old : option Analytics.row) :
  let before f := match old with Some r => f r | None => 0%Z end in
  (Analytics.total_calls (counted eventType old)
   = before Analytics.total_calls + 1)%Z
  /\ (before Analytics.successful_notifications
      <= Analytics.successful_notifications (counted eventType old)
      <= before Analytics.successful_notifications + 1)%Z
  /\ (before Analytics.failed_notifications
      <= Analytics.failed_notifications (counted eventType old)
      <= before Analytics.failed_notifications + 1)%Z.
Proof.
  cbv zeta. destruct old as [r|]; cbn -[strictly_equals];
    destruct (strictly_equals eventType "completed"); lia.
Qed.

(** X11: under every delivery, whatever the store answers, each counter of
    each analytics row stays or grows by one (a missing row counting as 0):
    the counters never decrease, and one delivery counts at most one call. *)
Theorem counters_never_decrease
    (env : Env) (webhookData : Webhook.data) (st : Store) (key : string * string) :
  let st' := store_after env webhookData st in
  (total_calls_of st key <= total_calls_of st' key <= total_calls_of st key + 1)%Z
  /\ (successful_of st key <= successful_of st' key <= successful_of st key + 1)%Z
  /\ (failed_of st key <= failed_of st' key <= failed_of st key + 1)%Z.
Proof.
  cbv zeta. unfold store_after. rewrite handleRetellWebhook_resolve.
  unfold total_calls_of, successful_of, failed_of.
  destruct (resolve _ _ _) as [b|]; [|cbn [snd]; lia].
  destruct (dispatch_effect env webhookData b st) as [_ [Ha|Ha]]; rewrite Ha; [lia|].
  destruct (decide (key = (Business.id b, today env))) as [->|Hne].
  - rewrite lookup_insert_eq.
    pose proof (counted_bounds (counted_as webhookData)
                  (call_analytics st !! (Business.id b, today env))) as Hb.
    cbv zeta in Hb.
    destruct (call_analytics st !! (Business.id b, today env)); lia.
  - rewrite lookup_insert_ne by congruence. lia.
Qed.

(** ** What a successful handler leaves and returns *)

Lemma notification_write_on_upserted (env : Env) (id : string) (sent : bool)
    (st : Store) (c : Call.columns) :
  calls (after_notification_write env id sent (set_calls st (<[id := c]> (calls st))))
  = <[id := if is_no_fault (notification_write_fault env)
            then Call.apply (notification_patch sent) c else c]> (calls st).
Proof.
  unfold after_notification_write. rewrite lookup_set_calls_insert.
  destruct (notification_write_fault env); cbn [is_no_fault]; [|reflexivity..].
  cbn [calls set_calls]. now rewrite insert_insert_eq.
Qed.

Lemma handleCallStarted_success (env : Env) (webhookData : Webhook.data)
    (b : Business.row) (st st' : Store) (res : Result.t) :
  handleCallStarted env webhookData b st = (Returned res, st') ->
  calls st' = <[Webhook.call_id webhookData :=
                  started_columns webhookData b
                    (found_columns env st (Webhook.call_id webhookData))]> (calls st)
  /\ Result.success res = true
  /\ Result.call_id res = Webhook.call_id webhookData
  /\ Result.business_id res = Business.id b.
Proof.
  unfold handleCallStarted. unfold_monad.
  destruct (createOrUpdateCall_cases env webhookData (Business.id b) None
              (Some "in-progress") st) as [[e He] | Hok].
  - rewrite He. discriminate.
  - cbv zeta in Hok. rewrite Hok.
    match goal with
    | |- context [updateCallAnalytics env ?bid ?cc ?et ?s] =>
        destruct (updateCallAnalytics_cases env bid cc et s) as (st2 & H & Hc & _)
    end.
    rewrite H. intros E. inversion E; subst. rewrite Hc. repeat split.
Qed.

Lemma handleCallEnded_success (env : Env) (webhookData : Webhook.data)
    (b : Business.row) (st st' : Store) (res : Result.t) :
  handleCallEnded env webhookData b st = (Returned res, st') ->
  exists c,
    calls st !! Webhook.call_id webhookData = Some c
    /\ calls st' = <[Webhook.call_id webhookData :=
                       Call.apply (status_patch "completed") c]> (calls st)
    /\ Result.success res = true
    /\ Result.call_id res = Webhook.call_id webhookData
    /\ Result.business_id res = Business.id b.
Proof.
  unfold handleCallEnded. unfold_monad.
  destruct (updateCallStatus_cases env (Webhook.call_id webhookData) "completed" st)
    as [[e He] | [c [Hc Hok]]].
  - rewrite He. discriminate.
  - rewrite Hok.
    match goal with
    | |- context [updateCallAnalytics env ?bid ?cc ?et ?s] =>
        destruct (updateCallAnalytics_cases env bid cc et s) as (st2 & H & Hcalls & _)
    end.
    rewrite H. intros E. inversion E; subst. exists c. rewrite Hcalls. repeat split.
    exact Hc.
Qed.

Lemma handleCallAnalyzed_success (env : Env) (webhookData : Webhook.data)
    (b : Business.row) (st st' : Store) (res : Result.t) :
  handleCallAnalyzed env webhookData b st = (Returned res, st') ->
  calls st' = <[Webhook.call_id webhookData :=
                  analyzed_columns env webhookData b
                    (found_columns env st (Webhook.call_id webhookData))]> (calls st)
  /\ Result.success res = true
  /\ Result.call_id res = Webhook.call_id webhookData
  /\ Result.business_id res = Business.id b
  /\ Result.extracted_info res = Some (analyzedInfo webhookData)
  /\ Result.notifications_sent res
     = Some (has_summary (analyzedInfo webhookData) && notification_success env).
Proof.
  unfold handleCallAnalyzed, sendAllNotifications, analyzed_columns, found_columns.
  cbv zeta. unfold_monad.
  destruct (createOrUpdateCall_cases env webhookData (Business.id b)
              (analyzedInfo webhookData) (Some "completed") st) as [[e He] | Hok].
  - rewrite He. discriminate.
  - cbv zeta in Hok. rewrite Hok. unfold upserted.
    destruct (has_summary (analyzedInfo webhookData)); cbn [andb].
    + rewrite updateCallNotificationStatus_spec. cbn [Call.id].
      intros E. inversion E; subst. rewrite notification_write_on_upserted.
      repeat split.
    + intros E. inversion E; subst. repeat split.
Qed.

Lemma handleLegacyWebhook_success (env : Env) (webhookData : Webhook.data)
    (b : Business.row) (st st' : Store) (res : Result.t) :
  handleLegacyWebhook env webhookData b st = (Returned res, st') ->
  calls st' = <[Webhook.call_id webhookData :=
                  legacy_columns env webhookData b
                    (found_columns env st (Webhook.call_id webhookData))]> (calls st)
  /\ Result.success res = true
  /\ Result.call_id res = Webhook.call_id webhookData
  /\ Result.business_id res = Business.id b
  /\ Result.extracted_info res = Some (legacyInfo webhookData)
  /\ Result.notifications_sent res
     = Some (strictly_equals (Webhook.call_status webhookData) "completed"
             && notification_success env).
Proof.
  unfold handleLegacyWebhook, sendAllNotifications, legacy_columns, found_columns.
  cbv zeta. unfold_monad.
  destruct (createOrUpdateCall_cases env webhookData (Business.id b)
              (legacyInfo webhookData) (Webhook.call_status webhookData) st)
    as [[e He] | Hok].
  - rewrite He. discriminate.
  - cbv zeta in Hok. rewrite Hok. unfold upserted.
    destruct (strictly_equals (Webhook.call_status webhookData) "completed");
      cbn [andb].
    + rewrite updateCallNotificationStatus_spec. cbn [Call.id].
      match goal with
      | |- context [updateCallAnalytics env ?bid ?cc ?et ?s] =>
          destruct (updateCallAnalytics_cases env bid cc et s) as (st2 & H & Hc & _)
      end.
      rewrite H. intros E. inversion E; subst.
      rewrite Hc, notification_write_on_upserted. repeat split.
    + match goal with
      | |- context [updateCallAnalytics env ?bid ?cc ?et ?s] =>
          destruct (updateCallAnalytics_cases env bid cc et s) as (st2 & H & Hc & _)
      end.
      rewrite H. intros E. inversion E; subst. rewrite Hc. repeat split.
Qed.

(** ** Successful deliveries *)

Lemma dispatch_success (env : Env) (webhookData : Webhook.data)
    (b : Business.row) (st st' : Store) (res : Result.t) :
  dispatch env webhookData b st = (Returned res, st') ->
  Result.success res = true
  /\ Result.call_id res = Webhook.call_id webhookData
  /\ Result.business_id res = Business.id b
  /\ exists c,
       calls st' !! Webhook.call_id webhookData = Some c
       /\ (strictly_equals (Webhook.event_type webhookData) "call_ended" = false ->
           Call.business_id c = Some (Business.id b)).
Proof.
  unfold dispatch.
  destruct (strictly_equals (Webhook.event_type webhookData) "call_started") eqn:E1.
  - intros H. apply handleCallStarted_success in H.
    destruct H as (Hc & H1 & H2 & H3). repeat (split; [assumption|]).
    eexists. split; [rewrite Hc; apply lookup_insert_eq | reflexivity].
  - destruct (strictly_equals (Webhook.event_type webhookData) "call_ended") eqn:E2.
    + intros H. apply handleCallEnded_success in H.
      destruct H as (c & _ & Hc & H1 & H2 & H3). repeat (split; [assumption|]).
      eexists. split; [rewrite Hc; apply lookup_insert_eq | discriminate].
    + destruct (strictly_equals (Webhook.event_type webhookData) "call_analyzed").
      * intros H. apply handleCallAnalyzed_success in H.
        destruct H as (Hc & H1 & H2 & H3 & _). repeat (split; [assumption|]).
        eexists. split; [rewrite Hc; apply lookup_insert_eq|].
        intros _. unfold analyzed_columns. cbv zeta.
        destruct (has_summary _ && is_no_fault _); reflexivity.
      * intros H. apply handleLegacyWebhook_success in H.
        destruct H as (Hc & H1 & H2 & H3 & _). repeat (split; [assumption|]).
        eexists. split; [rewrite Hc; apply lookup_insert_eq|].
        intros _. unfold legacy_columns. cbv zeta.
        destruct (strictly_equals _ _ && is_no_fault _); reflexivity.
Qed.

(** X12: a delivery that succeeds reports success with the call_id of the
    payload and the id of an active business registered under the dialled
    number, and leaves a call stored under that call_id; unless the event
    is call_ended, the stored business_id is that business, whatever it
    was before. *)
Theorem successful_delivery_leaves_record
    (env : Env) (webhookData : Webhook.data) (st : Store) (res : Result.t) :
  fst (handleRetellWebhook env webhookData st) = Returned res ->
  Result.success res = true
  /\ Result.call_id res = Webhook.call_id webhookData
  /\ (exists b,
         In b (businesses st)
         /\ Business.is_active b = true
         /\ matches_phone (normalizePhoneNumber (Webhook.to_number webhookData)) b
         /\ Result.business_id res = Business.id b)
  /\ (exists c,
         calls (store_after env webhookData st) !! Webhook.call_id webhookData = Some c
         /\ (strictly_equals (Webhook.event_type webhookData) "call_ended" = false ->
             Call.business_id c = Some (Result.business_id res))).
Proof.
  unfold store_after.
  destruct (findBusinessByPhoneNumber_spec env (Webhook.to_number webhookData) st)
    as [found [Hrun [Hsome _]]].
  destruct found as [b|];
    [|rewrite (handleRetellWebhook_unresolved _ _ _ Hrun); discriminate].
  rewrite (handleRetellWebhook_resolved _ _ _ _ Hrun).
  destruct (dispatch env webhookData b st) as [o st'] eqn:D. cbn [fst snd].
  intros ->. apply dispatch_success in D.
  destruct D as (H1 & H2 & H3 & c & Hc & Hb).
  destruct (Hsome b eq_refl) as (Hin & Hact & Hm).
  split; [exact H1|]. split; [exact H2|]. split.
  - exists b. auto.
  - exists c. split; [exact Hc|]. rewrite H3. exact Hb.
Qed.

Lemma successful_delivery_leaves_record_witness :
  exists c,
    calls (store_after sample_env legacy_event sample_store) !! "test-call-123" = Some c
    /\ Call.business_id c = Some "business-123".
Proof.
  destruct (successful_delivery_leaves_record sample_env legacy_event sample_store
              {| Result.success := true;
                 Result.call_id := "test-call-123";
                 Result.business_id := "business-123";
                 Result.event_type := None;
                 Result.notifications_sent := Some true;
                 Result.extracted_info :=
                   Some (Some {| name := Some "Sarah Jones"; callback_number := None;
                                 address := None; reason := Some "Help";
                                 call_summary := Some "Help" |});
                 Result.message := None |})
    as (_ & _ & _ & c & Hc & Hb).
  - vm_compute. reflexivity.
  - exists c. split; [exact Hc | apply Hb; reflexivity].
Defined.

(** ** The Ended event *)

(** X13: a call_ended event for a call that is not stored fails and leaves
    the store as it was, analytics included; one that succeeds found the
    call stored and changed nothing of it but its status, now
    'completed'. *)
Theorem ended_needs_a_stored_call
    (env : Env) (webhookData : Webhook.data) (st : Store) :
  strictly_equals (Webhook.event_type webhookData) "call_ended" = true ->
  (calls st !! Webhook.call_id webhookData = None ->
   exists e, handleRetellWebhook env webhookData st = (Thrown e, st))
  /\ (forall res,
         fst (handleRetellWebhook env webhookData st) = Returned res ->
         exists c,
           calls st !! Webhook.call_id webhookData = Some c
           /\ calls (store_after env webhookData st) !! Webhook.call_id webhookData
              = Some {| Call.business_id := Call.business_id c;
                        Call.caller_name := Call.caller_name c;
                        Call.callback_number := Call.callback_number c;
                        Call.address := Call.address c;
                        Call.reason := Call.reason c;
                        Call.call_summary := Call.call_summary c;
                        Call.recording_url := Call.recording_url c;
                        Call.transcript_text := Call.transcript_text c;
                        Call.duration := Call.duration c;
                        Call.cost := Call.cost c;
                        Call.call_status := Some "completed";
                        Call.notification_sent := Call.notification_sent c;
                        Call.from_number := Call.from_number c;
                        Call.to_number := Call.to_number c;
                        Call.created_at := Call.created_at c |}).
Proof.
  intros Hev. unfold store_after. rewrite handleRetellWebhook_resolve.
  destruct (resolve _ _ _) as [b|].
  - unfold dispatch.
    rewrite (strictly_equals_exclusive _ _ "call_started" Hev) by discriminate.
    rewrite Hev. split.
    + intros Hnone. unfold handleCallEnded. unfold_monad.
      destruct (updateCallStatus_cases env (Webhook.call_id webhookData) "completed" st)
        as [[e He] | [c [Hc _]]]; [|congruence].
      rewrite He. eauto.
    + intros res. destruct (handleCallEnded env webhookData b st) as [o st'] eqn:D.
      cbn [fst snd]. intros ->. apply handleCallEnded_success in D.
      destruct D as (c & Hc & Hcalls & _). exists c. split; [exact Hc|].
      rewrite Hcalls, lookup_insert_eq. reflexivity.
  - split; [eauto | discriminate].
Qed.

Lemma ended_needs_a_stored_call_witness :
  exists e, handleRetellWebhook sample_env ended_event sample_store
            = (Thrown e, sample_store).
Proof.
  apply (proj1 (ended_needs_a_stored_call sample_env ended_event sample_store eq_refl)).
  reflexivity.
Defined.

(** ** Deliveries without an extraction *)

Lemma analyzedInfo_without_text (webhookData : Webhook.data) :
  truthy (transcriptText webhookData) = false -> analyzedInfo webhookData = None.
Proof.
  unfold analyzedInfo, truthy. destruct (transcriptText webhookData) as [t|]; [|reflexivity].
  destruct (Js.is_empty t); [reflexivity | discriminate].
Qed.

Lemma analyzedInfo_with_text (webhookData : Webhook.data) (t : string) :
  transcriptText webhookData = Some t -> t <> "" ->
  analyzedInfo webhookData = Some (extractCallInformation (JsString t))
  /\ has_summary (analyzedInfo webhookData) = true.
Proof.
  intros Ht Hne. unfold analyzedInfo. rewrite Ht.
  destruct t as [|a r]; [congruence|]. cbn [Js.is_empty]. split; [reflexivity|].
  unfold has_summary, extractCallInformation. cbn [Js.is_empty call_summary truthy].
  destruct (createCallSummary _) eqn:E; [|reflexivity].
  exfalso. eapply (proj1 (createCallSummary_bounds _)). exact E.
Qed.

(** X14: a handler that runs without an extraction does not erase what an
    earlier delivery extracted.  A successful call_started event on a
    stored call keeps its caller name, callback number, address, reason,
    summary, notification flag and creation time, and sets the status to
    'in-progress'; a successful call_analyzed event without any transcript
    text keeps the same columns, sends no notification and sets the status
    to 'completed'. *)
Theorem no_extraction_keeps_caller_fields
    (env : Env) (webhookData : Webhook.data) (st : Store) (res : Result.t) :
  fst (handleRetellWebhook env webhookData st) = Returned res ->
  (strictly_equals (Webhook.event_type webhookData) "call_started" = true ->
   exists c',
     calls (store_after env webhookData st) !! Webhook.call_id webhookData = Some c'
     /\ same_caller_fields (found_columns env st (Webhook.call_id webhookData)) c'
     /\ Call.call_status c' = Some "in-progress")
  /\ (strictly_equals (Webhook.event_type webhookData) "call_analyzed" = true ->
      truthy (transcriptText webhookData) = false ->
      Result.notifications_sent res = Some false
      /\ Result.extracted_info res = Some None
      /\ exists c',
           calls (store_after env webhookData st) !! Webhook.call_id webhookData = Some c'
           /\ same_caller_fields (found_columns env st (Webhook.call_id webhookData)) c'
           /\ Call.call_status c' = Some "completed").
Proof.
  unfold store_after. rewrite handleRetellWebhook_resolve.
  destruct (resolve _ _ _) as [b|]; [|discriminate].
  destruct (dispatch env webhookData b st) as [o st'] eqn:D. cbn [fst snd].
  intros ->. unfold dispatch in D. split.
  - intros Hev. rewrite Hev in D. apply handleCallStarted_success in D.
    destruct D as (Hc & _). eexists. split; [rewrite Hc; apply lookup_insert_eq|].
    split; [|reflexivity]. unfold started_columns. repeat split.
  - intros Hev Ht.
    rewrite (strictly_equals_exclusive _ _ "call_started" Hev) in D by discriminate.
    rewrite (strictly_equals_exclusive _ _ "call_ended" Hev) in D by discriminate.
    rewrite Hev in D. apply handleCallAnalyzed_success in D.
    destruct D as (Hc & _ & _ & _ & Hinfo & Hsent).
    rewrite (analyzedInfo_without_text _ Ht) in *.
    split; [exact Hsent|]. split; [exact Hinfo|].
    eexists. split; [rewrite Hc; apply lookup_insert_eq|].
    unfold analyzed_columns. rewrite (analyzedInfo_without_text _ Ht).
    cbn [has_summary andb]. cbv zeta. split; [repeat split | reflexivity].
Qed.

Lemma no_extraction_keeps_caller_fields_witness :
  exists c',
    calls (store_after sample_env started_event
             (store_after sample_env analyzed_event sample_store))
      !! "test-call-123" = Some c'
    /\ Call.caller_name c' = Some "John Doe"
    /\ Call.call_status c' = Some "in-progress".
Proof.
  destruct (proj1 (no_extraction_keeps_caller_fields sample_env started_event
                     (store_after sample_env analyzed_event sample_store)
                     {| Result.success := true;
                        Result.call_id := "test-call-123";
                        Result.business_id := "business-123";
                        Result.event_type := Some "call_started";
                        Result.notifications_sent := None;
                        Result.extracted_info := None;
                        Result.message := Some "Call started successfully" |}
                     ltac:(vm_compute; reflexivity))
              eq_refl) as (c' & Hc & (Hname & _) & Hstatus).
  exists c'. split; [exact Hc|]. split; [|exact Hstatus].
  rewrite Hname. vm_compute. reflexivity.
Defined.

(** ** The Analyzed event with a transcript *)

(** X15: a successful call_analyzed event whose payload carries a
    transcript text stores the extraction of that text, field by field,
    nulls included (a name stored before is erased when the text has none),
    stores the text and the status 'completed', and returns the extraction;
    when the flag write is answered normally the stored notification flag
    is the outcome of the notification. *)
Theorem analyzed_stores_the_extraction
    (env : Env) (webhookData : Webhook.data) (st : Store) (res : Result.t) (t : string) :
  strictly_equals (Webhook.event_type webhookData) "call_analyzed" = true ->
  transcriptText webhookData = Some t -> t <> "" ->
  fst (handleRetellWebhook env webhookData st) = Returned res ->
  let info := extractCallInformation (JsString t) in
  Result.extracted_info res = Some (Some info)
  /\ Result.notifications_sent res = Some (notification_success env)
  /\ exists c',
       calls (store_after env webhookData st) !! Webhook.call_id webhookData = Some c'
       /\ Call.caller_name c' = name info
       /\ Call.callback_number c' = callback_number info
       /\ Call.address c' = address info
       /\ Call.reason c' = reason info
       /\ Call.call_summary c' = call_summary info
       /\ Call.transcript_text c' = Some t
       /\ Call.call_status c' = Some "completed"
       /\ (notification_write_fault env = NoFault ->
           Call.notification_sent c' = Some (notification_success env)).
Proof.
  intros Hev Ht Hne. unfold store_after. rewrite handleRetellWebhook_resolve.
  destruct (resolve _ _ _) as [b|]; [|discriminate].
  destruct (dispatch env webhookData b st) as [o st'] eqn:D. cbn [fst snd].
  intros ->. unfold dispatch in D.
  rewrite (strictly_equals_exclusive _ _ "call_started" Hev) in D by discriminate.
  rewrite (strictly_equals_exclusive _ _ "call_ended" Hev) in D by discriminate.
  rewrite Hev in D. apply handleCallAnalyzed_success in D.
  destruct D as (Hc & _ & _ & _ & Hinfo & Hsent).
  destruct (analyzedInfo_with_text _ _ Ht Hne) as [Hi Hs].
  cbv zeta. rewrite Hs in Hsent. rewrite Hi in Hinfo.
  split; [exact Hinfo|]. split; [exact Hsent|].
  eexists. split; [rewrite Hc; apply lookup_insert_eq|].
  unfold analyzed_columns. cbv zeta. rewrite Hs, Hi.
  destruct (notification_write_fault env) eqn:F; cbn [andb is_no_fault];
    unfold callData, Call.apply; cbn -[extractCallInformation cost_of duration_of];
    rewrite ?Ht; repeat split; intros; try discriminate; reflexivity.
Qed.

Lemma analyzed_stores_the_extraction_witness :
  exists c',
    calls (store_after sample_env analyzed_event sample_store) !! "test-call-123" = Some c'
    /\ Call.caller_name c' = Some "John Doe"
    /\ Call.callback_number c' = Some "+15551234567"
    /\ Call.notification_sent c' = Some true.
Proof.
  destruct (analyzed_stores_the_extraction sample_env analyzed_event sample_store
              {| Result.success := true;
                 Result.call_id := "test-call-123";
                 Result.business_id := "business-123";
                 Result.event_type := Some "call_analyzed";
                 Result.notifications_sent := Some true;
                 Result.extracted_info :=
                   Some (Some {| name := Some "John Doe";
                                 callback_number := Some "+15551234567";
                                 address := None; reason := Some "Help";
                                 call_summary := Some "Help" |});
                 Result.message := Some "Call analyzed and notifications sent" |}
              "Hello, my name is John Doe. My phone number is 555-123-4567. I need help with a plumbing issue."
              eq_refl eq_refl ltac:(discriminate) ltac:(vm_compute; reflexivity))
    as (_ & _ & c' & Hc & Hn & Hp & _ & _ & _ & _ & _ & Hsent).
  exists c'. split; [exact Hc|]. split; [|split].
  - rewrite Hn. vm_compute. reflexivity.
  - rewrite Hp. vm_compute. reflexivity.
  - apply Hsent. reflexivity.
Defined.

(** ** The legacy format *)

Lemma legacyInfo_not_completed (webhookData : Webhook.data) :
  strictly_equals (Webhook.call_status webhookData) "completed" = false ->
  legacyInfo webhookData = None.
Proof.
  intros H. unfold legacyInfo. rewrite H.
  destruct (transcriptText webhookData); reflexivity.
Qed.

(** X16: a payload without one of the three event types is processed in
    the legacy way.  When it succeeds, a notification is reported sent only
    if call_status is 'completed' and the notification went through.  When
    call_status is not 'completed' nothing is extracted, even from a
    transcript in the payload: the caller fields and the notification flag
    stay as found, and the stored status is the payload's, or, the payload
    having none, the one found (the column default 'completed' for a new
    call).  When call_status is 'completed' and the flag write is answered
    normally, the stored flag is the notification outcome. *)
Theorem legacy_notifies_only_when_completed
    (env : Env) (webhookData : Webhook.data) (st : Store) (res : Result.t) :
  strictly_equals (Webhook.event_type webhookData) "call_started" = false ->
  strictly_equals (Webhook.event_type webhookData) "call_ended" = false ->
  strictly_equals (Webhook.event_type webhookData) "call_analyzed" = false ->
  fst (handleRetellWebhook env webhookData st) = Returned res ->
  let completed := strictly_equals (Webhook.call_status webhookData) "completed" in
  let found := found_columns env st (Webhook.call_id webhookData) in
  Result.notifications_sent res = Some (completed && notification_success env)
  /\ exists c',
       calls (store_after env webhookData st) !! Webhook.call_id webhookData = Some c'
       /\ (completed = false ->
           Result.extracted_info res = Some None
           /\ same_caller_fields found c'
           /\ Call.call_status c'
              = match Webhook.call_status webhookData with
                | Some s => Some s
                | None => Call.call_status found
                end)
       /\ (completed = true ->
           Call.call_status c' = Some "completed"
           /\ (notification_write_fault env = NoFault ->
               Call.notification_sent c' = Some (notification_success env))).
Proof.
  intros E1 E2 E3. unfold store_after. rewrite handleRetellWebhook_resolve.
  destruct (resolve _ _ _) as [b|]; [|discriminate].
  destruct (dispatch env webhookData b st) as [o st'] eqn:D. cbn [fst snd].
  intros ->. unfold dispatch in D. rewrite E1, E2, E3 in D.
  apply handleLegacyWebhook_success in D.
  destruct D as (Hc & _ & _ & _ & Hinfo & Hsent). cbv zeta.
  split; [exact Hsent|].
  eexists. split; [rewrite Hc; apply lookup_insert_eq|].
  unfold legacy_columns. cbv zeta.
  destruct (strictly_equals (Webhook.call_status webhookData) "completed") eqn:Ec.
  - split; [discriminate|]. intros _.
    assert (Hs : Webhook.call_status webhookData = Some "completed").
    { unfold strictly_equals in Ec.
      destruct (Webhook.call_status webhookData) as [s|]; [|discriminate].
      apply String.eqb_eq in Ec. now subst. }
    destruct (notification_write_fault env) eqn:F; cbn [andb is_no_fault];
      unfold callData, Call.apply; rewrite Hs;
      (split; [reflexivity | intros; try discriminate; reflexivity]).
  - split; [|discriminate]. intros _. cbn [andb].
    rewrite (legacyInfo_not_completed _ Ec) in *.
    split; [exact Hinfo|]. split; [repeat split|].
    unfold callData, Call.apply. cbn [Call.call_status Call.p_call_status].
    destruct (Webhook.call_status webhookData); reflexivity.
Qed.

Lemma legacy_notifies_only_when_completed_witness :
  let failed_event :=
    sample_event None (Some "failed") (Some "my name is sarah jones") in
  exists c',
    calls (store_after sample_env failed_event sample_store) !! "test-call-123" = Some c'
    /\ Call.caller_name c' = None
    /\ Call.notification_sent c' = Some false
    /\ Call.call_status c' = Some "failed".
Proof.
  cbv zeta.
  destruct (legacy_notifies_only_when_completed sample_env
              (sample_event None (Some "failed") (Some "my name is sarah jones"))
              sample_store
              {| Result.success := true;
                 Result.call_id := "test-call-123";
                 Result.business_id := "business-123";
                 Result.event_type := None;
                 Result.notifications_sent := Some false;
                 Result.extracted_info := Some None;
                 Result.message := None |}
              eq_refl eq_refl eq_refl ltac:(vm_compute; reflexivity))
    as (_ & c' & Hc & Hnot & _).
  destruct (Hnot eq_refl) as (_ & (Hn & _ & _ & _ & _ & Hflag & _) & Hstatus).
  exists c'. split; [exact Hc|]. split; [|split].
  - rewrite Hn. reflexivity.
  - rewrite Hflag. reflexivity.
  - rewrite Hstatus. reflexivity.
Defined.

(** ** Redelivery of a Started event *)

Lemma started_columns_idem (webhookData : Webhook.data) (b : Business.row)
    (c0 : Call.columns) :
  started_columns webhookData b (started_columns webhookData b c0)
  = started_columns webhookData b c0.
Proof. apply apply_idem. Qed.

Lemma handleCallStarted_fault_free (env : Env) (webhookData : Webhook.data)
    (b : Business.row) (st : Store) :
  fault_free env ->
  exists res st',
    handleCallStarted env webhookData b st = (Returned res, st')
    /\ calls st' = <[Webhook.call_id webhookData :=
                       started_columns webhookData b
                         (found_columns env st (Webhook.call_id webhookData))]> (calls st)
    /\ businesses st' = businesses st
    /\ call_analytics st'
       = <[(Business.id b, today env) :=
             counted (Some "started") (call_analytics st !! (Business.id b, today env))]>
           (call_analytics st).
Proof.
  intros (_ & Hs & Hw & _ & Has & Haw).
  unfold handleCallStarted. unfold_monad.
  pose proof (createOrUpdateCall_no_fault env webhookData (Business.id b) None
                (Some "in-progress") st Hs Hw) as Hok.
  cbv zeta in Hok. rewrite Hok.
  match goal with
  | |- context [updateCallAnalytics env ?bid ?cc ?et ?s] =>
      destruct (updateCallAnalytics_returns env bid cc et s) as (st2 & H & Hc & Hb & Ha)
  end.
  rewrite H. do 2 eexists. split; [reflexivity|].
  split; [rewrite Hc; reflexivity|]. split; [rewrite Hb; reflexivity|].
  rewrite (Ha Has Haw). reflexivity.
Qed.

(** X17: when a call_started event is delivered twice on the same day with
    every store request answered normally, the second delivery leaves the
    call table as the first did, but the call is counted twice:
    total_calls of the business's row for the day ends up 2 higher. *)
Theorem started_redelivery_counts_twice
    (env1 env2 : Env) (webhookData : Webhook.data) (st : Store) (b : Business.row) :
  strictly_equals (Webhook.event_type webhookData) "call_started" = true ->
  fault_free env1 -> fault_free env2 -> today env2 = today env1 ->
  resolve NoFault (Webhook.to_number webhookData) (businesses st) = Some b ->
  let st1 := store_after env1 webhookData st in
  let st2 := store_after env2 webhookData st1 in
  calls st2 = calls st1
  /\ total_calls_of st2 (Business.id b, today env1)
     = (total_calls_of st (Business.id b, today env1) + 2)%Z.
Proof.
  intros Hev F1 F2 Hday Hres. cbv zeta. unfold store_after.
  pose proof F1 as (Hb1 & _). pose proof F2 as (Hb2 & _).
  rewrite (handleRetellWebhook_resolve env1), Hb1, Hres.
  unfold dispatch. rewrite Hev.
  destruct (handleCallStarted_fault_free env1 webhookData b st F1)
    as (res1 & st1 & H1 & Hc1 & Hbus1 & Ha1).
  rewrite H1. cbn [snd].
  rewrite (handleRetellWebhook_resolve env2), Hb2, Hbus1, Hres.
  unfold dispatch. rewrite Hev.
  destruct (handleCallStarted_fault_free env2 webhookData b st1 F2)
    as (res2 & st2 & H2 & Hc2 & _ & Ha2).
  rewrite H2. cbn [snd]. split.
  - rewrite Hc2. unfold found_columns. rewrite Hc1, lookup_insert_eq.
    cbn [from_option id]. rewrite started_columns_idem. apply insert_insert_eq.
  - unfold total_calls_of. rewrite Ha2, Hday, lookup_insert_eq, counted_total.
    rewrite Ha1, lookup_insert_eq, counted_total.
    destruct (call_analytics st !! (Business.id b, today env1)); lia.
Qed.

Lemma started_redelivery_counts_twice_witness :
  total_calls_of
    (store_after sample_env started_event
       (store_after sample_env started_event sample_store)) sample_key = 2%Z.
Proof.
  apply (proj2 (started_redelivery_counts_twice sample_env sample_env started_event
                  sample_store sample_business eq_refl
                  ltac:(repeat split) ltac:(repeat split) eq_refl eq_refl)).
Defined.

(** ** The transcript text of a payload *)

Lemma js_or_left (a b : option string) : truthy a = true -> js_or a b = a.
Proof. destruct a as [s|]; [destruct s|]; simpl; congruence. Qed.

Lemma js_or_right (a b : option string) : truthy a = false -> js_or a b = b.
Proof. destruct a as [s|]; [destruct s|]; simpl; congruence. Qed.

(** X18: the handlers take the transcript from the first of transcript,
    transcript_text, conversation, call_summary and summary that is a
    non-empty string; when none is, nothing is extracted by the Analyzed
    handler, and the value written to transcript_text is that of
    [summary]. *)
Theorem transcript_is_first_nonempty_field (webhookData : Webhook.data) :
  truthy (transcriptText webhookData) = existsb truthy (text_fields webhookData)
  /\ (forall field,
         List.find truthy (text_fields webhookData) = Some field ->
         transcriptText webhookData = field)
  /\ (List.find truthy (text_fields webhookData) = None ->
      transcriptText webhookData = Webhook.summary webhookData
      /\ analyzedInfo webhookData = None).
Proof.
  assert (Hnone : truthy (transcriptText webhookData) = false ->
                  analyzedInfo webhookData = None)
    by apply analyzedInfo_without_text.
  revert Hnone. unfold transcriptText, text_fields. cbn [existsb List.find].
  destruct (truthy (Webhook.transcript webhookData)) eqn:T1.
  { rewrite !(js_or_left (Webhook.transcript webhookData) _ T1), T1. intros _.
    split; [reflexivity|]. split; [|discriminate]. intros f H; now inversion H. }
  rewrite (js_or_right _ _ T1).
  destruct (truthy (Webhook.transcript_text webhookData)) eqn:T2.
  { rewrite !(js_or_left (Webhook.transcript_text webhookData) _ T2), T2. intros _.
    split; [reflexivity|]. split; [|discriminate]. intros f H; now inversion H. }
  rewrite (js_or_right _ _ T2).
  destruct (truthy (Webhook.conversation webhookData)) eqn:T3.
  { rewrite !(js_or_left (Webhook.conversation webhookData) _ T3), T3. intros _.
    split; [reflexivity|]. split; [|discriminate]. intros f H; now inversion H. }
  rewrite (js_or_right _ _ T3).
  destruct (truthy (Webhook.call_summary webhookData)) eqn:T4.
  { rewrite !(js_or_left (Webhook.call_summary webhookData) _ T4), T4. intros _.
    split; [reflexivity|]. split; [|discriminate]. intros f H; now inversion H. }
  rewrite (js_or_right _ _ T4). cbn [orb].
  destruct (truthy (Webhook.summary webhookData)) eqn:T5.
  { intros _. split; [reflexivity|]. split; [|discriminate].
    intros f H; now inversion H. }
  intros Hnone. split; [reflexivity|]. split; [discriminate|].
  intros _. split; [reflexivity | apply Hnone; reflexivity].
Qed.

Lemma transcript_is_first_nonempty_field_witness :
  let payload :=
    {| Webhook.call_id := "c"; Webhook.event_type := Some "call_analyzed";
       Webhook.to_number := Some "5559876543"; Webhook.from_number := None;
       Webhook.call_status := None;
       Webhook.transcript := Some ""; Webhook.transcript_text := None;
       Webhook.conversation := Some "i need a plumber";
       Webhook.call_summary := Some "ignored"; Webhook.summary := None;
       Webhook.recording_url := None; Webhook.call_duration := None |} in
  transcriptText payload = Some "i need a plumber".
Proof.
  cbv zeta.
  match goal with
  | |- transcriptText ?w = _ =>
      apply (proj1 (proj2 (transcript_is_first_nonempty_field w)))
  end.
  reflexivity.
Defined.

(* ===================================================================== *)
(** * Properties of the notification service                              *)
(* ===================================================================== *)

(** X19: [sendAllNotifications] reports overall success exactly when the
    business has no Slack webhook or the Slack request is answered with
    status 200; the SMS part always reports success; failures of the log
    inserts never show in the result; and the list of errors is empty
    exactly when the overall result is a success. *)
Theorem overall_success_is_slack_success
    (e : Notify.env) (callData : Call.row) (b : Notify.business)
    (logs : list Notify.log) :
  let r := fst (Notify.sendAllNotifications e callData b logs) in
  Notify.overall_success r
  = negb (truthy (Notify.slack_webhook_url b)) || Notify.slack_delivered e
  /\ (Notify.success <$> Notify.sms r) = Some true
  /\ (Notify.errors r = [] <-> Notify.overall_success r = true)
  /\ (forall f1 f2,
         fst (Notify.sendAllNotifications
                {| Notify.sms_log_fault := f1; Notify.slack_log_fault := f2;
                   Notify.slack_post := Notify.slack_post e |} callData b logs)
         = r).
Proof.
  cbv zeta.
  unfold Notify.sendAllNotifications, Notify.sendSMSNotification,
    Notify.sendSlackNotification, Notify.slack_failed, Notify.slack_delivered.
  cbn [Notify.sms_log_fault Notify.slack_log_fault Notify.slack_post].
  destruct (truthy (Notify.slack_webhook_url b)); cbn [negb].
  - destruct (Notify.slack_post e) as [n|m]; [destruct (n =? 200)%Z|];
      cbn; (split; [reflexivity|]); (split; [reflexivity|]);
      (split; [split; intros; congruence | intros; reflexivity]).
  - cbn. split; [reflexivity|]. split; [reflexivity|].
    split; [split; intros; congruence | intros; reflexivity].
Qed.

Lemma logNotification_adds (f : fault) (callId type status : string)
    (recipient errorMessage : option string) (logs : list Notify.log) :
  exists added,
    Notify.logNotification f callId type status recipient errorMessage logs
    = logs ++ added
    /\ (List.length added <= 1)%nat
    /\ Forall (fun l => Notify.call_id l = callId /\ Notify.notification_type l = type
                        /\ Notify.status l = status) added
    /\ (f = NoFault -> List.length added = 1%nat).
Proof.
  destruct f; simpl.
  - eexists. split; [reflexivity|]. split; [simpl; lia|].
    split; [repeat constructor | reflexivity].
  - exists []. rewrite app_nil_r. repeat split; [simpl; lia | constructor | discriminate].
  - exists []. rewrite app_nil_r. repeat split; [simpl; lia | constructor | discriminate].
Qed.

(** X20: [sendAllNotifications] only appends to the notification log: the
    rows already there stay, and it adds at most one 'sms' row and at most
    one 'slack' row, all for the call at hand; the 'sms' row says 'sent',
    the 'slack' row says 'sent' or 'failed' according to the Slack request,
    and a business without a webhook gets no 'slack' row.  When both inserts
    are answered normally the rows are there. *)
Theorem notification_log_rows
    (e : Notify.env) (callData : Call.row) (b : Notify.business)
    (logs : list Notify.log) :
  exists sms_rows slack_rows,
    snd (Notify.sendAllNotifications e callData b logs) = logs ++ sms_rows ++ slack_rows
    /\ (List.length sms_rows <= 1)%nat
    /\ (List.length slack_rows <= 1)%nat
    /\ Forall (fun l => Notify.call_id l = Call.id callData
                        /\ Notify.notification_type l = "sms"
                        /\ Notify.status l = "sent") sms_rows
    /\ Forall (fun l => Notify.call_id l = Call.id callData
                        /\ Notify.notification_type l = "slack"
                        /\ Notify.status l
                           = if Notify.slack_delivered e then "sent" else "failed")
              slack_rows
    /\ (truthy (Notify.slack_webhook_url b) = false -> slack_rows = [])
    /\ (Notify.sms_log_fault e = NoFault -> List.length sms_rows = 1%nat)
    /\ (Notify.slack_log_fault e = NoFault ->
        truthy (Notify.slack_webhook_url b) = true ->
        List.length slack_rows = 1%nat).
Proof.
  unfold Notify.sendAllNotifications, Notify.sendSMSNotification,
    Notify.sendSlackNotification, Notify.slack_failed, Notify.slack_delivered.
  destruct (logNotification_adds (Notify.sms_log_fault e) (Call.id callData) "sms" "sent"
              (Some (Notify.owner_phone b)) None logs)
    as (sms_rows & Hs & Hslen & Hsall & Hsok).
  rewrite Hs. exists sms_rows.
  destruct (truthy (Notify.slack_webhook_url b)) eqn:Hurl; cbn [negb].
  - assert (Hcase : forall status msg,
              status = (if match Notify.slack_post e with
                           | Notify.Responds n => (n =? 200)%Z
                           | Notify.Fails _ => false
                           end then "sent" else "failed") ->
              exists slack_rows,
                Notify.logNotification (Notify.slack_log_fault e) (Call.id callData)
                  "slack" status (Notify.slack_webhook_url b) msg (logs ++ sms_rows)
                = logs ++ sms_rows ++ slack_rows
                /\ (List.length slack_rows <= 1)%nat
                /\ Forall (fun l => Notify.call_id l = Call.id callData
                                    /\ Notify.notification_type l = "slack"
                                    /\ Notify.status l
                                       = (if match Notify.slack_post e with
                                              | Notify.Responds n => (n =? 200)%Z
                                              | Notify.Fails _ => false
                                              end then "sent" else "failed"))
                          slack_rows
                /\ (Notify.slack_log_fault e = NoFault ->
                    List.length slack_rows = 1%nat)).
    { intros status msg Hst.
      destruct (logNotification_adds (Notify.slack_log_fault e) (Call.id callData)
                  "slack" status (Notify.slack_webhook_url b) msg (logs ++ sms_rows))
        as (rows & Hr & Hlen & Hall & Hok).
      exists rows. rewrite Hr, <- app_assoc. split; [reflexivity|].
      split; [exact Hlen|]. split; [|exact Hok].
      eapply List.Forall_impl; [|exact Hall]. cbv beta. intros l (H1 & H2 & H3).
      rewrite H3. auto. }
    destruct (Notify.slack_post e) as [n|m] eqn:Hp; [destruct (n =? 200)%Z eqn:Hn|];
      cbn [snd].
    + destruct (Hcase "sent" None eq_refl) as (rows & Hr & Hlen & Hall & Hok).
      exists rows. rewrite Hr. repeat split; auto. discriminate.
    + destruct (Hcase "failed" (Some (Notify.bad_status n)) eq_refl)
        as (rows & Hr & Hlen & Hall & Hok).
      exists rows. rewrite Hr. repeat split; auto. discriminate.
    + destruct (Hcase "failed" (Some m) eq_refl) as (rows & Hr & Hlen & Hall & Hok).
      exists rows. rewrite Hr. repeat split; auto. discriminate.
  - exists []. cbn [snd]. rewrite app_nil_r.
    repeat split; auto; try constructor; try discriminate; try (simpl; lia).
Qed.

(** ** Retrying a notification *)

Lemma logNotification_fresh (f : fault) (callId type status : string)
    (recipient errorMessage : option string) (logs : list Notify.log) :
  exists added,
    Notify.logNotification f callId type status recipient errorMessage logs
    = logs ++ added
    /\ (List.length added <= 1)%nat
    /\ Notify.within_retries added.
Proof.
  unfold Notify.within_retries. destruct f; simpl.
  - eexists. split; [reflexivity|]. split; [simpl; lia|].
    constructor; [simpl; lia | constructor].
  - exists []. rewrite app_nil_r. repeat split; [simpl; lia | constructor].
  - exists []. rewrite app_nil_r. repeat split; [simpl; lia | constructor].
Qed.

Lemma sendSMSNotification_appends (e : Notify.env) (call : Call.row)
    (b : Notify.business) (logs : list Notify.log) :
  exists added,
    snd (Notify.sendSMSNotification e call b logs) = logs ++ added
    /\ (List.length added <= 1)%nat
    /\ Notify.within_retries added.
Proof. unfold Notify.sendSMSNotification. cbn [snd]. apply logNotification_fresh. Qed.

Lemma sendSlackNotification_appends (e : Notify.env) (call : Call.row)
    (b : Notify.business) (logs : list Notify.log) :
  exists added,
    snd (Notify.sendSlackNotification e call b logs) = logs ++ added
    /\ (List.length added <= 1)%nat
    /\ Notify.within_retries added.
Proof.
  unfold Notify.sendSlackNotification, Notify.slack_failed.
  destruct (negb (truthy (Notify.slack_webhook_url b))).
  - exists []. cbn [snd]. rewrite app_nil_r.
    repeat split; [simpl; lia | constructor].
  - destruct (Notify.slack_post e) as [n|m]; [destruct (n =? 200)%Z|];
      cbn [snd]; apply logNotification_fresh.
Qed.

(** What [retryNotification] does once it has reached a sender. *)
Lemma retryNotification_cases (e : Notify.retry_env) (id : nat) (logs : list Notify.log) :
  (exists m, Notify.retryNotification e id logs = (Thrown m, logs))
  \/ (exists notification r added m,
        logs !! id = Some notification
        /\ (Notify.retry_count notification < Notify.max_retries notification)%Z
        /\ (List.length added <= 1)%nat
        /\ Notify.within_retries added
        /\ (Notify.retryNotification e id logs = (Thrown m, logs ++ added)
            \/ (Notify.log_update_fault e <> NoFault
                /\ Notify.retryNotification e id logs = (Returned r, logs ++ added))
            \/ (Notify.log_update_fault e = NoFault
                /\ Notify.retryNotification e id logs
                   = (Returned r, <[id := Notify.retried notification r]> (logs ++ added))))).
Proof.
  unfold Notify.retryNotification.
  destruct (Notify.log_select_fault e); [|left; eauto..].
  destruct (logs !! id) as [n|] eqn:L; [|left; eauto].
  destruct (Z.leb_spec (Notify.max_retries n) (Notify.retry_count n)); [left; eauto|].
  destruct (Notify.call_join_fault e); [|left; eauto..].
  destruct (Notify.call_with_business e (Notify.call_id n)) as [[call [b|]]|];
    [| |left; eauto].
  2: { destruct (String.eqb (Notify.notification_type n) "sms"); [left; eauto|].
       destruct (String.eqb (Notify.notification_type n) "slack"); left; eauto. }
  cbv zeta.
  assert (Hsent :
            forall sender,
              (exists added,
                  snd sender = logs ++ added /\ (List.length added <= 1)%nat
                  /\ Notify.within_retries added) ->
              (exists m,
                  (let (r, logs1) := sender in
                   match Notify.log_update_fault e with
                   | NoFault => (Returned r, <[id := Notify.retried n r]> logs1)
                   | ReturnsError _ => (Returned r, logs1)
                   | Rejects m => (Thrown m, logs1)
                   end) = (Thrown m, logs))
              \/ (exists notification r added m,
                     Some n = Some notification
                     /\ (Notify.retry_count notification
                         < Notify.max_retries notification)%Z
                     /\ (List.length added <= 1)%nat
                     /\ Notify.within_retries added
                     /\ ((let (r, logs1) := sender in
                          match Notify.log_update_fault e with
                          | NoFault => (Returned r, <[id := Notify.retried n r]> logs1)
                          | ReturnsError _ => (Returned r, logs1)
                          | Rejects m => (Thrown m, logs1)
                          end) = (Thrown m, logs ++ added)
                         \/ (Notify.log_update_fault e <> NoFault
                             /\ (let (r, logs1) := sender in
                                 match Notify.log_update_fault e with
                                 | NoFault =>
                                     (Returned r, <[id := Notify.retried n r]> logs1)
                                 | ReturnsError _ => (Returned r, logs1)
                                 | Rejects m => (Thrown m, logs1)
                                 end) = (Returned r, logs ++ added))
                         \/ (Notify.log_update_fault e = NoFault
                             /\ (let (r, logs1) := sender in
                                 match Notify.log_update_fault e with
                                 | NoFault =>
                                     (Returned r, <[id := Notify.retried n r]> logs1)
                                 | ReturnsError _ => (Returned r, logs1)
                                 | Rejects m => (Thrown m, logs1)
                                 end)
                                = (Returned r,
                                   <[id := Notify.retried notification r]>
                                     (logs ++ added)))))).
  { intros [r logs1] (added & Hl & Hlen & Hw). cbn [snd] in Hl. subst logs1.
    right. exists n, r, added.
    destruct (Notify.log_update_fault e) as [|m|m].
    - exists "". do 4 (split; [assumption || reflexivity|]).
      right. right. split; reflexivity.
    - exists "". do 4 (split; [assumption || reflexivity|]).
      right. left. split; [discriminate | reflexivity].
    - exists m. do 4 (split; [assumption || reflexivity|]).
      left. reflexivity. }
  destruct (String.eqb (Notify.notification_type n) "sms").
  - apply Hsent, sendSMSNotification_appends.
  - destruct (String.eqb (Notify.notification_type n) "slack").
    + apply Hsent, sendSlackNotification_appends.
    + left. eauto.
Qed.

(** X21: [retryNotification] respects the retry limit.  For a row that is
    missing or has used up its retries it throws and leaves the log as it
    was.  When it returns, the row had retries left; the log has at most one
    new row, and with the update answered normally the row's retry_count is
    one higher and its status says whether the retry succeeded.  In every
    case, if no row had more retries than allowed before, none has
    after. *)
Theorem retry_respects_max_retries
    (e : Notify.retry_env) (id : nat) (logs : list Notify.log) :
  ((forall n, logs !! id = Some n ->
      (Notify.max_retries n <= Notify.retry_count n)%Z) ->
   exists m, Notify.retryNotification e id logs = (Thrown m, logs))
  /\ (forall r logs',
         Notify.retryNotification e id logs = (Returned r, logs') ->
         exists n,
           logs !! id = Some n
           /\ (Notify.retry_count n < Notify.max_retries n)%Z
           /\ (List.length logs <= List.length logs' <= List.length logs + 1)%nat
           /\ (Notify.log_update_fault e = NoFault ->
               logs' !! id = Some (Notify.retried n r)))
  /\ (Notify.within_retries logs ->
      Notify.within_retries (snd (Notify.retryNotification e id logs))).
Proof.
  destruct (retryNotification_cases e id logs)
    as [[m Hm] | (n & r & added & m & Hn & Hlt & Hlen & Hw & Hcases)].
  - split; [eauto|]. split; [rewrite Hm; discriminate|]. now rewrite Hm.
  - assert (Hid : (id < List.length logs)%nat) by (eapply lookup_lt_Some; eauto).
    assert (Hretried : (Notify.retry_count (Notify.retried n r)
                        <= Notify.max_retries (Notify.retried n r))%Z)
      by (simpl; lia).
    split; [|split].
    + intros Hmax. specialize (Hmax n Hn). lia.
    + intros r' logs' H.
      destruct Hcases as [Hc | [[Hf Hc] | [Hf Hc]]]; rewrite Hc in H;
        [discriminate | |]; inversion H; subst; exists n;
        (split; [exact Hn|]); (split; [exact Hlt|]).
      * split; [rewrite length_app; lia | congruence].
      * split; [rewrite length_insert, length_app; lia|]. intros _.
        apply list_lookup_insert_eq. rewrite length_app. lia.
    + intros Hall. unfold Notify.within_retries in *.
      destruct Hcases as [Hc | [[Hf Hc] | [Hf Hc]]]; rewrite Hc; cbn [snd].
      * apply Forall_app; auto.
      * apply Forall_app; auto.
      * apply Forall_insert; [apply Forall_app; auto | exact Hretried].
Qed.

Lemma retry_respects_max_retries_witness :
  Notify.within_retries [sample_log]
  /\ Notify.within_retries
       (snd (Notify.retryNotification sample_retry_env 0 [sample_log])).
Proof.
  assert (H : Notify.within_retries [sample_log])
    by (constructor; [simpl; lia | constructor]).
  split; [exact H|].
  exact (proj2 (proj2 (retry_respects_max_retries sample_retry_env 0 [sample_log])) H).
Defined.

(** ** The first counted delivery of a day *)

(** X22: with the analytics requests answered normally, a successfully
    processed event other than call_analyzed that finds no analytics row for
    its business and day creates that row with total_calls 1; the row counts
    one successful notification if the event is call_ended, and one failed
    notification for every other event. *)
Theorem first_delivery_of_day_opens_row
    (env : Env) (webhookData : Webhook.data) (st : Store) (res : Result.t) :
  analytics_select_fault env = NoFault ->
  analytics_write_fault env = NoFault ->
  strictly_equals (Webhook.event_type webhookData) "call_analyzed" = false ->
  fst (handleRetellWebhook env webhookData st) = Returned res ->
  call_analytics st !! (Result.business_id res, today env) = None ->
  let ended := strictly_equals (Webhook.event_type webhookData) "call_ended" in
  call_analytics (store_after env webhookData st) !! (Result.business_id res, today env)
  = Some {| Analytics.total_calls := 1;
            Analytics.successful_notifications := if ended then 1 else 0;
            Analytics.failed_notifications := if ended then 0 else 1 |}.
Proof.
  intros Hs Hw Hev. cbv zeta. unfold store_after.
  destruct (findBusinessByPhoneNumber_spec env (Webhook.to_number webhookData) st)
    as [found [Hrun _]].
  destruct found as [b|];
    [|rewrite (handleRetellWebhook_unresolved _ _ _ Hrun); discriminate].
  rewrite (handleRetellWebhook_resolved _ _ _ _ Hrun). unfold dispatch.
  rewrite Hev.
  destruct (strictly_equals (Webhook.event_type webhookData) "call_started") eqn:E1;
    [rewrite (strictly_equals_exclusive _ _ "call_ended" E1) by discriminate
    |destruct (strictly_equals (Webhook.event_type webhookData) "call_ended") eqn:E2].
  - destruct (handleCallStarted env webhookData b st) as [o st2] eqn:H.
    simpl. intros Ho; subst o.
    destruct (handleCallStarted_analytics _ _ _ _ _ _ Hs Hw H) as [Ha Hb].
    rewrite Hb, Ha. intros Hnone. rewrite lookup_insert_eq, Hnone. reflexivity.
  - destruct (handleCallEnded env webhookData b st) as [o st2] eqn:H.
    simpl. intros Ho; subst o.
    destruct (handleCallEnded_analytics _ _ _ _ _ _ Hs Hw H) as [Ha Hb].
    rewrite Hb, Ha. intros Hnone. rewrite lookup_insert_eq, Hnone. reflexivity.
  - destruct (handleLegacyWebhook env webhookData b st) as [o st2] eqn:H.
    simpl. intros Ho; subst o.
    destruct (handleLegacyWebhook_analytics _ _ _ _ _ _ Hs Hw H) as [Ha Hb].
    rewrite Hb, Ha. intros Hnone. rewrite lookup_insert_eq, Hnone. reflexivity.
Qed.

Lemma first_delivery_of_day_opens_row_witness :
  call_analytics (store_after sample_env started_event sample_store) !! sample_key
  = Some {| Analytics.total_calls := 1;
            Analytics.successful_notifications := 0;
            Analytics.failed_notifications := 1 |}.
Proof.
  refine (first_delivery_of_day_opens_row sample_env started_event sample_store _
            eq_refl eq_refl eq_refl eq_refl eq_refl).
Defined.
